(** * The Materializer ([_write_files.py]): a shallow embedding

    The script reads the manifest [_files_data.json] that sits next to it,
    decodes every base64 value, writes it under the key's file name, prints a
    newline count per file, and finally removes the manifest and itself.

    The script itself is eighteen lines; what it does is decided by the
    library calls it makes.  Each of them is modelled here as an executable
    function, for CPython 3.11 on a POSIX system whose locale and file system
    encoding are UTF-8:

    - [base64.b64decode] with its default [validate=False]
      ([binascii.a2b_base64] in non-strict mode),
    - [bytes.decode('utf-8')] and the UTF-8 text layer of [open],
    - [json.loads],
    - [os.path.join], path lookup, [open(.., 'w')], [open(..)] and
      [os.remove] over a tree of directories and regular files,
    - [str.count], [print] and the f-string rendering of an [int],
    - the start of the script, as far as the interpreter needs the script
      file to be there.

    A run takes the value of [os.path.abspath(__file__)] and the tree it
    starts on, and gives the tree it leaves, the log of what it did (files
    opened, written and removed, lines printed) and how it ended.

    Three limits that an input of the script can reach are part of the
    model: the length of a file name and of a path ([NAME_MAX], [PATH_MAX]),
    the interpreter's recursion limit in [json.loads], and its limit on the
    digits of an integer literal, each at its default.

    Outside the model: permissions, symbolic and hard links; memory and disk
    space; a standard output that is closed or not UTF-8. *)

From Stdlib Require Import ZArith List Bool Lia.
From stdpp Require Import gmap list strings.
Import ListNotations.

Local Open Scope Z_scope.

(** ** Python values *)

(** A [str] is a sequence of code points, a [bytes] a sequence of octets. *)
Abbreviation str := (list Z).
Abbreviation bytes := (list Z).

Definition is_byte (b : Z) : Prop := 0 <= b < 256.

(** Unicode scalar values: what a well-formed UTF-8 text is made of. *)
Definition is_scalar (c : Z) : Prop :=
  0 <= c < 55296 \/ 57344 <= c < 1114112.

(** The exceptions the script can die of.  [OSError] stands for the plain
    [OSError] of a name or path that is too long ([ENAMETOOLONG]).  The last
    one is not Python's: it marks a scanner of the model that was given too
    little fuel, which [json.loads] never is (lemma [loads_fuel]). *)
Inductive exn : Type :=
| FileNotFoundError
| NotADirectoryError
| IsADirectoryError
| OSError
| UnicodeDecodeError
| UnicodeEncodeError
| JSONDecodeError
| BinasciiError
| ValueError
| TypeError
| AttributeError
| RecursionError
| OutOfFuel.

Inductive res (A : Type) : Type :=
| Ok (a : A)
| Raise (e : exn).
Arguments Ok {A} a.
Arguments Raise {A} e.

Definition res_bind {A B} (r : res A) (k : A -> res B) : res B :=
  match r with
  | Ok a => k a
  | Raise e => Raise e
  end.

Definition res_map {A B} (f : A -> B) (r : res A) : res B :=
  res_bind r (fun a => Ok (f a)).

Definition is_ok {A} (r : res A) : bool :=
  match r with Ok _ => true | Raise _ => false end.

(** ** Base64 *)

Module Base64.

(** [table_a2b_base64]: the value of an alphabet character, [None] for every
    other octet (the table's 0xff entries). *)
Definition table_a2b_base64 (c : Z) : option Z :=
  if (65 <=? c) && (c <=? 90) then Some (c - 65)
  else if (97 <=? c) && (c <=? 122) then Some (c - 71)
  else if (48 <=? c) && (c <=? 57) then Some (c + 4)
  else if c =? 43 then Some 62
  else if c =? 47 then Some 63
  else None.

Definition BASE64_PAD : Z := 61.

(** Storing into an [unsigned char]. *)
Definition u8 (x : Z) : Z := Z.land x 255.

Definition emit (b : Z) (r : res bytes) : res bytes := res_map (cons b) r.

(** The main loop of [binascii.a2b_base64] with [strict_mode = 0].
    [quad_pos] is the position inside the current group of four characters,
    [leftchar] the bits not yet written, [pads] the run of [=] seen since the
    last alphabet character.  A pad that completes a group ends the decoding
    ([goto done]) and the rest of the input is not looked at; characters
    outside the alphabet are skipped. *)
Fixpoint a2b_loop (quad_pos : nat) (leftchar : Z) (pads : nat) (s : bytes)
  : res bytes :=
  match s with
  | [] =>
      match quad_pos with
      | O => Ok []
      | _ => Raise BinasciiError
      end
  | this_ch :: rest =>
      if this_ch =? BASE64_PAD then
        if (2 <=? quad_pos)%nat then
          if (4 <=? quad_pos + S pads)%nat then Ok []
          else a2b_loop quad_pos leftchar (S pads) rest
        else a2b_loop quad_pos leftchar pads rest
      else
        match table_a2b_base64 this_ch with
        | None => a2b_loop quad_pos leftchar pads rest
        | Some v =>
            match quad_pos with
            | 0%nat => a2b_loop 1 v 0 rest
            | 1%nat =>
                emit (u8 (Z.lor (Z.shiftl leftchar 2) (Z.shiftr v 4)))
                     (a2b_loop 2 (Z.land v 15) 0 rest)
            | 2%nat =>
                emit (u8 (Z.lor (Z.shiftl leftchar 4) (Z.shiftr v 2)))
                     (a2b_loop 3 (Z.land v 3) 0 rest)
            | _ =>
                emit (u8 (Z.lor (Z.shiftl leftchar 6) v))
                     (a2b_loop 0 0 0 rest)
            end
        end
  end.

Definition a2b_base64 (s : bytes) : res bytes := a2b_loop 0 0 0 s.

(** [_bytes_from_decode_data] on a [str]: [s.encode('ascii')], with the
    encoding error turned into a [ValueError]. *)
Definition bytes_from_decode_data (s : str) : res bytes :=
  if forallb (fun c => (0 <=? c) && (c <? 128)) s then Ok s
  else Raise ValueError.

(** [base64.b64decode(s)] for a [str] argument. *)
Definition b64decode (s : str) : res bytes :=
  res_bind (bytes_from_decode_data s) a2b_base64.

(** The encoder the manifest's producer uses ([base64.b64encode], RFC 4648
    with padding); the script never calls it, the round-trip property is
    stated against it. *)
Definition table_b2a_base64 (v : Z) : Z :=
  if v <? 26 then v + 65
  else if v <? 52 then v + 71
  else if v <? 62 then v - 4
  else if v =? 62 then 43
  else 47.

Fixpoint b64encode (bs : bytes) : str :=
  match bs with
  | [] => []
  | [a] =>
      [ table_b2a_base64 (Z.shiftr a 2);
        table_b2a_base64 (Z.shiftl (Z.land a 3) 4);
        BASE64_PAD; BASE64_PAD ]
  | [a; b] =>
      [ table_b2a_base64 (Z.shiftr a 2);
        table_b2a_base64 (Z.lor (Z.shiftl (Z.land a 3) 4) (Z.shiftr b 4));
        table_b2a_base64 (Z.shiftl (Z.land b 15) 2);
        BASE64_PAD ]
  | a :: b :: c :: rest =>
      table_b2a_base64 (Z.shiftr a 2)
      :: table_b2a_base64 (Z.lor (Z.shiftl (Z.land a 3) 4) (Z.shiftr b 4))
      :: table_b2a_base64 (Z.lor (Z.shiftl (Z.land b 15) 2) (Z.shiftr c 6))
      :: table_b2a_base64 (Z.land c 63)
      :: b64encode rest
  end.

(** The four sextets of a group of three bytes. *)
Definition s1 (a : Z) : Z := Z.shiftr a 2.
Definition s2 (a b : Z) : Z := Z.lor (Z.shiftl (Z.land a 3) 4) (Z.shiftr b 4).
Definition s3 (b c : Z) : Z := Z.lor (Z.shiftl (Z.land b 15) 2) (Z.shiftr c 6).
Definition s4 (c : Z) : Z := Z.land c 63.

(** A character [a2b_base64] looks at: one of the alphabet, or the pad. *)
Definition significant (c : Z) : bool :=
  (c =? BASE64_PAD)
  || match table_a2b_base64 c with Some _ => true | None => false end.

End Base64.

(** ** UTF-8 *)

Module Utf8.

Definition cont (b : Z) : bool := (128 <=? b) && (b <=? 191).
Definition between (lo hi b : Z) : bool := (lo <=? b) && (b <=? hi).

Definition cp2 (b0 b1 : Z) : Z :=
  Z.lor (Z.shiftl (Z.land b0 31) 6) (Z.land b1 63).
Definition cp3 (b0 b1 b2 : Z) : Z :=
  Z.lor (Z.shiftl (Z.land b0 15) 12)
        (Z.lor (Z.shiftl (Z.land b1 63) 6) (Z.land b2 63)).
Definition cp4 (b0 b1 b2 b3 : Z) : Z :=
  Z.lor (Z.shiftl (Z.land b0 7) 18)
        (Z.lor (Z.shiftl (Z.land b1 63) 12)
               (Z.lor (Z.shiftl (Z.land b2 63) 6) (Z.land b3 63))).

(** [bytes.decode('utf-8')] with the default [errors='strict']: the
    well-formed byte sequences of the Unicode standard (no overlong forms, no
    surrogates, nothing above U+10FFFF); anything else raises. *)
Fixpoint decode (bs : bytes) : res str :=
  match bs with
  | [] => Ok []
  | b0 :: r0 =>
      if between 0 127 b0 then res_map (cons b0) (decode r0)
      else
        match r0 with
        | [] => Raise UnicodeDecodeError
        | b1 :: r1 =>
            if between 194 223 b0 then
              if cont b1
              then res_map (cons (cp2 b0 b1)) (decode r1)
              else Raise UnicodeDecodeError
            else
              match r1 with
              | [] => Raise UnicodeDecodeError
              | b2 :: r2 =>
                  if between 224 239 b0 then
                    if (if b0 =? 224 then between 160 191 b1
                        else if b0 =? 237 then between 128 159 b1
                        else cont b1) && cont b2
                    then res_map (cons (cp3 b0 b1 b2)) (decode r2)
                    else Raise UnicodeDecodeError
                  else
                    match r2 with
                    | [] => Raise UnicodeDecodeError
                    | b3 :: r3 =>
                        if between 240 244 b0 then
                          if (if b0 =? 240 then between 144 191 b1
                              else if b0 =? 244 then between 128 143 b1
                              else cont b1) && cont b2 && cont b3
                          then res_map (cons (cp4 b0 b1 b2 b3)) (decode r3)
                          else Raise UnicodeDecodeError
                        else Raise UnicodeDecodeError
                    end
              end
        end
  end.

(** One code point of [str.encode('utf-8')]; a surrogate cannot be encoded. *)
Definition encode_cp (c : Z) : res bytes :=
  if c <? 0 then Raise UnicodeEncodeError
  else if c <? 128 then Ok [c]
  else if c <? 2048 then
    Ok [Z.lor 192 (Z.shiftr c 6); Z.lor 128 (Z.land c 63)]
  else if c <? 65536 then
    if (55296 <=? c) && (c <=? 57343) then Raise UnicodeEncodeError
    else Ok [Z.lor 224 (Z.shiftr c 12);
             Z.lor 128 (Z.land (Z.shiftr c 6) 63);
             Z.lor 128 (Z.land c 63)]
  else if c <? 1114112 then
    Ok [Z.lor 240 (Z.shiftr c 18);
        Z.lor 128 (Z.land (Z.shiftr c 12) 63);
        Z.lor 128 (Z.land (Z.shiftr c 6) 63);
        Z.lor 128 (Z.land c 63)]
  else Raise UnicodeEncodeError.

Fixpoint encode (s : str) : res bytes :=
  match s with
  | [] => Ok []
  | c :: r =>
      res_bind (encode_cp c) (fun bs => res_map (app bs) (encode r))
  end.

End Utf8.

(** ** Text helpers *)

(** An ASCII literal of the script as a [str]. *)
Definition lit (s : string) : str :=
  map (fun a => Z.of_N (Ascii.N_of_ascii a)) (String.list_ascii_of_string s).

(** [chr(i)]. *)
Definition chr (i : Z) : str := [i].

Definition str_eqb (a b : str) : bool := bool_decide (a = b).

Fixpoint startswith (sub s : str) : bool :=
  match sub, s with
  | [], _ => true
  | _ :: _, [] => false
  | a :: sub', b :: s' => (a =? b) && startswith sub' s'
  end.

(** [s.count(sub)]: occurrences of [sub] in [s], scanned from the left
    without overlap; [skip] is the number of characters still covered by the
    match just counted. *)
Fixpoint count_from (sub : str) (skip : nat) (s : str) : nat :=
  match s with
  | [] => 0
  | _ :: r =>
      match skip with
      | S k => count_from sub k r
      | O =>
          if startswith sub s
          then S (count_from sub (Nat.pred (length sub)) r)
          else count_from sub 0 r
      end
  end.

Definition str_count (s sub : str) : nat :=
  match sub with
  | [] => S (length s)
  | _ => count_from sub 0 s
  end.

(** The number of newline characters, as the specification words it. *)
Definition newlines (s : str) : nat := length (filter (fun c => c = 10) s).

Fixpoint uint_digits (d : Decimal.uint) : str :=
  match d with
  | Decimal.Nil => []
  | Decimal.D0 r => 48 :: uint_digits r
  | Decimal.D1 r => 49 :: uint_digits r
  | Decimal.D2 r => 50 :: uint_digits r
  | Decimal.D3 r => 51 :: uint_digits r
  | Decimal.D4 r => 52 :: uint_digits r
  | Decimal.D5 r => 53 :: uint_digits r
  | Decimal.D6 r => 54 :: uint_digits r
  | Decimal.D7 r => 55 :: uint_digits r
  | Decimal.D8 r => 56 :: uint_digits r
  | Decimal.D9 r => 57 :: uint_digits r
  end.

(** [format(n)] of a non-negative [int] inside an f-string. *)
Definition str_of_nat (n : nat) : str := uint_digits (Nat.to_uint n).

(** ** Paths ([posixpath]) *)

Definition sep : Z := 47.

Definition startswith_sep (b : str) : bool :=
  match b with
  | c :: _ => c =? sep
  | [] => false
  end.

Definition endswith_sep (a : str) : bool :=
  match rev a with
  | c :: _ => c =? sep
  | [] => false
  end.

(** [os.path.join(a, b)]. *)
Definition join (a b : str) : str :=
  if startswith_sep b || match a with [] => true | _ => false end then b
  else if endswith_sep a then a ++ b
  else a ++ sep :: b.

Fixpoint lstrip_sep (s : str) : str :=
  match s with
  | c :: r => if c =? sep then lstrip_sep r else s
  | [] => []
  end.

Fixpoint drop_to_sep (s : str) : str :=
  match s with
  | c :: r => if c =? sep then s else drop_to_sep r
  | [] => []
  end.

(** [os.path.dirname(p)]: everything up to the last separator, without the
    trailing separators unless nothing else is left. *)
Definition dirname (p : str) : str :=
  let head := rev (drop_to_sep (rev p)) in
  match lstrip_sep head with
  | [] => head
  | _ => rev (lstrip_sep (rev head))
  end.

(** ** The file system *)

Inductive node : Type :=
| Dir
| File (data : bytes).

(** A canonical location: the names from the root down. *)
Abbreviation path := (list (list Z)).

Inductive event : Type :=
| EvOpen (p : path)
| EvWrite (p : path) (data : bytes)
| EvRemove (p : path)
| EvPrint (line : str).

(** The world the script acts on: the tree and, oldest first, what the
    script has done so far. *)
Record state : Type := State {
  fs : gmap path node;
  log : list event
}.

(** [os.fsencode]: UTF-8 with [surrogateescape]. *)
Definition fsencode_cp (c : Z) : res bytes :=
  if (56448 <=? c) && (c <=? 56575) then Ok [c - 56320]
  else Utf8.encode_cp c.

Fixpoint fsencode (s : str) : res bytes :=
  match s with
  | [] => Ok []
  | c :: r =>
      res_bind (fsencode_cp c) (fun bs => res_map (app bs) (fsencode r))
  end.

(** The longest name of a directory entry, and the first length (the
    terminating NUL counted) that is too much for a path. *)
Definition NAME_MAX : Z := 255.
Definition PATH_MAX : Z := 4096.

(** A path argument of [open] or [os.remove]: encoded, refused with an
    embedded NUL, and refused by the system call when [PATH_MAX] bytes cannot
    hold it. *)
Definition path_arg (s : str) : res bytes :=
  res_bind (fsencode s) (fun bs =>
    if existsb (Z.eqb 0) bs then Raise ValueError
    else if PATH_MAX <=? Z.of_nat (length bs) then Raise OSError
    else Ok bs).

Definition too_long (name : bytes) : bool := NAME_MAX <? Z.of_nat (length name).

Fixpoint split (s : bytes) : list bytes :=
  match s with
  | [] => [[]]
  | c :: r =>
      if c =? sep then [] :: split r
      else match split r with
           | h :: t => (c :: h) :: t
           | [] => [[c]]
           end
  end.

Definition is_dot (s : bytes) : bool := str_eqb s [46].
Definition is_dotdot (s : bytes) : bool := str_eqb s [46; 46].

(** The component names of a path; empty components (doubled, leading or
    trailing separators) name nothing. *)
Definition names (p : bytes) : list bytes := filter (fun s => s <> []) (split p).

(** Walking down directory components from the directory [cur]; a name of
    more than [NAME_MAX] bytes is refused when it is looked up. *)
Fixpoint walk (t : gmap path node) (cur : path) (segs : list bytes)
  : res path :=
  match segs with
  | [] => Ok cur
  | s :: rest =>
      if is_dot s then walk t cur rest
      else if is_dotdot s then walk t (removelast cur) rest
      else if too_long s then Raise OSError
      else
        match t !! (cur ++ [s]) with
        | Some Dir => walk t (cur ++ [s]) rest
        | Some (File _) => Raise NotADirectoryError
        | None => Raise FileNotFoundError
        end
  end.

(** Path lookup as the kernel does it for the last component: the entry the
    path names inside an existing directory, and whether the path ended in a
    separator.  A path that can only name a directory (the root, [.], [..])
    raises at once, which is what all three system calls below do with it.
    Every path of the script is absolute, so the walk starts at the root. *)
Definition namei (t : gmap path node) (p : bytes) : res (path * bool) :=
  match p with
  | [] => Raise FileNotFoundError
  | _ =>
      match names p with
      | [] => Raise IsADirectoryError
      | segs =>
          res_bind (walk t [] (removelast segs)) (fun d =>
            let l := List.last segs [] in
            if is_dot l || is_dotdot l then Raise IsADirectoryError
            else Ok (d ++ [l], endswith_sep p))
      end
  end.

(** The name of an entry: the last component of its location. *)
Definition entry_name (e : path) : bytes := List.last e [].

(** Where a path argument leads: the entry it names in an existing
    directory.  [None] when the lookup fails, when the path ends in a
    separator, and when the name is too long (no regular file can be opened
    or removed through such a path). *)
Definition dest (t : gmap path node) (p : str) : option path :=
  match res_bind (path_arg p) (namei t) with
  | Ok (e, false) => if too_long (entry_name e) then None else Some e
  | _ => None
  end.

(** The regular file a path names, if any. *)
Definition file_at (t : gmap path node) (p : str) : option bytes :=
  match dest t p with
  | Some e =>
      match t !! e with
      | Some (File data) => Some data
      | _ => None
      end
  | None => None
  end.

(** The regular file a path names, read as text. *)
Definition text_at (t : gmap path node) (p : str) : option str :=
  match file_at t p with
  | Some data =>
      match Utf8.decode data with
      | Ok s => Some s
      | Raise _ => None
      end
  | None => None
  end.

(** The directory a path leads to, every component being a directory. *)
Definition resolve_dir (t : gmap path node) (p : str) : option path :=
  match res_bind (path_arg p) (fun b => walk t [] (names b)) with
  | Ok d => Some d
  | Raise _ => None
  end.

(** A plain name, as it is stored in a directory: not empty, without a
    separator, and neither [.] nor [..]. *)
Definition plain_name (n : bytes) : Prop :=
  n <> [] /\ (sep ∉ n) /\ n <> [46] /\ n <> [46; 46].

(** Two trees with the same directories: path lookup cannot tell them
    apart, whatever regular files they hold. *)
Definition same_dirs (t t' : gmap path node) : Prop :=
  forall p, t !! p = Some Dir <-> t' !! p = Some Dir.

(** Universal newlines of a text file opened for reading. *)
Fixpoint universal_newlines (s : str) : str :=
  match s with
  | [] => []
  | c :: r =>
      if c =? 13 then
        match r with
        | c' :: r' =>
            if c' =? 10 then 10 :: universal_newlines r'
            else 10 :: universal_newlines r
        | [] => [10]
        end
      else c :: universal_newlines r
  end.

(** ** The script's effects: state and exceptions *)

Definition M (A : Type) : Type := state -> state * res A.

Definition ret {A} (a : A) : M A := fun st => (st, Ok a).
Definition raise {A} (e : exn) : M A := fun st => (st, Raise e).
Definition lift {A} (r : res A) : M A := fun st => (st, r).

Definition bind {A B} (m : M A) (k : A -> M B) : M B :=
  fun st =>
    match m st with
    | (st', Ok a) => k a st'
    | (st', Raise e) => (st', Raise e)
    end.

Notation "x <- m ;; k" := (bind m (fun x => k))
  (at level 100, m at next level, right associativity).
Notation "m ;;; k" := (bind m (fun _ => k))
  (at level 100, right associativity).

Definition emit_event (e : event) : M unit :=
  fun st => (State (fs st) (log st ++ [e]), Ok tt).

Definition set_node (p : path) (n : node) : M unit :=
  fun st => (State (<[p := n]> (fs st)) (log st), Ok tt).

Definition del_node (p : path) : M unit :=
  fun st => (State (delete p (fs st)) (log st), Ok tt).

Definition lookup_path (p : str) : M (path * bool * option node) :=
  fun st =>
    (st, res_bind (path_arg p) (fun b =>
         res_map (fun '(e, slash) => (e, slash, fs st !! e))
                 (namei (fs st) b))).

(** [open(p, 'w')]: creates or truncates the regular file; the handle is the
    file's location.  With [O_CREAT] a trailing separator is refused before
    the last name is looked up. *)
Definition open_w (p : str) : M path :=
  r <- lookup_path p ;;
  match r with
  | (_, true, _) => raise IsADirectoryError
  | (e, false, n) =>
      if too_long (entry_name e) then raise OSError
      else
        match n with
        | Some Dir => raise IsADirectoryError
        | _ => set_node e (File []) ;;; emit_event (EvOpen e) ;;; ret e
        end
  end.

(** [f.write(content)] and the close at the end of the [with] block: the
    text goes to disk in UTF-8. *)
Definition write (f : path) (content : str) : M unit :=
  data <- lift (Utf8.encode content) ;;
  set_node f (File data) ;;; emit_event (EvWrite f data).

(** [open(p).read()]. *)
Definition read_text (p : str) : M str :=
  r <- lookup_path p ;;
  match r with
  | (e, slash, n) =>
      if too_long (entry_name e) then raise OSError
      else
        match slash, n with
        | _, None => raise FileNotFoundError
        | _, Some Dir => raise IsADirectoryError
        | true, Some (File _) => raise NotADirectoryError
        | false, Some (File data) =>
            lift (res_map universal_newlines (Utf8.decode data))
        end
  end.

(** [os.remove(p)]. *)
Definition remove (p : str) : M unit :=
  r <- lookup_path p ;;
  match r with
  | (e, slash, n) =>
      if too_long (entry_name e) then raise OSError
      else
        match slash, n with
        | _, None => raise FileNotFoundError
        | _, Some Dir => raise IsADirectoryError
        | true, Some (File _) => raise NotADirectoryError
        | false, Some (File _) => del_node e ;;; emit_event (EvRemove e)
        end
  end.

(** [print(line)] on a UTF-8 standard output. *)
Definition print (line : str) : M unit :=
  _ <- lift (Utf8.encode line) ;;
  emit_event (EvPrint line).

(** ** JSON ([json.loads]) *)

Module Json.

(** What [json.loads] builds.  A number keeps its literal: the script can
    only fail on it, whatever its value.  An object is a [dict], in insertion
    order and with unique keys. *)
#[warnings="-register-all"]
Inductive json : Type :=
| JNull
| JBool (b : bool)
| JNumber (literal : str)
| JString (s : str)
| JArray (l : list json)
| JObject (d : list (str * json)).

(** [d[k] = v]: a key already there keeps its place and takes the value. *)
Fixpoint dict_set (d : list (str * json)) (k : str) (v : json)
  : list (str * json) :=
  match d with
  | [] => [(k, v)]
  | (k', v') :: r =>
      if str_eqb k' k then (k, v) :: r else (k', v') :: dict_set r k v
  end.

Definition is_ws (c : Z) : bool :=
  (c =? 32) || (c =? 9) || (c =? 10) || (c =? 13).

Fixpoint skip_ws (s : str) : str :=
  match s with
  | c :: r => if is_ws c then skip_ws r else s
  | [] => []
  end.

Definition is_digit (c : Z) : bool := (48 <=? c) && (c <=? 57).

Definition hexval (c : Z) : option Z :=
  if is_digit c then Some (c - 48)
  else if (97 <=? c) && (c <=? 102) then Some (c - 87)
  else if (65 <=? c) && (c <=? 70) then Some (c - 55)
  else None.

Definition hex4 (a b c d : Z) : option Z :=
  match hexval a, hexval b, hexval c, hexval d with
  | Some x, Some y, Some z, Some w => Some (((x * 16 + y) * 16 + z) * 16 + w)
  | _, _, _, _ => None
  end.

Definition simple_escape (e : Z) : option Z :=
  if e =? 34 then Some 34
  else if e =? 92 then Some 92
  else if e =? 47 then Some 47
  else if e =? 98 then Some 8
  else if e =? 102 then Some 12
  else if e =? 110 then Some 10
  else if e =? 114 then Some 13
  else if e =? 116 then Some 9
  else None.

Definition cons_fst {A} (c : Z) (r : res (str * A)) : res (str * A) :=
  res_map (fun '(s, rest) => (c :: s, rest)) r.

(** [scanstring] in strict mode, from the character after the opening
    quote: the string's value and the input after the closing quote.  Two
    [\u] escapes that form a surrogate pair give one code point; a lone
    surrogate is kept. *)
Fixpoint scanstring (s : str) : res (str * str) :=
  match s with
  | [] => Raise JSONDecodeError
  | c :: r =>
      if c =? 34 then Ok ([], r)
      else if c =? 92 then
        match r with
        | [] => Raise JSONDecodeError
        | e :: r1 =>
            if e =? 117 then
              match r1 with
              | a :: b :: c1 :: d :: r5 =>
                  match hex4 a b c1 d with
                  | None => Raise JSONDecodeError
                  | Some uni =>
                      if (55296 <=? uni) && (uni <=? 56319) then
                        match r5 with
                        | x :: y :: a2 :: b2 :: c2 :: d2 :: r11 =>
                            if (x =? 92) && (y =? 117) then
                              match hex4 a2 b2 c2 d2 with
                              | None => Raise JSONDecodeError
                              | Some uni2 =>
                                  if (56320 <=? uni2) && (uni2 <=? 57343)
                                  then cons_fst
                                         (65536 + Z.lor
                                            (Z.shiftl (uni - 55296) 10)
                                            (uni2 - 56320))
                                         (scanstring r11)
                                  else cons_fst uni (scanstring r5)
                              end
                            else cons_fst uni (scanstring r5)
                        | _ => cons_fst uni (scanstring r5)
                        end
                      else cons_fst uni (scanstring r5)
                  end
              | _ => Raise JSONDecodeError
              end
            else
              match simple_escape e with
              | Some v => cons_fst v (scanstring r1)
              | None => Raise JSONDecodeError
              end
        end
      else if (0 <=? c) && (c <? 32) then Raise JSONDecodeError
      else cons_fst c (scanstring r)
  end.

Fixpoint strip_prefix (p s : str) : option str :=
  match p, s with
  | [], _ => Some s
  | _ :: _, [] => None
  | a :: p', b :: s' => if a =? b then strip_prefix p' s' else None
  end.

Fixpoint span_digits (s : str) : str * str :=
  match s with
  | c :: r =>
      if is_digit c
      then let '(ds, rest) := span_digits r in (c :: ds, rest)
      else ([], s)
  | [] => ([], [])
  end.

(** The integer part of [NUMBER_RE]: [0] or a digit run without a leading
    zero. *)
Definition match_int (s : str) : option (str * str) :=
  match s with
  | c :: r =>
      if c =? 48 then Some ([c], r)
      else if is_digit c
      then let '(ds, rest) := span_digits r in Some (c :: ds, rest)
      else None
  | [] => None
  end.

Definition match_frac (s : str) : str * str :=
  match s with
  | c :: r =>
      if c =? 46 then
        match span_digits r with
        | ([], _) => ([], s)
        | (ds, rest) => (c :: ds, rest)
        end
      else ([], s)
  | [] => ([], s)
  end.

Definition match_exp (s : str) : str * str :=
  match s with
  | c :: r =>
      if (c =? 101) || (c =? 69) then
        let '(sign, r') :=
          match r with
          | g :: r1 => if (g =? 43) || (g =? 45) then ([g], r1) else ([], r)
          | [] => ([], r)
          end in
        match span_digits r' with
        | ([], _) => ([], s)
        | (ds, rest) => (c :: sign ++ ds, rest)
        end
      else ([], s)
  | [] => ([], s)
  end.

(** [NUMBER_RE.match]: the literal and what follows it. *)
Definition match_number (s : str) : option (str * str) :=
  let '(minus, s1) :=
    match s with
    | c :: r => if c =? 45 then ([c], r) else ([], s)
    | [] => ([], s)
    end in
  match match_int s1 with
  | None => None
  | Some (i, s2) =>
      let '(f, s3) := match_frac s2 in
      let '(e, s4) := match_exp s3 in
      Some (minus ++ i ++ f ++ e, s4)
  end.

Definition keyword (k : string) (v : json) (s : str) : res (json * str) :=
  match strip_prefix (lit k) s with
  | Some rest => Ok (v, rest)
  | None => Raise JSONDecodeError
  end.

(** [sys.get_int_max_str_digits()], at its default. *)
Definition int_max_str_digits : Z := 4300.

(** A literal without fraction and exponent is an [int]; the scanner hands
    it to [int()], which refuses more than [int_max_str_digits] digits with
    a [ValueError].  Any other literal is a [float]. *)
Definition is_int_literal (l : str) : bool :=
  forallb (fun c => is_digit c || (c =? 45)) l.

Definition number (s : str) : res (json * str) :=
  match match_number s with
  | Some (l, rest) =>
      if is_int_literal l
         && (int_max_str_digits <? Z.of_nat (length (List.filter is_digit l)))
      then Raise ValueError
      else Ok (JNumber l, rest)
  | None => Raise JSONDecodeError
  end.

(** The containers that can be open at once when the module body calls
    [json.loads]: what the interpreter's recursion limit (1000 by default)
    leaves at that depth of calls. *)
Definition recursion_room : nat := 995.

(** [scan_once] with the object and array loops of the scanner.  Opening
    an object or an array takes one of the [room] recursive calls the
    interpreter still allows, and raises [RecursionError] when there is none
    left.  [fuel] bounds the chain of calls of the model; every call is made
    after at least one character was consumed, so twice the length of the
    input plus one is always enough (lemma [loads_fuel]). *)
Fixpoint scan_once (fuel room : nat) (s : str) : res (json * str) :=
  match fuel with
  | O => Raise OutOfFuel
  | S fuel' =>
      match s with
      | [] => Raise JSONDecodeError
      | c :: r =>
          if c =? 34 then
            res_map (fun '(v, rest) => (JString v, rest)) (scanstring r)
          else if c =? 123 then
            match room with
            | O => Raise RecursionError
            | S room' =>
                match skip_ws r with
                | c' :: r' =>
                    if c' =? 125 then Ok (JObject [], r')
                    else parse_members fuel' room' [] (skip_ws r)
                | [] => Raise JSONDecodeError
                end
            end
          else if c =? 91 then
            match room with
            | O => Raise RecursionError
            | S room' =>
                match skip_ws r with
                | c' :: r' =>
                    if c' =? 93 then Ok (JArray [], r')
                    else parse_elements fuel' room' [] (skip_ws r)
                | [] => Raise JSONDecodeError
                end
            end
          else if c =? 110 then keyword "null" JNull s
          else if c =? 116 then keyword "true" (JBool true) s
          else if c =? 102 then keyword "false" (JBool false) s
          else if c =? 78 then keyword "NaN" (JNumber (lit "NaN")) s
          else if c =? 73 then keyword "Infinity" (JNumber (lit "Infinity")) s
          else if (c =? 45) && startswith (lit "-Infinity") s then
            keyword "-Infinity" (JNumber (lit "-Infinity")) s
          else number s
      end
  end

with parse_members (fuel room : nat) (acc : list (str * json)) (s : str)
  : res (json * str) :=
  match fuel with
  | O => Raise OutOfFuel
  | S fuel' =>
      match s with
      | c :: r =>
          if c =? 34 then
            res_bind (scanstring r) (fun '(k, r1) =>
              match skip_ws r1 with
              | c1 :: r2 =>
                  if c1 =? 58 then
                    res_bind (scan_once fuel' room (skip_ws r2))
                      (fun '(v, r3) =>
                      match skip_ws r3 with
                      | c2 :: r4 =>
                          if c2 =? 125 then Ok (JObject (dict_set acc k v), r4)
                          else if c2 =? 44
                          then parse_members fuel' room (dict_set acc k v)
                                             (skip_ws r4)
                          else Raise JSONDecodeError
                      | [] => Raise JSONDecodeError
                      end)
                  else Raise JSONDecodeError
              | [] => Raise JSONDecodeError
              end)
          else Raise JSONDecodeError
      | [] => Raise JSONDecodeError
      end
  end

with parse_elements (fuel room : nat) (acc : list json) (s : str)
  : res (json * str) :=
  match fuel with
  | O => Raise OutOfFuel
  | S fuel' =>
      res_bind (scan_once fuel' room s) (fun '(v, r1) =>
        match skip_ws r1 with
        | c :: r2 =>
            if c =? 93 then Ok (JArray (acc ++ [v]), r2)
            else if c =? 44
            then parse_elements fuel' room (acc ++ [v]) (skip_ws r2)
            else Raise JSONDecodeError
        | [] => Raise JSONDecodeError
        end)
  end.

(** What a scanner function owes: it consumes input, and with enough fuel
    it does not run out of it. *)
Definition scanner_ok (enough : Prop) (s : str) (r : res (json * str)) : Prop :=
  (forall v rest, r = Ok (v, rest) -> (length rest < length s)%nat)
  /\ (enough -> r <> Raise OutOfFuel).

(** [json.loads(s)] for a [str]: no byte order mark, one value, nothing but
    white space around it. *)
Definition loads (s : str) : res json :=
  if startswith [65279] s then Raise JSONDecodeError
  else
    res_bind (scan_once (2 * S (length s)) recursion_room (skip_ws s))
      (fun '(v, rest) =>
      match skip_ws rest with
      | [] => Ok v
      | _ => Raise JSONDecodeError
      end).

End Json.

(** ** The script *)

Module Script.

Import Json.

Definition manifest_name : str := lit "_files_data.json".
Definition script_name : str := lit "_write_files.py".

(** Line 6: [json.loads(open(os.path.join(base, '_files_data.json')).read())]. *)
Definition load_manifest (base : str) : M json :=
  text <- read_text (join base manifest_name) ;;
  lift (loads text).

(** [files_b64.items()]: only a [dict] has it. *)
Definition items (files_b64 : json) : res (list (str * json)) :=
  match files_b64 with
  | JObject d => Ok d
  | _ => Raise AttributeError
  end.

(** [base64.b64decode(b64content)]: of the values JSON can give, only a
    [str] is accepted. *)
Definition b64decode_value (b64content : json) : res bytes :=
  match b64content with
  | JString s => Base64.b64decode s
  | _ => Raise TypeError
  end.

(** Line 9: [base64.b64decode(b64content).decode('utf-8')]. *)
Definition decode_content (b64content : json) : res str :=
  res_bind (b64decode_value b64content) Utf8.decode.

(** Line 14: the f-string. *)
Definition written_line (fname : str) (lines : nat) : str :=
  lit "Written: " ++ fname ++ lit " (" ++ str_of_nat lines ++ lit " lines)".

(** Lines 9 to 14: the body of the loop. *)
Definition write_entry (base : str) (entry : str * json) : M unit :=
  let '(fname, b64content) := entry in
  content <- lift (decode_content b64content) ;;
  let filepath := join base fname in
  f <- open_w filepath ;;
  write f content ;;;
  let lines := str_count content (chr 10) in
  print (written_line fname lines).

(** Line 8: the loop over the entries, in the dict's order. *)
Fixpoint write_loop (base : str) (entries : list (str * json)) : M unit :=
  match entries with
  | [] => ret tt
  | entry :: rest => write_entry base entry ;;; write_loop base rest
  end.

(** Lines 17 to 19. *)
Definition cleanup (base : str) : M unit :=
  remove (join base manifest_name) ;;;
  remove (join base script_name) ;;;
  print (lit "Cleanup done").

(** The module body.  [file] is [os.path.abspath(__file__)]. *)
Definition main (file : str) : M unit :=
  let base := dirname file in
  files_b64 <- load_manifest base ;;
  entries <- lift (items files_b64) ;;
  write_loop base entries ;;;
  cleanup base.

(** One run of the script stored at [file], on the tree [t]. *)
Definition run (file : str) (t : gmap path node) : state * res unit :=
  main file (State t []).

(** The lines on standard output. *)
Definition stdout (st : state) : list str :=
  omap (fun e => match e with EvPrint l => Some l | _ => None end) (log st).

(** The entries the script finds in the manifest on the tree [t], when it
    gets as far as the loop. *)
Definition manifest (file : str) (t : gmap path node)
  : res (list (str * json)) :=
  res_bind (snd (load_manifest (dirname file) (State t []))) items.

(** What one entry of the manifest does, from the state [st]: it dies of the
    decoding, or of the [open], or of the [print] (the file is written by
    then), or it goes through. *)
Inductive entry_outcome (base k : str) (v : json) (st : state)
  : state -> res unit -> Prop :=
| EntryDecodeError e :
    decode_content v = Raise e ->
    entry_outcome base k v st st (Raise e)
| EntryOpenError content e :
    decode_content v = Ok content ->
    open_w (join base k) st = (st, Raise e) ->
    entry_outcome base k v st st (Raise e)
| EntryPrintError data content p e :
    b64decode_value v = Ok data ->
    Utf8.decode data = Ok content ->
    dest (fs st) (join base k) = Some p ->
    fs st !! p <> Some Dir ->
    Utf8.encode (written_line k (newlines content)) = Raise e ->
    entry_outcome base k v st
      (State (<[p := File data]> (fs st))
             (log st ++ [EvOpen p; EvWrite p data]))
      (Raise e)
| EntryWritten data content p :
    b64decode_value v = Ok data ->
    Utf8.decode data = Ok content ->
    dest (fs st) (join base k) = Some p ->
    fs st !! p <> Some Dir ->
    entry_outcome base k v st
      (State (<[p := File data]> (fs st))
             (log st ++ [EvOpen p; EvWrite p data;
                         EvPrint (written_line k (newlines content))]))
      (Ok tt).

(** The loop as a step relation over the entries. *)
Inductive steps (base : str)
  : list (str * json) -> state -> state -> res unit -> Prop :=
| StepsDone st :
    steps base [] st st (Ok tt)
| StepsRaise k v rest st st' e :
    entry_outcome base k v st st' (Raise e) ->
    steps base ((k, v) :: rest) st st' (Raise e)
| StepsNext k v rest st st1 st' r :
    entry_outcome base k v st st1 (Ok tt) ->
    steps base rest st1 st' r ->
    steps base ((k, v) :: rest) st st' r.

(** What the cleanup does, from the state [st]. *)
Inductive cleanup_outcome (base : str) (st : state)
  : state -> res unit -> Prop :=
| CleanupManifestError e :
    remove (join base manifest_name) st = (st, Raise e) ->
    cleanup_outcome base st st (Raise e)
| CleanupScriptError pm d e :
    dest (fs st) (join base manifest_name) = Some pm ->
    fs st !! pm = Some (File d) ->
    remove (join base script_name)
           (State (delete pm (fs st)) (log st ++ [EvRemove pm]))
    = (State (delete pm (fs st)) (log st ++ [EvRemove pm]), Raise e) ->
    cleanup_outcome base st
      (State (delete pm (fs st)) (log st ++ [EvRemove pm])) (Raise e)
| CleanupDone pm d ps d' :
    dest (fs st) (join base manifest_name) = Some pm ->
    fs st !! pm = Some (File d) ->
    dest (delete pm (fs st)) (join base script_name) = Some ps ->
    delete pm (fs st) !! ps = Some (File d') ->
    cleanup_outcome base st
      (State (delete ps (delete pm (fs st)))
             (log st ++ [EvRemove pm; EvRemove ps;
                         EvPrint (lit "Cleanup done")]))
      (Ok tt).

(** The line the script prints for an entry. *)
Definition line_for (entry : str * json) (line : str) : Prop :=
  exists content,
    decode_content (snd entry) = Ok content
    /\ line = written_line (fst entry) (newlines content).

(** What the script writes for an entry on the tree [t]: where, and which
    bytes. *)
Definition write_for (t : gmap path node) (base : str) (entry : str * json)
    (w : path * bytes) : Prop :=
  dest t (join base (fst entry)) = Some (fst w)
  /\ b64decode_value (snd entry) = Ok (snd w)
  /\ is_ok (Utf8.decode (snd w)) = true.

(** The events of the loop: no removal, and no line that could be taken for
    the final one. *)
Definition loop_event (e : event) : Prop :=
  match e with
  | EvRemove _ => False
  | EvPrint l => l <> lit "Cleanup done"
  | _ => True
  end.

(** The files written, in order, and the files removed, in order. *)
Definition writes (l : list event) : list (path * bytes) :=
  omap (fun e => match e with EvWrite p d => Some (p, d) | _ => None end) l.

Definition removes (l : list event) : list path :=
  omap (fun e => match e with EvRemove p => Some p | _ => None end) l.

(** The state a run is left in when it stops after the entries [pre]: what
    has been written is, in order, the files of [pre] and nothing else; each
    of them is on disk with its bytes unless a later one of [pre] has the
    same destination; the manifest is still there; nothing has been removed;
    the final line has not been printed; no directory has been made. *)
Definition stopped_after (file : str) (t : gmap path node)
    (pre : list (str * json)) (st : state) : Prop :=
  Forall2 (write_for t (dirname file)) pre (writes (log st))
  /\ (forall l1 k v l2,
        pre = l1 ++ (k, v) :: l2 ->
        exists p data,
          dest t (join (dirname file) k) = Some p
          /\ b64decode_value v = Ok data
          /\ ((forall k' v', (k', v') ∈ l2 ->
                 dest t (join (dirname file) k') <> Some p) ->
              file_at (fs st) (join (dirname file) k) = Some data))
  /\ is_Some (file_at (fs st) (join (dirname file) manifest_name))
  /\ removes (log st) = []
  /\ (lit "Cleanup done" ∉ stdout st)
  /\ same_dirs t (fs st).

(** ** Worlds to run the script in *)

Definition example_file : str := lit "/srv/app/_write_files.py".

(** A JSON text, written with ['] for the double quote. *)
Definition json_text (s : string) : bytes :=
  map (fun c => if c =? 39 then 34 else c) (lit s).

(** The directory [/srv/app] with the script in it and, when there is one,
    the manifest. *)
Definition example_tree (manifest_text : option bytes) : gmap path node :=
  let t :=
    <[ [lit "srv"] := Dir ]>
      (<[ [lit "srv"; lit "app"] := Dir ]>
         (<[ [lit "srv"; lit "app"; script_name]
               := File (lit "import os, base64, json") ]> ∅)) in
  match manifest_text with
  | Some text => <[ [lit "srv"; lit "app"; manifest_name] := File text ]> t
  | None => t
  end.

(** [{"a.txt": base64("x"), "b.txt": base64("y\nz\n")}]. *)
Definition tree_two_files : gmap path node :=
  example_tree (Some (json_text "{'a.txt': 'eA==', 'b.txt': 'eQp6Cg=='}")).

(** A manifest that lists the manifest's own name. *)
Definition tree_own_name : gmap path node :=
  example_tree (Some (json_text "{'_files_data.json': 'eA=='}")).

(** A manifest that lists the script's name. *)
Definition tree_script_name : gmap path node :=
  example_tree
    (Some (json_text "{'_write_files.py': 'eA==', 'keep.txt': 'eQ=='}")).

(** Two keys for one file. *)
Definition tree_alias : gmap path node :=
  example_tree (Some (json_text "{'a.txt': 'eA==', './a.txt': 'eQ=='}")).

(** A value that is not base64, between two that are. *)
Definition tree_bad_value : gmap path node :=
  example_tree
    (Some (json_text "{'a.txt': 'eA==', 'bad.txt': 'e', 'c.txt': 'eA=='}")).

(** A key below a directory that is not there. *)
Definition tree_subdir : gmap path node :=
  example_tree
    (Some (json_text "{'a.txt': 'eA==', 'sub/b.txt': 'eQ==', 'c.txt': 'eA=='}")).

(** No manifest. *)
Definition tree_no_manifest : gmap path node := example_tree None.

(** ** Two properties as the specification words them *)

(** "Every key of the manifest has its file after the run." *)
Definition every_key_has_its_file : Prop :=
  forall file t entries st k v,
    manifest file t = Ok entries ->
    run file t = (st, Ok tt) ->
    (k, v) ∈ entries ->
    exists content,
      decode_content v = Ok content
      /\ text_at (fs st) (join (dirname file) k) = Some content.

(** "A text put into the manifest in base64 is in its file after the run." *)
Definition text_survives_the_run : Prop :=
  forall T data file t entries st k,
    Forall is_scalar T ->
    Utf8.encode T = Ok data ->
    manifest file t = Ok entries ->
    (k, JString (Base64.b64encode data)) ∈ entries ->
    run file t = (st, Ok tt) ->
    file_at (fs st) (join (dirname file) k) = Some data.

(** ** What makes a run go through, and more worlds *)

(** What makes sure an entry goes through on the tree [t]: the value
    decodes, the key can be printed, and the key leads to an entry of an
    existing directory that is not itself a directory. *)
Definition entry_ready (t : gmap path node) (base : str) (entry : str * json)
  : Prop :=
  is_ok (decode_content (snd entry)) = true
  /\ Forall is_scalar (fst entry)
  /\ exists p, dest t (join base (fst entry)) = Some p /\ t !! p <> Some Dir.


(** A manifest that is a JSON array. *)
Definition tree_array_manifest : gmap path node :=
  example_tree (Some (json_text "['a.txt', 'eA==']")).

(** A file next to the script that the manifest does not mention. *)
Definition tree_bystander : gmap path node :=
  <[ [lit "srv"; lit "app"; lit "notes.txt"] := File (lit "keep") ]>
    tree_two_files.

(** The script stored under another name. *)
Definition tree_renamed_script : gmap path node :=
  delete [lit "srv"; lit "app"; script_name] tree_two_files.


(** A key that climbs out of the base directory. *)
Definition tree_parent_key : gmap path node :=
  example_tree (Some (json_text "{'../up.txt': 'eA=='}")).

(** A copy of the script under another name, next to the original. *)
Definition copy_file : str := lit "/srv/app/other.py".

Definition tree_script_copy : gmap path node :=
  <[ [lit "srv"; lit "app"; lit "other.py"]
       := File (lit "import os, base64, json") ]>
    tree_two_files.

(** A key below a directory that is there, through one that is not. *)
Definition tree_deep_subdir : gmap path node :=
  <[ [lit "srv"; lit "app"; lit "out"] := Dir ]>
    (example_tree
       (Some (json_text
                "{'a.txt': 'eA==', 'out/sub/b.txt': 'eQ==', 'c.txt': 'eA=='}"))).

(** A nested object where a string is expected. *)
Definition tree_nested_value : gmap path node :=
  example_tree
    (Some (json_text "{'a.txt': 'eA==', 'sub': {'b.txt': 'eQ=='}}")).

(** ** Starting the script *)

(** [python3 file]: the interpreter opens the script before it runs a line
    of it.  Without a regular file at [file] it gives up (exit status 2)
    and the module body does not run; [None] stands for that. *)
Definition invoke (file : str) (t : gmap path node)
  : option (state * res unit) :=
  match file_at t file with
  | Some _ => Some (run file t)
  | None => None
  end.

(** "After a successful run the manifest file and the script's own file no
    longer exist at their original paths." *)
Definition own_file_is_gone : Prop :=
  forall file t st,
    invoke file t = Some (st, Ok tt) ->
    file_at (fs st) (join (dirname file) manifest_name) = None
    /\ file_at (fs st) file = None.

(** "A second invocation after a successful run fails with the manifest
    not found." *)
Definition second_invocation_misses_the_manifest : Prop :=
  forall file t st,
    invoke file t = Some (st, Ok tt) ->
    invoke file (fs st) = Some (State (fs st) [], Raise FileNotFoundError).

End Script.

(** * Properties *)

(** ** Results *)

Lemma res_bind_ok {A B} (r : res A) (k : A -> res B) (b : B) :
  res_bind r k = Ok b -> exists a, r = Ok a /\ k a = Ok b.
Proof. destruct r as [a|e]; simpl; [eauto | discriminate]. Qed.

Lemma res_map_ok {A B} (f : A -> B) (r : res A) (b : B) :
  res_map f r = Ok b -> exists a, r = Ok a /\ b = f a.
Proof.
  intros H. apply res_bind_ok in H as (a & -> & [= <-]). eauto.
Qed.

(** ** Bit arithmetic *)

(** [lia] is to see through division and remainder by constants. *)
Ltac Zify.zify_post_hook ::= Z.div_mod_to_equations.

Lemma land_shiftl_low a b k :
  0 <= k -> 0 <= b < 2 ^ k -> Z.land (Z.shiftl a k) b = 0.
Proof.
  intros Hk Hb. apply Z.bits_inj'. intros n Hn.
  rewrite Z.land_spec, Z.bits_0.
  destruct (Z.lt_ge_cases n k) as [Hlt | Hge].
  - rewrite Z.shiftl_spec_low by lia. reflexivity.
  - rewrite <- (Z.mod_small b (2 ^ k)) by lia.
    rewrite Z.mod_pow2_bits_high by lia. apply andb_false_r.
Qed.

(** An "or" of a shifted value with bits below the shift is a sum. *)
Lemma lor_shiftl_add a b k :
  0 <= k -> 0 <= b < 2 ^ k -> Z.lor (Z.shiftl a k) b = a * 2 ^ k + b.
Proof.
  intros Hk Hb.
  rewrite <- Z.lxor_lor by (apply land_shiftl_low; lia).
  rewrite <- Z.add_nocarry_lxor by (apply land_shiftl_low; lia).
  rewrite Z.shiftl_mul_pow2 by lia. reflexivity.
Qed.

Lemma lor_const_add c a b k :
  0 <= k -> c = a * 2 ^ k -> 0 <= b < 2 ^ k -> Z.lor c b = c + b.
Proof.
  intros Hk -> Hb. rewrite <- Z.shiftl_mul_pow2 by lia.
  rewrite lor_shiftl_add by lia. rewrite Z.shiftl_mul_pow2 by lia.
  reflexivity.
Qed.

Lemma land_mod a k : 0 <= k -> Z.land a (2 ^ k - 1) = a mod 2 ^ k.
Proof.
  intros Hk. rewrite <- Z.land_ones by lia. f_equal.
  rewrite Z.ones_equiv. lia.
Qed.

Lemma land_3 a : Z.land a 3 = a mod 4.
Proof. apply (land_mod a 2). lia. Qed.
Lemma land_7 a : Z.land a 7 = a mod 8.
Proof. apply (land_mod a 3). lia. Qed.
Lemma land_15 a : Z.land a 15 = a mod 16.
Proof. apply (land_mod a 4). lia. Qed.
Lemma land_31 a : Z.land a 31 = a mod 32.
Proof. apply (land_mod a 5). lia. Qed.
Lemma land_63 a : Z.land a 63 = a mod 64.
Proof. apply (land_mod a 6). lia. Qed.
Lemma land_255 a : Z.land a 255 = a mod 256.
Proof. apply (land_mod a 8). lia. Qed.

Lemma shiftr_2 a : Z.shiftr a 2 = a / 4.
Proof. apply (Z.shiftr_div_pow2 a 2). lia. Qed.
Lemma shiftr_4 a : Z.shiftr a 4 = a / 16.
Proof. apply (Z.shiftr_div_pow2 a 4). lia. Qed.
Lemma shiftr_6 a : Z.shiftr a 6 = a / 64.
Proof. apply (Z.shiftr_div_pow2 a 6). lia. Qed.
Lemma shiftr_12 a : Z.shiftr a 12 = a / 4096.
Proof. apply (Z.shiftr_div_pow2 a 12). lia. Qed.
Lemma shiftr_18 a : Z.shiftr a 18 = a / 262144.
Proof. apply (Z.shiftr_div_pow2 a 18). lia. Qed.

(** Masks and right shifts as [mod] and [/]. *)
Create Rewrite HintDb bits.
#[local] Hint Rewrite land_3 land_7 land_15 land_31 land_63 land_255
  shiftr_2 shiftr_4 shiftr_6 shiftr_12 shiftr_18 : bits.

(** [Z.lor (Z.shiftl a k) b] as a sum, for the shifts the codecs use. *)
Lemma lor_shl a b k :
  0 < k -> 0 <= b < 2 ^ k -> Z.lor (Z.shiftl a k) b = a * 2 ^ k + b.
Proof. intros. apply lor_shiftl_add; lia. Qed.

(** [Z.lor c b] as a sum, for a marker byte [c] with its low [k] bits clear. *)
Lemma lor_marker c b k :
  0 < k -> c mod 2 ^ k = 0 -> 0 <= b < 2 ^ k -> Z.lor c b = c + b.
Proof.
  intros Hk Hc Hb. apply (lor_const_add c (c / 2 ^ k) b k); [lia | | lia].
  pose proof (Z.div_mod c (2 ^ k) ltac:(lia)). lia.
Qed.

(** Case analysis on the integer comparisons of a goal, dropping the
    impossible cases as they come. *)
Ltac prune_cmp :=
  repeat (match goal with
          | |- context [?a <? ?b] => destruct (Z.ltb_spec a b); try lia
          | |- context [?a <=? ?b] => destruct (Z.leb_spec a b); try lia
          | |- context [?a =? ?b] => destruct (Z.eqb_spec a b); try lia
          end; cbn [andb orb negb]).

(** ** Base64: decoding undoes encoding *)

Module Base64Facts.
Import Base64.

Lemma table_roundtrip v :
  0 <= v < 64 ->
  table_a2b_base64 (table_b2a_base64 v) = Some v
  /\ table_b2a_base64 v <> BASE64_PAD
  /\ 0 <= table_b2a_base64 v < 128.
Proof.
  intros Hv. unfold table_a2b_base64, table_b2a_base64, BASE64_PAD.
  prune_cmp; repeat split; try (f_equal; lia); lia.
Qed.

Lemma s1_range a : is_byte a -> 0 <= s1 a < 64.
Proof. unfold is_byte, s1. autorewrite with bits. lia. Qed.

Lemma s2_arith a b : is_byte b -> s2 a b = (a mod 4) * 16 + b / 16.
Proof.
  unfold is_byte, s2. intros Hb. autorewrite with bits.
  apply (lor_shl _ _ 4); lia.
Qed.

Lemma s3_arith b c : is_byte c -> s3 b c = (b mod 16) * 4 + c / 64.
Proof.
  unfold is_byte, s3. intros Hc. autorewrite with bits.
  apply (lor_shl _ _ 2); lia.
Qed.

Lemma s2_range a b : is_byte b -> 0 <= s2 a b < 64.
Proof. intros Hb. rewrite s2_arith by done. unfold is_byte in Hb. lia. Qed.

Lemma s3_range b c : is_byte c -> 0 <= s3 b c < 64.
Proof. intros Hc. rewrite s3_arith by done. unfold is_byte in Hc. lia. Qed.

Lemma s4_range c : 0 <= s4 c < 64.
Proof. unfold s4. autorewrite with bits. lia. Qed.

(** What the decoder puts together from the sextets is the bytes again. *)
Lemma byte1 a b :
  is_byte a -> is_byte b ->
  u8 (Z.lor (Z.shiftl (s1 a) 2) (Z.shiftr (s2 a b) 4)) = a.
Proof.
  intros Ha Hb. rewrite s2_arith by done. unfold s1, u8, is_byte in *.
  autorewrite with bits. rewrite (lor_shl _ _ 2) by lia. lia.
Qed.

Lemma byte2 a b c :
  is_byte b -> is_byte c ->
  u8 (Z.lor (Z.shiftl (Z.land (s2 a b) 15) 4) (Z.shiftr (s3 b c) 2)) = b.
Proof.
  intros Hb Hc. rewrite s2_arith, s3_arith by done. unfold u8, is_byte in *.
  autorewrite with bits. rewrite (lor_shl _ _ 4) by lia. lia.
Qed.

Lemma byte3 b c :
  is_byte c ->
  u8 (Z.lor (Z.shiftl (Z.land (s3 b c) 3) 6) (s4 c)) = c.
Proof.
  intros Hc. rewrite s3_arith by done. unfold s4, u8, is_byte in *.
  autorewrite with bits. rewrite (lor_shl _ _ 6) by lia. lia.
Qed.

Lemma list_ind3 {A} (P : list A -> Prop) :
  P [] -> (forall a, P [a]) -> (forall a b, P [a; b]) ->
  (forall a b c l, P l -> P (a :: b :: c :: l)) ->
  forall l, P l.
Proof.
  intros H0 H1 H2 H3.
  assert (forall l, P l /\ (forall a, P (a :: l)) /\ forall a b, P (a :: b :: l))
    as Hall.
  { induction l as [|x l (IH0 & IH1 & IH2)]; repeat split; auto. }
  intros l. apply Hall.
Qed.

(** One alphabet character through the loop. *)
Lemma a2b_step v quad_pos leftchar pads rest :
  0 <= v < 64 ->
  a2b_loop quad_pos leftchar pads (table_b2a_base64 v :: rest) =
  match quad_pos with
  | 0%nat => a2b_loop 1 v 0 rest
  | 1%nat =>
      emit (u8 (Z.lor (Z.shiftl leftchar 2) (Z.shiftr v 4)))
           (a2b_loop 2 (Z.land v 15) 0 rest)
  | 2%nat =>
      emit (u8 (Z.lor (Z.shiftl leftchar 4) (Z.shiftr v 2)))
           (a2b_loop 3 (Z.land v 3) 0 rest)
  | _ => emit (u8 (Z.lor (Z.shiftl leftchar 6) v)) (a2b_loop 0 0 0 rest)
  end.
Proof.
  intros Hv. destruct (table_roundtrip v Hv) as (Ht & Hp & _).
  cbn [a2b_loop]. rewrite (proj2 (Z.eqb_neq _ _) Hp), Ht. reflexivity.
Qed.

Lemma b64encode_ascii bs :
  Forall is_byte bs ->
  forallb (fun c => (0 <=? c) && (c <? 128)) (b64encode bs) = true.
Proof.
  assert (forall v, 0 <= v < 64 ->
            (0 <=? table_b2a_base64 v) && (table_b2a_base64 v <? 128) = true)
    as Hchar.
  { intros v Hv. destruct (table_roundtrip v Hv) as (_ & _ & Hr).
    apply andb_true_iff. split; [apply Z.leb_le | apply Z.ltb_lt]; lia. }
  induction bs as [| a | a b | a b c l IH] using list_ind3; intros Hall.
  - reflexivity.
  - apply Forall_cons in Hall as [Ha _]. cbn [b64encode forallb].
    rewrite (Hchar (Z.shiftr a 2)) by (apply s1_range; done).
    rewrite Hchar; [reflexivity |].
    unfold is_byte in Ha. autorewrite with bits.
    rewrite Z.shiftl_mul_pow2 by lia. lia.
  - apply Forall_cons in Hall as [Ha Hall].
    apply Forall_cons in Hall as [Hb _]. cbn [b64encode forallb].
    rewrite (Hchar (Z.shiftr a 2)) by (apply s1_range; done).
    rewrite (Hchar (Z.lor _ _)) by (apply (s2_range a b); done).
    rewrite Hchar; [reflexivity |].
    unfold is_byte in Hb. autorewrite with bits.
    rewrite Z.shiftl_mul_pow2 by lia. lia.
  - apply Forall_cons in Hall as [Ha Hall].
    apply Forall_cons in Hall as [Hb Hall].
    apply Forall_cons in Hall as [Hc Hall]. cbn [b64encode forallb].
    rewrite (Hchar (Z.shiftr a 2)) by (apply s1_range; done).
    rewrite (Hchar (Z.lor _ (Z.shiftr b 4))) by (apply (s2_range a b); done).
    rewrite (Hchar (Z.lor _ (Z.shiftr c 6))) by (apply (s3_range b c); done).
    rewrite (Hchar (Z.land c 63)) by apply s4_range.
    apply IH, Hall.
Qed.

Lemma a2b_b2a bs :
  Forall is_byte bs -> a2b_loop 0 0 0 (b64encode bs) = Ok bs.
Proof.
  induction bs as [| a | a b | a b c l IH] using list_ind3; intros Hall.
  - reflexivity.
  - apply Forall_cons in Hall as [Ha _]. cbn [b64encode].
    assert (Z.shiftl (Z.land a 3) 4 = s2 a 0) as ->.
    { rewrite s2_arith by (unfold is_byte; lia). autorewrite with bits.
      rewrite Z.shiftl_mul_pow2 by lia. lia. }
    change (Z.shiftr a 2) with (s1 a).
    rewrite a2b_step by (apply s1_range; done).
    rewrite a2b_step by (apply s2_range; unfold is_byte; lia).
    rewrite byte1 by (done || unfold is_byte; lia). reflexivity.
  - apply Forall_cons in Hall as [Ha Hall].
    apply Forall_cons in Hall as [Hb _]. cbn [b64encode].
    assert (Z.shiftl (Z.land b 15) 2 = s3 b 0) as ->.
    { rewrite s3_arith by (unfold is_byte; lia). autorewrite with bits.
      rewrite Z.shiftl_mul_pow2 by lia. lia. }
    change (Z.shiftr a 2) with (s1 a).
    change (Z.lor (Z.shiftl (Z.land a 3) 4) (Z.shiftr b 4)) with (s2 a b).
    rewrite a2b_step by (apply s1_range; done).
    rewrite a2b_step by (apply s2_range; done).
    rewrite a2b_step by (apply s3_range; unfold is_byte; lia).
    rewrite byte1, byte2 by (done || unfold is_byte; lia). reflexivity.
  - apply Forall_cons in Hall as [Ha Hall].
    apply Forall_cons in Hall as [Hb Hall].
    apply Forall_cons in Hall as [Hc Hall]. cbn [b64encode].
    change (Z.shiftr a 2) with (s1 a).
    change (Z.lor (Z.shiftl (Z.land a 3) 4) (Z.shiftr b 4)) with (s2 a b).
    change (Z.lor (Z.shiftl (Z.land b 15) 2) (Z.shiftr c 6)) with (s3 b c).
    change (Z.land c 63) with (s4 c).
    rewrite a2b_step by (apply s1_range; done).
    rewrite a2b_step by (apply s2_range; done).
    rewrite a2b_step by (apply s3_range; done).
    rewrite a2b_step by apply s4_range.
    rewrite byte1, byte2, byte3 by done. rewrite IH by done. reflexivity.
Qed.

(** [b64decode(b64encode(bs)) == bs]. *)
Lemma b64decode_b64encode bs :
  Forall is_byte bs -> b64decode (b64encode bs) = Ok bs.
Proof.
  intros Hall. unfold b64decode, bytes_from_decode_data.
  rewrite b64encode_ascii by done. apply a2b_b2a, Hall.
Qed.

End Base64Facts.

(** ** UTF-8: the decoder and the encoder are inverse to each other *)

Module Utf8Facts.
Import Utf8.

Lemma between_spec lo hi b : between lo hi b = true <-> lo <= b <= hi.
Proof. unfold between. rewrite andb_true_iff, Z.leb_le, Z.leb_le. tauto. Qed.

Lemma cont_spec b : cont b = true <-> 128 <= b <= 191.
Proof. apply (between_spec 128 191). Qed.

Lemma cp2_arith b0 b1 : cp2 b0 b1 = (b0 mod 32) * 64 + b1 mod 64.
Proof.
  unfold cp2. autorewrite with bits. apply (lor_shl _ _ 6); lia.
Qed.

Lemma cp3_arith b0 b1 b2 :
  cp3 b0 b1 b2 = (b0 mod 16) * 4096 + (b1 mod 64) * 64 + b2 mod 64.
Proof.
  unfold cp3. autorewrite with bits.
  rewrite (lor_shl (b1 mod 64) _ 6) by lia.
  rewrite (lor_shl _ _ 12) by lia. lia.
Qed.

Lemma cp4_arith b0 b1 b2 b3 :
  cp4 b0 b1 b2 b3 =
  (b0 mod 8) * 262144 + (b1 mod 64) * 4096 + (b2 mod 64) * 64 + b3 mod 64.
Proof.
  unfold cp4. autorewrite with bits.
  rewrite (lor_shl (b2 mod 64) _ 6) by lia.
  rewrite (lor_shl (b1 mod 64) _ 12) by lia.
  rewrite (lor_shl _ _ 18) by lia. lia.
Qed.

(** The encoder's bytes, in arithmetic. *)
Lemma lead2 x : 0 <= x < 32 -> Z.lor 192 x = 192 + x.
Proof. intros. apply (lor_marker _ _ 6); [lia | reflexivity | lia]. Qed.
Lemma lead3 x : 0 <= x < 16 -> Z.lor 224 x = 224 + x.
Proof. intros. apply (lor_marker _ _ 5); [lia | reflexivity | lia]. Qed.
Lemma lead4 x : 0 <= x < 8 -> Z.lor 240 x = 240 + x.
Proof. intros. apply (lor_marker _ _ 4); [lia | reflexivity | lia]. Qed.
Lemma trail x : Z.lor 128 (Z.land x 63) = 128 + x mod 64.
Proof.
  autorewrite with bits. apply (lor_marker _ _ 6); [lia | reflexivity | lia].
Qed.

Lemma encode_cp1 b0 : 0 <= b0 <= 127 -> encode_cp b0 = Ok [b0].
Proof. intros H. unfold encode_cp. prune_cmp; (reflexivity || lia). Qed.

Lemma encode_cp2 b0 b1 :
  194 <= b0 <= 223 -> 128 <= b1 <= 191 ->
  encode_cp (cp2 b0 b1) = Ok [b0; b1] /\ 128 <= cp2 b0 b1 < 2048.
Proof.
  intros H0 H1. rewrite cp2_arith.
  set (c := b0 mod 32 * 64 + b1 mod 64).
  assert (128 <= c < 2048) as Hc by (subst c; lia).
  split; [| exact Hc]. unfold encode_cp. prune_cmp; try lia.
  rewrite trail, shiftr_6, lead2 by lia.
  do 2 f_equal; [| f_equal]; subst c; lia.
Qed.

Lemma encode_cp3 b0 b1 b2 :
  224 <= b0 <= 239 -> 128 <= b1 <= 191 -> 128 <= b2 <= 191 ->
  (b0 = 224 -> 160 <= b1) -> (b0 = 237 -> b1 <= 159) ->
  encode_cp (cp3 b0 b1 b2) = Ok [b0; b1; b2] /\ is_scalar (cp3 b0 b1 b2)
  /\ 2048 <= cp3 b0 b1 b2 < 65536.
Proof.
  intros H0 H1 H2 Hlo Hsur. rewrite cp3_arith.
  set (c := b0 mod 16 * 4096 + b1 mod 64 * 64 + b2 mod 64).
  assert (2048 <= c < 55296 \/ 57344 <= c < 65536) as Hc by (subst c; lia).
  split; [| split; [unfold is_scalar; lia | lia]].
  unfold encode_cp. prune_cmp; try lia.
  all: rewrite !trail, shiftr_12, shiftr_6, lead3 by lia.
  all: do 2 f_equal; [| f_equal; [| f_equal]]; subst c; lia.
Qed.

Lemma encode_cp4 b0 b1 b2 b3 :
  240 <= b0 <= 244 -> 128 <= b1 <= 191 -> 128 <= b2 <= 191 ->
  128 <= b3 <= 191 ->
  (b0 = 240 -> 144 <= b1) -> (b0 = 244 -> b1 <= 143) ->
  encode_cp (cp4 b0 b1 b2 b3) = Ok [b0; b1; b2; b3]
  /\ 65536 <= cp4 b0 b1 b2 b3 < 1114112.
Proof.
  intros H0 H1 H2 H3 Hlo Hhi. rewrite cp4_arith.
  set (c := b0 mod 8 * 262144 + b1 mod 64 * 4096 + b2 mod 64 * 64 + b3 mod 64).
  assert (65536 <= c < 1114112) as Hc by (subst c; lia).
  split; [| exact Hc]. unfold encode_cp. prune_cmp; try lia.
  rewrite !trail, shiftr_18, shiftr_12, shiftr_6, lead4 by lia.
  do 2 f_equal; [| f_equal; [| f_equal; [| f_equal]]]; subst c; lia.
Qed.

Lemma decode_encode_len n :
  forall bs s,
    (length bs <= n)%nat -> decode bs = Ok s ->
    encode s = Ok bs /\ Forall is_scalar s /\ Forall is_byte bs.
Proof.
  induction n as [|n IH]; intros bs s Hlen Hdec.
  { destruct bs; [| simpl in Hlen; lia]. injection Hdec as <-. auto. }
  destruct bs as [|b0 r0]; [injection Hdec as <-; auto |].
  cbn [decode] in Hdec. simpl in Hlen.
  destruct (between 0 127 b0) eqn:E1.
  { apply between_spec in E1.
    apply res_map_ok in Hdec as (s' & Hs' & ->).
    apply IH in Hs' as (He & Hsc & Hby); [| lia].
    cbn [encode]. rewrite encode_cp1 by lia. rewrite He.
    split; [reflexivity |].
    split; [constructor; [unfold is_scalar; lia | done]
                   | constructor; [unfold is_byte; lia | done]]. }
  destruct r0 as [|b1 r1]; [discriminate |]. simpl in Hlen.
  destruct (between 194 223 b0) eqn:E2.
  { apply between_spec in E2.
    destruct (cont b1) eqn:C1; [| discriminate]. apply cont_spec in C1.
    apply res_map_ok in Hdec as (s' & Hs' & ->).
    apply IH in Hs' as (He & Hsc & Hby); [| lia].
    destruct (encode_cp2 b0 b1 E2 C1) as (Hcp & Hr).
    cbn [encode]. rewrite Hcp, He.
    split; [reflexivity |].
    split; [constructor; [unfold is_scalar; lia | done]
                   | repeat constructor; (unfold is_byte; lia) || done]. }
  destruct r1 as [|b2 r2]; [discriminate |]. simpl in Hlen.
  destruct (between 224 239 b0) eqn:E3.
  { apply between_spec in E3.
    match type of Hdec with (if ?c then _ else _) = _ =>
      destruct c eqn:C; [| discriminate] end.
    apply andb_true_iff in C as [C1 C2]. apply cont_spec in C2.
    assert (128 <= b1 <= 191 /\ (b0 = 224 -> 160 <= b1)
            /\ (b0 = 237 -> b1 <= 159)) as (R1 & Rlo & Rsur).
    { destruct (Z.eqb_spec b0 224); [apply between_spec in C1; lia |].
      destruct (Z.eqb_spec b0 237); [apply between_spec in C1; lia |].
      apply cont_spec in C1. lia. }
    apply res_map_ok in Hdec as (s' & Hs' & ->).
    apply IH in Hs' as (He & Hsc & Hby); [| lia].
    destruct (encode_cp3 b0 b1 b2 E3 R1 C2 Rlo Rsur) as (Hcp & Hscal & _).
    cbn [encode]. rewrite Hcp, He.
    split; [reflexivity |].
    split; [constructor; done
                   | repeat constructor; (unfold is_byte; lia) || done]. }
  destruct r2 as [|b3 r3]; [discriminate |]. simpl in Hlen.
  destruct (between 240 244 b0) eqn:E4; [| discriminate].
  apply between_spec in E4.
  match type of Hdec with (if ?c then _ else _) = _ =>
    destruct c eqn:C; [| discriminate] end.
  apply andb_true_iff in C as [C C3]. apply andb_true_iff in C as [C1 C2].
  apply cont_spec in C2. apply cont_spec in C3.
  assert (128 <= b1 <= 191 /\ (b0 = 240 -> 144 <= b1)
          /\ (b0 = 244 -> b1 <= 143)) as (R1 & Rlo & Rhi).
  { destruct (Z.eqb_spec b0 240); [apply between_spec in C1; lia |].
    destruct (Z.eqb_spec b0 244); [apply between_spec in C1; lia |].
    apply cont_spec in C1. lia. }
  apply res_map_ok in Hdec as (s' & Hs' & ->).
  apply IH in Hs' as (He & Hsc & Hby); [| lia].
  destruct (encode_cp4 b0 b1 b2 b3 E4 R1 C2 C3 Rlo Rhi) as (Hcp & Hr).
  cbn [encode]. rewrite Hcp, He.
  split; [reflexivity |].
    split; [constructor; [unfold is_scalar; lia | done]
                 | repeat constructor; (unfold is_byte; lia) || done].
Qed.

(** What [bytes.decode('utf-8')] accepts, [str.encode('utf-8')] gives back:
    the decoded text is made of scalar values and encodes to the very bytes
    it came from. *)
Lemma decode_encode bs s :
  decode bs = Ok s ->
  encode s = Ok bs /\ Forall is_scalar s /\ Forall is_byte bs.
Proof. apply (decode_encode_len (length bs)). lia. Qed.

(** One scalar value: its encoding, and the decoder reading it back. *)
Lemma decode_encode_cp c rest :
  is_scalar c ->
  exists bs,
    encode_cp c = Ok bs /\ Forall is_byte bs
    /\ decode (bs ++ rest) = res_map (cons c) (decode rest).
Proof.
  intros Hc. unfold is_scalar in Hc. unfold encode_cp.
  destruct (Z.ltb_spec c 0); [lia |].
  destruct (Z.ltb_spec c 128).
  { eexists; split; [reflexivity |]. split.
    - repeat constructor; lia.
    - cbn [app decode]. unfold between. prune_cmp. reflexivity. }
  destruct (Z.ltb_spec c 2048).
  { eexists; split; [reflexivity |].
    rewrite trail, shiftr_6, lead2 by lia. split.
    - repeat constructor; unfold is_byte; lia.
    - cbn [app decode]. unfold between, cont. prune_cmp.
      all: rewrite cp2_arith; do 2 f_equal; lia. }
  destruct (Z.ltb_spec c 65536).
  { destruct (Z.leb_spec 55296 c); destruct (Z.leb_spec c 57343);
      cbn [andb]; try lia.
    all: eexists; split; [reflexivity |].
    all: rewrite !trail, shiftr_12, shiftr_6, lead3 by lia; split;
      [repeat constructor; unfold is_byte; lia |].
    all: cbn [app decode]; unfold between, cont; prune_cmp.
    all: rewrite cp3_arith; do 2 f_equal; lia. }
  destruct (Z.ltb_spec c 1114112); [| lia].
  eexists; split; [reflexivity |].
  rewrite !trail, shiftr_18, shiftr_12, shiftr_6, lead4 by lia. split.
  - repeat constructor; unfold is_byte; lia.
  - cbn [app decode]. unfold between, cont. prune_cmp.
    all: rewrite cp4_arith; do 2 f_equal; lia.
Qed.

(** A text of scalar values encodes, and decoding gives the text back. *)
Lemma encode_decode s :
  Forall is_scalar s ->
  exists bs, encode s = Ok bs /\ Forall is_byte bs /\ decode bs = Ok s.
Proof.
  induction 1 as [|c s Hc _ (bs & He & Hb & Hd)].
  - exists []. auto.
  - destruct (decode_encode_cp c bs Hc) as (cb & Hcb & Hcby & Hdec).
    exists (cb ++ bs). cbn [encode]. rewrite Hcb, He. simpl.
    split; [reflexivity |]. split; [apply Forall_app; auto |].
    rewrite Hdec, Hd. reflexivity.
Qed.

End Utf8Facts.

(** ** JSON: the fuel of the scanner is enough *)

Module JsonFacts.
Import Json.

Lemma skip_ws_length s : (length (skip_ws s) <= length s)%nat.
Proof.
  induction s as [|c r IH]; simpl; [lia |]. destruct (is_ws c); simpl; lia.
Qed.

Lemma cons_fst_ok {A} c (r : res (str * A)) s rest :
  cons_fst c r = Ok (s, rest) ->
  exists s', r = Ok (s', rest) /\ s = c :: s'.
Proof.
  unfold cons_fst. intros H. apply res_map_ok in H as ([s' rest'] & -> & [= -> ->]).
  eauto.
Qed.

Lemma cons_fst_raise {A} c (r : res (str * A)) e :
  cons_fst c r = Raise e -> r = Raise e.
Proof. destruct r as [[]|]; simpl; congruence. Qed.

Ltac scan_done :=
  solve [split; intros; simpl in *; simplify_eq; try done; simpl; try lia].

Lemma scanstring_len n :
  forall s,
    (length s <= n)%nat ->
    (forall k r, scanstring s = Ok (k, r) -> (length r < length s)%nat)
    /\ (forall e, scanstring s = Raise e -> e = JSONDecodeError).
Proof.
  induction n as [|n IH]; intros s Hn.
  { destruct s; [| simpl in Hn; lia]. scan_done. }
  assert (forall c (s' : str),
             (length s' <= n)%nat ->
             (forall k r, cons_fst c (scanstring s') = Ok (k, r) ->
                          (length r < length s')%nat)
             /\ (forall e, cons_fst c (scanstring s') = Raise e ->
                           e = JSONDecodeError)) as Hrec.
  { intros c s' Hs'. destruct (IH s' Hs') as [H1 H2]. split.
    - intros k r H. apply cons_fst_ok in H as (k' & H & _). eauto.
    - intros e H. apply cons_fst_raise in H. eauto. }
  destruct s as [|c r]; [scan_done |].
  simpl in Hn. cbn [scanstring].
  destruct (c =? 34); [scan_done |].
  destruct (c =? 92).
  2: { destruct ((0 <=? c) && (c <? 32));
         [scan_done |].
       destruct (Hrec c r ltac:(lia)) as [H1 H2]. split; [| exact H2].
       intros k r' H. specialize (H1 _ _ H). simpl. lia. }
  destruct r as [|e r1]; [scan_done |]. simpl in Hn.
  destruct (e =? 117).
  2: { destruct (simple_escape e); [| scan_done].
       destruct (Hrec z r1 ltac:(lia)) as [H1 H2]. split; [| exact H2].
       intros k r' H. specialize (H1 _ _ H). simpl. lia. }
  destruct r1 as [|a [|b [|c1 [|d r5]]]];
    try (scan_done).
  simpl in Hn. destruct (hex4 a b c1 d) as [uni|];
    [| scan_done].
  assert ((forall k r, cons_fst uni (scanstring r5) = Ok (k, r) ->
             (length r < length (c :: e :: a :: b :: c1 :: d :: r5))%nat)
          /\ (forall e0, cons_fst uni (scanstring r5) = Raise e0 ->
                e0 = JSONDecodeError)) as Hplain.
  { destruct (Hrec uni r5 ltac:(lia)) as [H1 H2]. split; [| exact H2].
    intros k r' H. specialize (H1 _ _ H). simpl. lia. }
  destruct ((55296 <=? uni) && (uni <=? 56319)); [| exact Hplain].
  destruct r5 as [|x [|y [|a2 [|b2 [|c2 [|d2 r11]]]]]]; try exact Hplain.
  destruct ((x =? 92) && (y =? 117)); [| exact Hplain].
  destruct (hex4 a2 b2 c2 d2) as [uni2|];
    [| scan_done].
  destruct ((56320 <=? uni2) && (uni2 <=? 57343)); [| exact Hplain].
  simpl in Hn. destruct (Hrec (65536 + Z.lor (Z.shiftl (uni - 55296) 10)
                                             (uni2 - 56320)) r11 ltac:(lia))
    as [H1 H2].
  split; [| exact H2]. intros k r' H. specialize (H1 _ _ H). simpl. lia.
Qed.

Lemma scanstring_consumes s k r :
  scanstring s = Ok (k, r) -> (length r < length s)%nat.
Proof. apply (scanstring_len (length s) s); lia. Qed.

Lemma scanstring_raise s e : scanstring s = Raise e -> e = JSONDecodeError.
Proof. apply (scanstring_len (length s) s); lia. Qed.

Lemma strip_prefix_length p s r :
  strip_prefix p s = Some r -> length s = (length p + length r)%nat.
Proof.
  revert s. induction p as [|a p IH]; intros s; simpl.
  - intros [= ->]. reflexivity.
  - destruct s as [|b s]; [discriminate |]. destruct (a =? b); [| discriminate].
    intros H. apply IH in H. simpl. lia.
Qed.

Lemma keyword_spec k v s :
  k <> ""%string ->
  (forall v' r, keyword k v s = Ok (v', r) -> (length r < length s)%nat)
  /\ (forall e, keyword k v s = Raise e -> e = JSONDecodeError).
Proof.
  intros Hk. unfold keyword.
  destruct (strip_prefix (lit k) s) as [rest|] eqn:E.
  - split; [| discriminate]. intros v' r [= _ <-].
    apply strip_prefix_length in E. destruct k; [done |].
    unfold lit in E. simpl in E. lia.
  - split; [discriminate |]. intros e [= <-]. reflexivity.
Qed.

Lemma span_digits_length s ds rest :
  span_digits s = (ds, rest) -> (length rest <= length s)%nat.
Proof.
  revert ds rest. induction s as [|c r IH]; intros ds rest; simpl.
  - intros [= _ <-]. simpl. lia.
  - destruct (is_digit c); [| intros [= _ <-]; simpl; lia].
    destruct (span_digits r) as [ds' rest'] eqn:E. intros [= _ <-].
    specialize (IH _ _ eq_refl). lia.
Qed.

Lemma match_number_length s l rest :
  match_number s = Some (l, rest) -> (length rest < length s)%nat.
Proof.
  unfold match_number.
  assert (exists minus s1,
             match s with
             | c :: r => if c =? 45 then ([c], r) else ([], s)
             | [] => ([], s)
             end = (minus, s1) /\ (length s1 <= length s)%nat)
    as (minus & s1 & -> & H1).
  { destruct s as [|c r]; [eauto |]. destruct (c =? 45); eexists _, _;
      (split; [reflexivity | simpl; lia]). }
  destruct (match_int s1) as [[i s2]|] eqn:Ei; [| discriminate].
  assert (length s2 < length s1)%nat as H2.
  { unfold match_int in Ei. destruct s1 as [|c r]; [discriminate |].
    destruct (c =? 48); [injection Ei as _ <-; simpl; lia |].
    destruct (is_digit c); [| discriminate].
    destruct (span_digits r) as [ds rest'] eqn:E. injection Ei as _ <-.
    apply span_digits_length in E. simpl. lia. }
  destruct (match_frac s2) as [f s3] eqn:Ef.
  assert (length s3 <= length s2)%nat as H3.
  { unfold match_frac in Ef. destruct s2 as [|c r]; [injection Ef as _ <-; lia |].
    destruct (c =? 46); [| injection Ef as _ <-; lia].
    destruct (span_digits r) as [[|d ds] rest'] eqn:E;
      injection Ef as _ <-; [lia |].
    apply span_digits_length in E. simpl. lia. }
  destruct (match_exp s3) as [e s4] eqn:Ee.
  assert (length s4 <= length s3)%nat as H4.
  { unfold match_exp in Ee. destruct s3 as [|c r]; [injection Ee as _ <-; lia |].
    destruct ((c =? 101) || (c =? 69)); [| injection Ee as _ <-; lia].
    assert (exists sign r',
               match r with
               | g :: r1 =>
                   if (g =? 43) || (g =? 45) then ([g], r1) else ([], r)
               | [] => ([], r)
               end = (sign, r') /\ (length r' <= length r)%nat)
      as (sign & r' & Es & Hr').
    { destruct r as [|g r1]; [eauto |].
      destruct ((g =? 43) || (g =? 45)); eexists _, _;
        (split; [reflexivity | simpl; lia]). }
    rewrite Es in Ee.
    destruct (span_digits r') as [[|d ds] rest'] eqn:E;
      injection Ee as _ <-; [lia |].
    apply span_digits_length in E. simpl. lia. }
  intros [= _ <-]. lia.
Qed.

Lemma number_spec s :
  (forall v r, number s = Ok (v, r) -> (length r < length s)%nat)
  /\ (forall e, number s = Raise e -> e = JSONDecodeError \/ e = ValueError).
Proof.
  unfold number. destruct (match_number s) as [[l rest]|] eqn:E.
  - destruct (is_int_literal l && _).
    + split; [discriminate |]. intros e [= <-]. auto.
    + split; [| discriminate]. intros v r [= _ <-].
      eapply match_number_length, E.
  - split; [discriminate |]. intros e [= <-]. auto.
Qed.

Lemma scanner_ok_raise enough s :
  scanner_ok enough s (Raise JSONDecodeError).
Proof. split; [discriminate | intros _; discriminate]. Qed.

Lemma scanner_ok_done enough s v rest :
  (length rest < length s)%nat -> scanner_ok enough s (Ok (v, rest)).
Proof. intros H. split; [intros ? ? [= _ <-]; exact H | intros _; discriminate]. Qed.

Lemma scanner_ok_weaken (enough enough' : Prop) s s' r :
  scanner_ok enough' s' r ->
  (length s' <= length s)%nat -> (enough -> enough') ->
  scanner_ok enough s r.
Proof.
  intros [H1 H2] Hlen Himp. split.
  - intros v rest E. specialize (H1 _ _ E). lia.
  - intros He. apply H2, Himp, He.
Qed.

Lemma scan_fuel fuel :
  (forall room s,
      scanner_ok (2 * length s < fuel)%nat s (scan_once fuel room s))
  /\ (forall room acc s,
        scanner_ok (2 * length s < fuel)%nat s
                   (parse_members fuel room acc s))
  /\ (forall room acc s,
        scanner_ok (2 * length s + 1 < fuel)%nat s
                   (parse_elements fuel room acc s)).
Proof.
  induction fuel as [|fuel (IHs & IHm & IHe)].
  { repeat split; intros; simpl in *; try discriminate; lia. }
  assert (forall s, scanner_ok (2 * length s < S fuel)%nat s
                               (Raise RecursionError)) as Hroom.
  { intros s. split; [discriminate | intros _; discriminate]. }
  split_and!.
  - intros room s. cbn [scan_once].
    destruct s as [|c r]; [apply scanner_ok_raise |].
    destruct (c =? 34).
    { destruct (scanstring r) as [[k rest]|e] eqn:E; simpl.
      - apply scanner_ok_done. apply scanstring_consumes in E. simpl. lia.
      - apply scanstring_raise in E as ->. apply scanner_ok_raise. }
    pose proof (skip_ws_length r) as Hws.
    destruct (c =? 123).
    { destruct room as [|room]; [apply Hroom |].
      destruct (skip_ws r) as [|c' r'] eqn:E; [apply scanner_ok_raise |].
      destruct (c' =? 125).
      - apply scanner_ok_done. simpl in *. lia.
      - eapply scanner_ok_weaken; [apply IHm | |]; simpl in *; lia. }
    destruct (c =? 91).
    { destruct room as [|room]; [apply Hroom |].
      destruct (skip_ws r) as [|c' r'] eqn:E; [apply scanner_ok_raise |].
      destruct (c' =? 93).
      - apply scanner_ok_done. simpl in *. lia.
      - eapply scanner_ok_weaken; [apply IHe | |]; simpl in *; lia. }
    assert (forall k v, k <> ""%string ->
              scanner_ok (2 * length (c :: r) < S fuel)%nat (c :: r)
                         (keyword k v (c :: r))) as Hkw.
    { intros k v Hk. destruct (keyword_spec k v (c :: r) Hk) as [H1 H2].
      split; [exact H1 |]. intros _ E. apply H2 in E. discriminate. }
    repeat (match goal with
            | |- context [if ?b then _ else _] => destruct b
            end; [apply Hkw; discriminate |]).
    destruct (number_spec (c :: r)) as [H1 H2].
    split; [exact H1 |]. intros _ E. apply H2 in E as [E | E]; discriminate.
  - intros room acc s. cbn [parse_members].
    destruct s as [|c r]; [apply scanner_ok_raise |].
    destruct (c =? 34); [| apply scanner_ok_raise].
    destruct (scanstring r) as [[k r1]|e] eqn:E; simpl.
    2: { apply scanstring_raise in E as ->. apply scanner_ok_raise. }
    apply scanstring_consumes in E.
    pose proof (skip_ws_length r1) as Hw1.
    destruct (skip_ws r1) as [|c1 r2] eqn:E1; [apply scanner_ok_raise |].
    destruct (c1 =? 58); [| apply scanner_ok_raise].
    pose proof (skip_ws_length r2) as Hw2.
    destruct (IHs room (skip_ws r2)) as [Hv1 Hv2].
    destruct (scan_once fuel room (skip_ws r2)) as [[v r3]|e] eqn:E2; simpl.
    2: { split; [discriminate |]. intros Hf [= ->]. apply Hv2; [| reflexivity].
         simpl in *. lia. }
    specialize (Hv1 _ _ eq_refl).
    pose proof (skip_ws_length r3) as Hw3.
    destruct (skip_ws r3) as [|c2 r4] eqn:E3; [apply scanner_ok_raise |].
    destruct (c2 =? 125); [apply scanner_ok_done; simpl in *; lia |].
    destruct (c2 =? 44); [| apply scanner_ok_raise].
    pose proof (skip_ws_length r4) as Hw4.
    eapply scanner_ok_weaken; [apply IHm | |]; simpl in *; lia.
  - intros room acc s. cbn [parse_elements].
    destruct (IHs room s) as [Hv1 Hv2].
    destruct (scan_once fuel room s) as [[v r1]|e] eqn:E; simpl.
    2: { split; [discriminate |]. intros Hf [= ->]. apply Hv2; [| reflexivity].
         lia. }
    specialize (Hv1 _ _ eq_refl).
    pose proof (skip_ws_length r1) as Hw1.
    destruct (skip_ws r1) as [|c r2] eqn:E1; [apply scanner_ok_raise |].
    destruct (c =? 93); [apply scanner_ok_done; simpl in *; lia |].
    destruct (c =? 44); [| apply scanner_ok_raise].
    pose proof (skip_ws_length r2) as Hw2.
    eapply scanner_ok_weaken; [apply IHe | |]; simpl in *; lia.
Qed.

(** [json.loads] is never short of fuel: the bound on the chain of calls is
    not felt, and what it returns or raises is what the scanner does. *)
Lemma loads_fuel s : loads s <> Raise OutOfFuel.
Proof.
  unfold loads. destruct (startswith [65279] s); [discriminate |].
  destruct (proj1 (scan_fuel (2 * S (length s))) recursion_room (skip_ws s))
    as [_ Hf].
  pose proof (skip_ws_length s) as Hws.
  destruct (scan_once (2 * S (length s)) recursion_room (skip_ws s))
    as [[v rest]|e] eqn:E; simpl.
  - destruct (skip_ws rest); discriminate.
  - intros [= ->]. apply Hf; [lia | reflexivity].
Qed.

End JsonFacts.

(** ** The script *)

Module ScriptFacts.
Import Json Script.

(** ** Text *)

Lemma count_from_newline s : count_from [10] 0 s = newlines s.
Proof.
  unfold newlines. induction s as [|c r IH]; [reflexivity |].
  cbn [count_from startswith length Nat.pred]. rewrite filter_cons.
  destruct (Z.eqb_spec 10 c) as [<- | Hne]; cbn [andb].
  - rewrite decide_True by reflexivity. simpl. f_equal. exact IH.
  - rewrite decide_False by congruence. exact IH.
Qed.

(** [content.count(chr(10))] is the number of newline characters. *)
Lemma str_count_newlines content : str_count content (chr 10) = newlines content.
Proof. apply count_from_newline. Qed.

Lemma written_line_not_cleanup k n : written_line k n <> lit "Cleanup done".
Proof. discriminate. Qed.

(** ** The file system *)

Lemma same_dirs_refl t : same_dirs t t.
Proof. intros p. reflexivity. Qed.

Lemma same_dirs_sym t t' : same_dirs t t' -> same_dirs t' t.
Proof. intros H p. symmetry. apply H. Qed.

Lemma same_dirs_trans t1 t2 t3 :
  same_dirs t1 t2 -> same_dirs t2 t3 -> same_dirs t1 t3.
Proof. intros H12 H23 p. rewrite (H12 p). apply H23. Qed.

Lemma same_dirs_insert_file (t : gmap path node) e data :
  t !! e <> Some Dir -> same_dirs t (<[e := File data]> t).
Proof.
  intros Hne p. destruct (decide (e = p)) as [<- | Hp].
  - rewrite lookup_insert_eq. split; [tauto | discriminate].
  - rewrite lookup_insert_ne by done. reflexivity.
Qed.

Lemma same_dirs_delete_file (t : gmap path node) e data :
  t !! e = Some (File data) -> same_dirs t (delete e t).
Proof.
  intros He p. destruct (decide (e = p)) as [<- | Hp].
  - rewrite lookup_delete_eq, He. split; discriminate.
  - rewrite lookup_delete_ne by done. reflexivity.
Qed.

Lemma walk_same_dirs t t' cur segs d :
  same_dirs t t' -> walk t cur segs = Ok d -> walk t' cur segs = Ok d.
Proof.
  intros Hd. revert cur. induction segs as [|s rest IH]; intros cur; [done |].
  cbn [walk]. destruct (is_dot s); [apply IH |].
  destruct (is_dotdot s); [apply IH |].
  destruct (too_long s); [discriminate |].
  destruct (t !! (cur ++ [s])) as [[|data]|] eqn:E; try discriminate.
  apply Hd in E. rewrite E. apply IH.
Qed.

Lemma namei_same_dirs t t' b x :
  same_dirs t t' -> namei t b = Ok x -> namei t' b = Ok x.
Proof.
  intros Hd. unfold namei. destruct b as [|c b]; [done |].
  destruct (names (c :: b)) as [|s segs]; [done |].
  intros H. apply res_bind_ok in H as (d & Hw & H).
  rewrite (walk_same_dirs _ _ _ _ _ Hd Hw). exact H.
Qed.

Lemma dest_some_same_dirs t t' p e :
  same_dirs t t' -> dest t p = Some e -> dest t' p = Some e.
Proof.
  intros Hd. unfold dest. destruct (path_arg p) as [b|]; [| done]. simpl.
  destruct (namei t b) as [[e' slash]|] eqn:E; [| done].
  rewrite (namei_same_dirs _ _ _ _ Hd E). done.
Qed.

(** Path lookup only depends on the directories. *)
Lemma dest_same_dirs t t' p : same_dirs t t' -> dest t p = dest t' p.
Proof.
  intros Hd. destruct (dest t p) as [e|] eqn:E.
  - symmetry. eapply dest_some_same_dirs; eauto.
  - destruct (dest t' p) as [e|] eqn:E'; [| done].
    apply (dest_some_same_dirs _ _ _ _ (same_dirs_sym _ _ Hd)) in E'.
    congruence.
Qed.

(** ** The system calls *)

Lemma state_eta st : State (fs st) (log st) = st.
Proof. destruct st. reflexivity. Qed.

Lemma lookup_path_spec p st :
  exists r, lookup_path p st = (st, r)
    /\ (forall e n, r = Ok (e, false, n) ->
          dest (fs st) p = (if too_long (entry_name e) then None else Some e)
          /\ n = fs st !! e)
    /\ (forall x, r = Raise x -> dest (fs st) p = None)
    /\ (forall e n, r = Ok (e, true, n) -> dest (fs st) p = None).
Proof.
  unfold lookup_path, dest. eexists; split; [reflexivity |].
  destruct (path_arg p) as [b|x]; simpl.
  - destruct (namei (fs st) b) as [[e slash]|x]; simpl;
      repeat split; intros; simplify_eq; done.
  - repeat split; intros; simplify_eq; done.
Qed.

(** [open(p, 'w')] either fails and changes nothing, or truncates the file
    the path leads to. *)
Lemma open_w_spec p st :
  (exists x, open_w p st = (st, Raise x)
             /\ (dest (fs st) p = None
                 \/ exists e, dest (fs st) p = Some e /\ fs st !! e = Some Dir))
  \/ (exists e, open_w p st =
                  (State (<[e := File []]> (fs st)) (log st ++ [EvOpen e]), Ok e)
                /\ dest (fs st) p = Some e /\ fs st !! e <> Some Dir).
Proof.
  unfold open_w, bind.
  destruct (lookup_path_spec p st) as (r & -> & Hok & Hraise & Hslash).
  destruct r as [[[e [|]] n]|x].
  - left. eexists. split; [reflexivity |]. left. eapply Hslash. reflexivity.
  - destruct (Hok e n eq_refl) as [Hd ->].
    destruct (too_long (entry_name e)).
    { left. eexists. split; [reflexivity |]. left. exact Hd. }
    destruct (fs st !! e) as [[|data]|] eqn:E.
    + left. eexists. split; [reflexivity |]. right. eauto.
    + right. exists e. rewrite E. repeat split; done.
    + right. exists e. rewrite E. repeat split; done.
  - left. eexists. split; [reflexivity |]. left. eapply Hraise. reflexivity.
Qed.

Lemma remove_spec p st :
  (exists x, remove p st = (st, Raise x)
             /\ (forall e d, dest (fs st) p = Some e ->
                             fs st !! e = Some (File d) -> False)
             /\ (forall e, dest (fs st) p = Some e -> fs st !! e = None ->
                           x = FileNotFoundError))
  \/ (exists e d, remove p st =
                    (State (delete e (fs st)) (log st ++ [EvRemove e]), Ok tt)
                  /\ dest (fs st) p = Some e /\ fs st !! e = Some (File d)).
Proof.
  unfold remove, bind.
  destruct (lookup_path_spec p st) as (r & -> & Hok & Hraise & Hslash).
  destruct r as [[[e slash] n]|x].
  - destruct slash.
    + pose proof (Hslash e n eq_refl) as Hd. left.
      destruct (too_long (entry_name e)), n as [[|data]|];
        eexists; (split; [reflexivity |]); split; intros; congruence.
    + destruct (Hok e n eq_refl) as [Hd ->].
      destruct (too_long (entry_name e)).
      { left. eexists. split; [reflexivity |]. split; intros; congruence. }
      destruct (fs st !! e) as [[|data]|] eqn:E.
      * left. eexists. split; [reflexivity |]. split; intros; congruence.
      * right. exists e, data. repeat split; done.
      * left. eexists. split; [reflexivity |]. split; intros; congruence.
  - left. eexists. split; [reflexivity |].
    pose proof (Hraise x eq_refl). split; intros; congruence.
Qed.

Lemma read_text_spec p st :
  exists r, read_text p st = (st, r)
    /\ (is_ok r = true -> is_Some (file_at (fs st) p))
    /\ (forall e, dest (fs st) p = Some e -> fs st !! e = None ->
                  r = Raise FileNotFoundError).
Proof.
  unfold read_text, bind, file_at.
  destruct (lookup_path_spec p st) as (r & -> & Hok & Hraise & Hslash).
  destruct r as [[[e slash] n]|x].
  - destruct slash.
    + pose proof (Hslash e n eq_refl) as ->.
      destruct (too_long (entry_name e)), n as [[|data]|];
        eexists; (split; [reflexivity |]); split; (discriminate || done).
    + destruct (Hok e n eq_refl) as [-> ->].
      destruct (too_long (entry_name e));
        [eexists; (split; [reflexivity |]); split; (discriminate || done) |].
      destruct (fs st !! e) as [[|data]|] eqn:E;
        eexists; (split; [reflexivity |]); split; try discriminate; eauto;
        intros; simplify_eq; done.
  - rewrite (Hraise x eq_refl).
    eexists; split; [reflexivity |]. split; (discriminate || done).
Qed.

(** ** One entry, the loop, the cleanup *)

Lemma bind_ok {A B} (m : M A) (k : A -> M B) st st' a :
  m st = (st', Ok a) -> bind m k st = k a st'.
Proof. unfold bind. intros ->. reflexivity. Qed.

Lemma bind_raise {A B} (m : M A) (k : A -> M B) st st' e :
  m st = (st', Raise e) -> bind m k st = (st', Raise e).
Proof. unfold bind. intros ->. reflexivity. Qed.

Lemma write_entry_outcome base k v st :
  entry_outcome base k v st
    (fst (write_entry base (k, v) st)) (snd (write_entry base (k, v) st)).
Proof.
  unfold write_entry.
  destruct (decode_content v) as [content|e] eqn:Hdec.
  2: { rewrite (bind_raise _ _ st st e) by reflexivity.
       apply EntryDecodeError, Hdec. }
  rewrite (bind_ok _ _ st st content) by reflexivity.
  pose proof Hdec as Hdec'. unfold decode_content in Hdec'.
  apply res_bind_ok in Hdec' as (data & Hb64 & Hutf).
  destruct (Utf8Facts.decode_encode _ _ Hutf) as (Henc & _ & _).
  destruct (open_w_spec (join base k) st) as [(x & Hx & _) | (p & Hp & Hd & Hn)].
  { rewrite (bind_raise _ _ _ _ _ Hx). eapply EntryOpenError; eauto. }
  rewrite (bind_ok _ _ _ _ _ Hp), str_count_newlines.
  assert (write p content
            (State (<[p := File []]> (fs st)) (log st ++ [EvOpen p]))
          = (State (<[p := File data]> (fs st))
                   (log st ++ [EvOpen p; EvWrite p data]), Ok tt)) as Hw.
  { unfold write, lift, bind, set_node, emit_event. rewrite Henc. simpl.
    rewrite insert_insert_eq, <- app_assoc. reflexivity. }
  rewrite (bind_ok _ _ _ _ _ Hw). unfold print, lift, bind, emit_event.
  destruct (Utf8.encode (written_line k (newlines content))) as [l|e] eqn:Hl;
    simpl.
  - rewrite <- app_assoc. eapply EntryWritten; eauto.
  - eapply EntryPrintError; eauto.
Qed.

Lemma write_loop_steps base entries st :
  steps base entries st
    (fst (write_loop base entries st)) (snd (write_loop base entries st)).
Proof.
  revert st. induction entries as [|[k v] rest IH]; intros st.
  - apply StepsDone.
  - cbn [write_loop]. pose proof (write_entry_outcome base k v st) as H1.
    destruct (write_entry base (k, v) st) as [st1 [[]|e]] eqn:E; simpl in H1.
    + rewrite (bind_ok _ _ _ _ _ E). eapply StepsNext; eauto.
    + rewrite (bind_raise _ _ _ _ _ E). apply StepsRaise, H1.
Qed.

Lemma print_cleanup st :
  print (lit "Cleanup done") st
  = (State (fs st) (log st ++ [EvPrint (lit "Cleanup done")]), Ok tt).
Proof. reflexivity. Qed.

Lemma cleanup_outcome_run base st :
  cleanup_outcome base st
    (fst (cleanup base st)) (snd (cleanup base st)).
Proof.
  unfold cleanup.
  destruct (remove_spec (join base manifest_name) st)
    as [(x & Hx & _) | (pm & d & Hr & Hd & Hf)].
  { rewrite (bind_raise _ _ _ _ _ Hx). apply CleanupManifestError, Hx. }
  rewrite (bind_ok _ _ _ _ _ Hr).
  destruct (remove_spec (join base script_name)
              (State (delete pm (fs st)) (log st ++ [EvRemove pm])))
    as [(x & Hx & _) | (ps & d' & Hr' & Hd' & Hf')].
  { rewrite (bind_raise _ _ _ _ _ Hx). eapply CleanupScriptError; eauto. }
  simpl in Hr', Hd', Hf'.
  rewrite (bind_ok _ _ _ _ _ Hr'), print_cleanup. cbn [fs log fst snd].
  rewrite <- !app_assoc. eapply CleanupDone; eauto.
Qed.

(** ** Invariants of the loop *)

Lemma entry_outcome_same_dirs base k v st st' r :
  entry_outcome base k v st st' r -> same_dirs (fs st) (fs st').
Proof.
  destruct 1; simpl;
    (apply same_dirs_refl || (apply same_dirs_insert_file; assumption)).
Qed.

(** The loop creates and removes no directory. *)
Lemma steps_same_dirs base entries st st' r :
  steps base entries st st' r -> same_dirs (fs st) (fs st').
Proof.
  induction 1 as [st | k v rest st st' e H | k v rest st st1 st' r H _ IH].
  - apply same_dirs_refl.
  - eapply entry_outcome_same_dirs, H.
  - eapply same_dirs_trans; [eapply entry_outcome_same_dirs, H | exact IH].
Qed.

Lemma entry_outcome_file_stays base k v st st' r q d :
  entry_outcome base k v st st' r ->
  fs st !! q = Some (File d) -> exists d', fs st' !! q = Some (File d').
Proof.
  destruct 1; simpl; eauto; intros Hq;
    (destruct (decide (p = q)) as [-> | Hne];
     [rewrite lookup_insert_eq | rewrite lookup_insert_ne by done]; eauto).
Qed.

(** A regular file is still one after the loop. *)
Lemma steps_file_stays base entries st st' r q d :
  steps base entries st st' r ->
  fs st !! q = Some (File d) -> exists d', fs st' !! q = Some (File d').
Proof.
  intros H. revert d.
  induction H as [st | k v rest st st' e H | k v rest st st1 st' r H _ IH];
    intros d Hq.
  - eauto.
  - eapply entry_outcome_file_stays; eauto.
  - destruct (entry_outcome_file_stays _ _ _ _ _ _ _ _ H Hq) as (d1 & Hd1).
    eapply IH, Hd1.
Qed.

Lemma entry_outcome_log base k v st st' r :
  entry_outcome base k v st st' r ->
  exists l, log st' = log st ++ l /\ Forall loop_event l.
Proof.
  destruct 1; simpl.
  - exists []. rewrite app_nil_r. auto.
  - exists []. rewrite app_nil_r. auto.
  - eexists. split; [reflexivity |]. repeat constructor.
  - eexists. split; [reflexivity |]. repeat constructor.
    apply written_line_not_cleanup.
Qed.

(** The loop removes nothing and never prints the final line. *)
Lemma steps_log base entries st st' r :
  steps base entries st st' r ->
  exists l, log st' = log st ++ l /\ Forall loop_event l.
Proof.
  induction 1 as [st | k v rest st st' e H | k v rest st st1 st' r H _ IH].
  - exists []. rewrite app_nil_r. auto.
  - eapply entry_outcome_log, H.
  - destruct (entry_outcome_log _ _ _ _ _ _ H) as (l1 & E1 & F1).
    destruct IH as (l2 & E2 & F2). exists (l1 ++ l2).
    rewrite E2, E1, app_assoc. split; [reflexivity |].
    apply Forall_app; auto.
Qed.

(** An entry whose destination no entry of the loop shares is left alone. *)
Lemma steps_untouched base entries st st' r q :
  steps base entries st st' r ->
  (forall k v, (k, v) ∈ entries -> dest (fs st) (join base k) <> Some q) ->
  fs st' !! q = fs st !! q.
Proof.
  induction 1 as [st | k v rest st st' e H | k v rest st st1 st' r H Hs IH];
    intros Hq.
  - reflexivity.
  - assert (dest (fs st) (join base k) <> Some q) as Hk
      by (apply (Hq k v); left).
    inversion H; subst; simpl; try reflexivity.
    rewrite lookup_insert_ne by congruence. reflexivity.
  - assert (dest (fs st) (join base k) <> Some q) as Hk
      by (apply (Hq k v); left).
    rewrite IH.
    + inversion H; subst; simpl. rewrite lookup_insert_ne by congruence.
      reflexivity.
    + intros k' v' Hin.
      rewrite <- (dest_same_dirs _ _ _ (entry_outcome_same_dirs _ _ _ _ _ _ H)).
      apply (Hq k' v'). right. exact Hin.
Qed.

(** What a completed loop has written and printed, entry by entry. *)
Lemma steps_ok base entries st st' :
  steps base entries st st' (Ok tt) ->
  exists ws lines,
    Forall2 (write_for (fs st) base) entries ws
    /\ Forall2 line_for entries lines
    /\ writes (log st') = writes (log st) ++ ws
    /\ stdout st' = stdout st ++ lines.
Proof.
  remember (Ok tt) as r eqn:Hr. intros H. revert Hr.
  induction H as [st | k v rest st st' e H | k v rest st st1 st' r H Hs IH];
    intros Hr; [| discriminate |].
  - exists [], []. rewrite !app_nil_r. repeat split; try constructor.
  - destruct (IH Hr) as (ws & lines & Fw & Fl & Ew & El).
    pose proof (entry_outcome_same_dirs _ _ _ _ _ _ H) as Hd.
    inversion H; subst.
    exists ((p, data) :: ws), (written_line k (newlines content) :: lines).
    repeat split.
    + constructor.
      * repeat split; simpl; [assumption | assumption |].
        match goal with Hu : Utf8.decode _ = Ok _ |- _ => rewrite Hu end.
        reflexivity.
      * eapply Forall2_impl; [exact Fw |].
        intros [k' v'] w (D1 & D2 & D3). repeat split; try assumption.
        rewrite (dest_same_dirs _ _ _ Hd). exact D1.
    + constructor; [| exact Fl]. exists content. split; [| reflexivity].
      unfold decode_content. simpl.
      match goal with Hb : b64decode_value _ = Ok _ |- _ => rewrite Hb end.
      simpl. assumption.
    + rewrite Ew. unfold writes. simpl. rewrite omap_app. simpl.
      rewrite <- app_assoc. reflexivity.
    + rewrite El. unfold stdout. simpl. rewrite omap_app. simpl.
      rewrite <- app_assoc. reflexivity.
Qed.

(** The printed lines of any run of the loop, completed or not: the lines
    of the first entries, in order. *)
Lemma steps_stdout base entries st st' r :
  steps base entries st st' r ->
  exists n lines,
    (n <= length entries)%nat
    /\ Forall2 line_for (take n entries) lines
    /\ stdout st' = stdout st ++ lines
    /\ (r = Ok tt -> n = length entries).
Proof.
  induction 1 as [st | k v rest st st' e H | k v rest st st1 st' r H Hs IH].
  - exists 0%nat, []. rewrite app_nil_r. repeat split; auto; constructor.
  - exists 0%nat, []. rewrite app_nil_r. simpl.
    repeat split; [lia | constructor | | discriminate].
    inversion H; subst; try reflexivity.
    unfold stdout. simpl. rewrite omap_app. simpl. rewrite app_nil_r.
    reflexivity.
  - destruct IH as (n & lines & Hn & Fl & El & Hall).
    inversion H; subst.
    exists (S n), (written_line k (newlines content) :: lines). simpl.
    repeat split; [lia | | | intros Hr; f_equal; auto].
    + constructor; [| exact Fl]. exists content. split; [| reflexivity].
      unfold decode_content. simpl.
      match goal with Hb : b64decode_value _ = Ok _ |- _ => rewrite Hb end.
      simpl. assumption.
    + rewrite El. unfold stdout. simpl. rewrite omap_app. simpl.
      rewrite <- app_assoc. reflexivity.
Qed.

(** ** Paths *)

Lemma split_nonempty s : split s <> [].
Proof.
  destruct s as [|c r]; [discriminate |]. cbn [split].
  destruct (c =? sep); [discriminate |]. destruct (split r); discriminate.
Qed.

Lemma split_app_sep x y : split (x ++ sep :: y) = split x ++ split y.
Proof.
  induction x as [|c x IH]; cbn [app split].
  - rewrite Z.eqb_refl. reflexivity.
  - destruct (c =? sep); [rewrite IH; reflexivity |].
    rewrite IH. destruct (split x) as [|h t] eqn:E; [| reflexivity].
    destruct (split_nonempty _ E).
Qed.

Lemma split_no_sep s : sep ∉ s -> split s = [s].
Proof.
  induction s as [|c r IH]; intros Hs; [reflexivity |]. cbn [split].
  apply not_elem_of_cons in Hs as [Hc Hr].
  rewrite (proj2 (Z.eqb_neq _ _)) by congruence. rewrite IH by done.
  reflexivity.
Qed.

Lemma names_nil : names [] = [].
Proof. reflexivity. Qed.

Lemma names_app_sep x y : names (x ++ sep :: y) = names x ++ names y.
Proof. unfold names. rewrite split_app_sep. apply filter_app. Qed.

Lemma names_plain n : plain_name n -> names n = [n].
Proof.
  intros (Hne & Hsep & _). unfold names. rewrite split_no_sep by done.
  rewrite filter_cons, decide_True by done. reflexivity.
Qed.

Lemma names_all_sep r : names r = [] -> Forall (fun c => c = sep) r.
Proof.
  unfold names. induction r as [|c r IH]; intros H; [constructor |].
  cbn [split] in H. destruct (Z.eqb_spec c sep) as [-> | Hne].
  - rewrite filter_cons, decide_False in H by (intros E; apply E; reflexivity).
    constructor; auto.
  - destruct (split r) as [|h t]; rewrite filter_cons, decide_True in H
      by discriminate; discriminate.
Qed.

Lemma endswith_sep_app x y : y <> [] -> endswith_sep (x ++ y) = endswith_sep y.
Proof.
  intros Hy. unfold endswith_sep. rewrite rev_app_distr.
  destruct (rev y) as [|c r] eqn:E; [| reflexivity].
  apply (f_equal (@rev Z)) in E. rewrite rev_involutive in E. done.
Qed.

Lemma endswith_sep_all x r :
  Forall (fun c => c = sep) r -> endswith_sep (x ++ sep :: r) = true.
Proof.
  intros Hr. rewrite endswith_sep_app by discriminate. unfold endswith_sep.
  cbn [rev]. destruct (rev r) as [|c r'] eqn:E; cbn [app].
  - apply Z.eqb_refl.
  - assert (c ∈ r) as Hc.
    { apply list_elem_of_In, in_rev. rewrite E. left. reflexivity. }
    rewrite Forall_forall in Hr. rewrite (Hr c Hc). apply Z.eqb_refl.
Qed.

Lemma endswith_sep_inv a : endswith_sep a = true -> exists a', a = a' ++ [sep].
Proof.
  unfold endswith_sep. destruct (rev a) as [|c r] eqn:E; [discriminate |].
  intros Hc. apply Z.eqb_eq in Hc as ->. exists (rev r).
  apply (f_equal (@rev Z)) in E. rewrite rev_involutive in E. exact E.
Qed.

Lemma fsencode_app a b :
  fsencode (a ++ b) =
  res_bind (fsencode a) (fun x => res_map (app x) (fsencode b)).
Proof.
  induction a as [|c a IH]; cbn [app fsencode].
  - destruct (fsencode b); reflexivity.
  - destruct (fsencode_cp c) as [cb|]; [| reflexivity]. simpl. rewrite IH.
    destruct (fsencode a) as [x|]; [| reflexivity]. simpl.
    destruct (fsencode b) as [y|]; [| reflexivity]. simpl.
    rewrite app_assoc. reflexivity.
Qed.

Lemma path_arg_ok p b :
  path_arg p = Ok b <->
  fsencode p = Ok b /\ (0 ∉ b) /\ Z.of_nat (length b) < PATH_MAX.
Proof.
  unfold path_arg. destruct (fsencode p) as [x|e]; simpl.
  - destruct (existsb (Z.eqb 0) x) eqn:E.
    + split; [discriminate |]. intros [[= ->] [Hn _]]. exfalso. apply Hn.
      apply existsb_exists in E as (z & Hin & Hz).
      apply Z.eqb_eq in Hz as <-. apply list_elem_of_In, Hin.
    + destruct (Z.leb_spec PATH_MAX (Z.of_nat (length x))) as [Hl | Hl].
      * split; [discriminate |]. intros [[= ->] [_ Hb]]. lia.
      * split.
        -- intros [= ->]. split_and!; [reflexivity | | exact Hl]. intros Hin.
           apply list_elem_of_In in Hin.
           assert (existsb (Z.eqb 0) b = true) as E'
             by (apply existsb_exists; exists 0; split; [done | reflexivity]).
           congruence.
        -- intros [[= ->] _]. reflexivity.
  - split; [discriminate | intros [? _]; discriminate].
Qed.

Lemma path_arg_app a b P :
  path_arg (a ++ b) = Ok P ->
  exists A B, path_arg a = Ok A /\ path_arg b = Ok B /\ P = A ++ B.
Proof.
  rewrite path_arg_ok, fsencode_app. intros (H & Hn & Hl).
  apply res_bind_ok in H as (A & HA & H).
  apply res_map_ok in H as (B & HB & ->).
  exists A, B. rewrite !path_arg_ok. rewrite not_elem_of_app in Hn.
  rewrite length_app in Hl. destruct Hn. split_and!; auto; lia.
Qed.

Lemma path_arg_sep : path_arg [sep] = Ok [sep].
Proof. reflexivity. Qed.

(** The bytes of a joined path: the names of the base, then the names of
    the relative part. *)
Lemma path_arg_join base k P :
  startswith_sep k = false -> k <> [] ->
  path_arg (join base k) = Ok P ->
  exists B K,
    path_arg base = Ok B /\ path_arg k = Ok K
    /\ names P = names B ++ names K
    /\ (K <> [] -> endswith_sep P = endswith_sep K)
    /\ (K <> [] -> P <> []).
Proof.
  intros Hk Hne. unfold join. rewrite Hk. cbn [orb].
  destruct base as [|c base].
  { intros HP. exists [], P. repeat split; auto. }
  destruct (endswith_sep (c :: base)) eqn:E.
  - apply endswith_sep_inv in E as (b' & ->). intros HP.
    apply path_arg_app in HP as (B & K & HB & HK & ->).
    pose proof HB as HB'.
    apply path_arg_app in HB' as (B' & S & HB' & HS & ->).
    rewrite path_arg_sep in HS. injection HS as <-.
    exists (B' ++ [sep]), K. repeat split; auto.
    + rewrite <- app_assoc. cbn [app]. rewrite !names_app_sep, names_nil.
      rewrite app_nil_r. reflexivity.
    + intros HK'. apply endswith_sep_app, HK'.
    + intros HK' E'. apply app_eq_nil in E' as [_ E']. done.
  - intros HP. change (c :: base ++ sep :: k) with ((c :: base) ++ [sep] ++ k) in HP.
    apply path_arg_app in HP as (B & K' & HB & HK' & ->).
    change (sep :: k) with ([sep] ++ k) in HK'.
    apply path_arg_app in HK' as (S & K & HS & HK & ->).
    rewrite path_arg_sep in HS. injection HS as <-.
    exists B, K. repeat split; auto.
    + cbn [app]. apply names_app_sep.
    + intros HK'. rewrite app_assoc. apply endswith_sep_app, HK'.
    + intros HK' E'. apply app_eq_nil in E' as [_ E']. discriminate.
Qed.

Lemma walk_app t cur a b :
  walk t cur (a ++ b) = res_bind (walk t cur a) (fun d => walk t d b).
Proof.
  revert cur. induction a as [|s a IH]; intros cur; [reflexivity |].
  cbn [app walk]. destruct (is_dot s); [apply IH |].
  destruct (is_dotdot s); [apply IH |].
  destruct (too_long s); [reflexivity |].
  destruct (t !! (cur ++ [s])) as [[|d]|]; [apply IH | reflexivity..].
Qed.

Lemma plain_not_dots n :
  plain_name n -> is_dot n = false /\ is_dotdot n = false.
Proof.
  intros (_ & _ & H1 & H2). unfold is_dot, is_dotdot, str_eqb.
  rewrite !bool_decide_eq_false. auto.
Qed.

Lemma plain_last n : plain_name n -> endswith_sep n = false.
Proof.
  intros (Hne & Hsep & _). unfold endswith_sep.
  destruct (rev n) as [|c r] eqn:E; [reflexivity |].
  apply Z.eqb_neq. intros ->. apply Hsep.
  apply list_elem_of_In, in_rev. rewrite E. left. reflexivity.
Qed.

(** A name without a separator comes from a string without one. *)
Lemma path_arg_plain n N x :
  path_arg n = Ok N -> plain_name N ->
  n <> [] /\ startswith_sep (n ++ x) = false.
Proof.
  intros HN (Hne & Hsep & _). apply path_arg_ok in HN as [HN _].
  destruct n as [|c n]; [injection HN as <-; done |].
  split; [discriminate |]. cbn [app startswith_sep].
  apply Z.eqb_neq. intros ->. cbn [fsencode] in HN.
  change (fsencode_cp sep) with (Ok (A := list Z) [sep]) in HN. simpl in HN.
  apply res_map_ok in HN as (r & _ & ->). apply Hsep. left.
Qed.

Lemma namei_unfold t P segs l :
  P <> [] -> names P = segs ++ [l] ->
  namei t P =
  res_bind (walk t [] segs) (fun d =>
    if is_dot l || is_dotdot l then Raise IsADirectoryError
    else Ok (d ++ [l], endswith_sep P)).
Proof.
  intros HP Hn. unfold namei. destruct P as [|c P]; [done |]. rewrite Hn.
  destruct (segs ++ [l]) as [|s0 r0] eqn:E.
  { apply app_eq_nil in E as [_ E]. discriminate. }
  rewrite <- E, removelast_last, last_last. reflexivity.
Qed.

(** A plain name joined to a base leads into the base directory. *)
Lemma dest_join_plain t base n N p :
  path_arg n = Ok N -> plain_name N ->
  dest t (join base n) = Some p ->
  exists D, resolve_dir t base = Some D /\ p = D ++ [N].
Proof.
  intros HN Hpl. unfold dest, resolve_dir.
  destruct (path_arg (join base n)) as [P|] eqn:HP; [| done]. simpl.
  destruct (path_arg_plain n N [] HN Hpl) as [Hne Hst].
  rewrite app_nil_r in Hst.
  apply (path_arg_join _ _ _ Hst Hne) in HP
    as (B & K & HB & HK & Hnames & Hend & HPne).
  rewrite HN in HK. injection HK as <-.
  rewrite (names_plain N) in Hnames by done.
  destruct Hpl as (HNne & Hpl). specialize (Hend HNne). specialize (HPne HNne).
  rewrite (namei_unfold _ _ _ _ HPne Hnames), HB. simpl.
  destruct (walk t [] (names B)) as [d|]; [| done]. simpl.
  destruct (plain_not_dots N (conj HNne Hpl)) as [-> ->]. simpl.
  rewrite Hend, (plain_last N (conj HNne Hpl)).
  destruct (too_long (entry_name (d ++ [N]))); [done |].
  intros [= <-]. eauto.
Qed.

Lemma manifest_name_plain :
  path_arg manifest_name = Ok manifest_name /\ plain_name manifest_name.
Proof.
  split; [reflexivity |]. repeat split; try discriminate.
  vm_compute. intros H. repeat (apply elem_of_cons in H as [H | H];
    [discriminate |]). inversion H.
Qed.

Lemma script_name_plain :
  path_arg script_name = Ok script_name /\ plain_name script_name.
Proof.
  split; [reflexivity |]. repeat split; try discriminate.
  vm_compute. intros H. repeat (apply elem_of_cons in H as [H | H];
    [discriminate |]). inversion H.
Qed.

(** The manifest and the script are two entries of one directory. *)
Lemma dest_manifest_script t t' base pm ps :
  dest t (join base manifest_name) = Some pm ->
  dest t' (join base script_name) = Some ps ->
  pm <> ps.
Proof.
  intros Hm Hs.
  destruct manifest_name_plain as [Am Pm]. destruct script_name_plain as [As Ps].
  apply (dest_join_plain _ _ _ _ _ Am Pm) in Hm as (D & _ & ->).
  apply (dest_join_plain _ _ _ _ _ As Ps) in Hs as (D' & _ & ->).
  intros E. apply app_inj_tail in E as [_ E]. discriminate.
Qed.

(** Under a base directory [D], a key that goes through a name [S] that is
    not a directory of [D] leads nowhere. *)
Lemma dest_missing_dir t base D sub S rest :
  resolve_dir t base = Some D ->
  path_arg sub = Ok S -> plain_name S ->
  t !! (D ++ [S]) <> Some Dir ->
  dest t (join base (sub ++ sep :: rest)) = None.
Proof.
  intros HD HS Hpl Hno. unfold dest.
  destruct (path_arg (join base (sub ++ sep :: rest))) as [P|] eqn:HP; [| done].
  simpl. destruct (path_arg_plain sub S (sep :: rest) HS Hpl) as [Hne Hst].
  assert (sub ++ sep :: rest <> []) as Hkne by (destruct sub; discriminate).
  apply (path_arg_join _ _ _ Hst Hkne) in HP
    as (B & K & HB & HK & Hnames & Hend & HPne).
  change (sub ++ sep :: rest) with (sub ++ [sep] ++ rest) in HK.
  apply path_arg_app in HK as (S' & K' & HS' & HK' & ->).
  apply path_arg_app in HK' as (Sp & R & HSp & HR & ->).
  rewrite path_arg_sep in HSp. injection HSp as <-.
  rewrite HS in HS'. injection HS' as <-. cbn [app] in *.
  assert (S ++ sep :: R <> []) as HKne by (destruct S; discriminate).
  specialize (Hend HKne). specialize (HPne HKne).
  rewrite names_app_sep, (names_plain S) in Hnames by done.
  unfold resolve_dir in HD. rewrite HB in HD. simpl in HD.
  destruct (walk t [] (names B)) as [d|] eqn:Hw; [| done].
  injection HD as ->.
  destruct (plain_not_dots S Hpl) as [Hdot Hdd].
  destruct (names R) as [|r0 rs] eqn:ER.
  - rewrite (namei_unfold t P (names B) S HPne Hnames), Hw. simpl.
    rewrite Hdot, Hdd, Hend. simpl.
    rewrite (endswith_sep_all S R (names_all_sep R ER)). reflexivity.
  - destruct (exists_last (l := r0 :: rs)) as (segs & l & El); [done |].
    rewrite El in Hnames. change ([S] ++ segs ++ [l]) with ((S :: segs) ++ [l]) in Hnames.
    rewrite app_assoc in Hnames.
    rewrite (namei_unfold t P _ l HPne Hnames), walk_app, Hw. simpl.
    rewrite Hdot, Hdd. destruct (too_long S); [reflexivity |].
    destruct (t !! (D ++ [S])) as [[|f]|]; [done | reflexivity..].
Qed.

(** ** The run *)

Lemma load_manifest_spec base st :
  exists r, load_manifest base st = (st, r)
    /\ (is_ok r = true -> is_Some (file_at (fs st) (join base manifest_name)))
    /\ (forall e, dest (fs st) (join base manifest_name) = Some e ->
                  fs st !! e = None -> r = Raise FileNotFoundError).
Proof.
  unfold load_manifest, bind.
  destruct (read_text_spec (join base manifest_name) st)
    as (r & -> & Hok & Hnf).
  destruct r as [text|e].
  - eexists. split; [reflexivity |]. split; [intros _; apply Hok; reflexivity |].
    intros e Hd Hn. discriminate (Hnf e Hd Hn).
  - eexists. split; [reflexivity |]. split; [discriminate |].
    intros p Hd Hn. specialize (Hnf p Hd Hn). congruence.
Qed.

Lemma run_manifest_raise file t e :
  manifest file t = Raise e -> run file t = (State t [], Raise e).
Proof.
  unfold manifest, run, main, bind.
  destruct (load_manifest_spec (dirname file) (State t [])) as (r & -> & _).
  simpl. destruct r as [j|e']; simpl; [| congruence].
  unfold lift. destruct (items j); [discriminate | congruence].
Qed.

Lemma run_manifest_ok file t entries :
  manifest file t = Ok entries ->
  run file t =
  match write_loop (dirname file) entries (State t []) with
  | (st1, Ok _) => cleanup (dirname file) st1
  | (st1, Raise e) => (st1, Raise e)
  end
  /\ is_Some (file_at t (join (dirname file) manifest_name)).
Proof.
  unfold manifest, run, main, bind.
  destruct (load_manifest_spec (dirname file) (State t []))
    as (r & -> & Hok & _).
  simpl. destruct r as [j|e']; simpl; [| discriminate].
  unfold lift. intros ->. split; [reflexivity |]. apply Hok. reflexivity.
Qed.

(** A run that gets to the loop: the steps of the loop, then, if they all
    went through, the cleanup. *)
Lemma run_inv file t entries st r :
  manifest file t = Ok entries -> run file t = (st, r) ->
  exists st1 r1,
    steps (dirname file) entries (State t []) st1 r1
    /\ ((exists e, r1 = Raise e /\ st = st1 /\ r = Raise e)
        \/ (r1 = Ok tt /\ cleanup_outcome (dirname file) st1 st r)).
Proof.
  intros Hm Hrun. apply run_manifest_ok in Hm as [Hm _]. rewrite Hm in Hrun.
  pose proof (write_loop_steps (dirname file) entries (State t [])) as Hs.
  destruct (write_loop (dirname file) entries (State t [])) as [st1 [[]|e]];
    simpl in Hs; exists st1; eexists; (split; [exact Hs |]).
  - right. split; [reflexivity |].
    pose proof (cleanup_outcome_run (dirname file) st1) as Hc.
    rewrite Hrun in Hc. exact Hc.
  - left. exists e. injection Hrun as <- <-. auto.
Qed.

Lemma write_loop_app base pre post st :
  write_loop base (pre ++ post) st =
  match write_loop base pre st with
  | (st1, Ok _) => write_loop base post st1
  | (st1, Raise e) => (st1, Raise e)
  end.
Proof.
  revert st. induction pre as [|entry pre IH]; intros st; [reflexivity |].
  cbn [app write_loop].
  destruct (write_entry base entry st) as [st1 [[]|e]] eqn:E.
  - rewrite !(bind_ok _ _ _ _ _ E). apply IH.
  - rewrite !(bind_raise _ _ _ _ _ E). reflexivity.
Qed.

Lemma steps_app_inv base l1 l2 st st' :
  steps base (l1 ++ l2) st st' (Ok tt) ->
  exists st1, steps base l1 st st1 (Ok tt) /\ steps base l2 st1 st' (Ok tt).
Proof.
  revert st. induction l1 as [|[k v] l1 IH]; intros st H.
  - exists st. split; [constructor | exact H].
  - inversion H; subst.
    match goal with Hs : steps _ (l1 ++ l2) _ _ _ |- _ =>
      apply IH in Hs as (sa & Ha & Hb) end.
    exists sa. split; [| exact Hb]. eapply StepsNext; eauto.
Qed.

(** After a completed loop an entry's file holds the entry's bytes, unless
    a later entry has the same destination. *)
Lemma steps_file base l1 k v l2 st st' :
  steps base (l1 ++ (k, v) :: l2) st st' (Ok tt) ->
  exists p data content,
    dest (fs st) (join base k) = Some p
    /\ b64decode_value v = Ok data /\ Utf8.decode data = Ok content
    /\ (p, data) ∈ writes (log st')
    /\ ((forall k' v', (k', v') ∈ l2 ->
           dest (fs st) (join base k') <> Some p) ->
        fs st' !! p = Some (File data)).
Proof.
  intros H. apply steps_app_inv in H as (sa & Ha & H).
  inversion H as [| | k0 v0 rest s0 sb s1 r0 He Hb]; subst.
  pose proof (steps_same_dirs _ _ _ _ _ Ha) as Da.
  pose proof (entry_outcome_same_dirs _ _ _ _ _ _ He) as Db.
  inversion He as [| | | data content p Hb64 Hutf Hdest Hnd]; subst.
  exists p, data, content.
  rewrite (dest_same_dirs _ _ _ Da). repeat split; try assumption.
  - destruct (steps_ok _ _ _ _ Hb) as (ws & _ & _ & _ & Ew & _).
    rewrite Ew. apply elem_of_app. left. unfold writes. simpl.
    rewrite omap_app. apply elem_of_app. right. simpl. left.
  - intros Hlater. rewrite (steps_untouched _ _ _ _ _ p Hb).
    + simpl. apply lookup_insert_eq.
    + intros k' v' Hin. rewrite <- (dest_same_dirs _ _ _ Db).
      rewrite <- (dest_same_dirs _ _ _ Da). eauto.
Qed.

Lemma run_ok_manifest file t st :
  run file t = (st, Ok tt) -> exists entries, manifest file t = Ok entries.
Proof.
  intros Hrun. destruct (manifest file t) as [entries|e] eqn:E; [eauto |].
  rewrite (run_manifest_raise _ _ _ E) in Hrun. discriminate.
Qed.

(** A successful run: the completed loop, then the two removals and the
    final line. *)
Lemma run_ok_inv file t entries st :
  manifest file t = Ok entries -> run file t = (st, Ok tt) ->
  exists st1 pm d ps d',
    steps (dirname file) entries (State t []) st1 (Ok tt)
    /\ dest t (join (dirname file) manifest_name) = Some pm
    /\ dest t (join (dirname file) script_name) = Some ps
    /\ pm <> ps
    /\ fs st1 !! pm = Some (File d) /\ fs st1 !! ps = Some (File d')
    /\ fs st = delete ps (delete pm (fs st1))
    /\ log st = log st1 ++ [EvRemove pm; EvRemove ps;
                            EvPrint (lit "Cleanup done")]
    /\ same_dirs t (fs st).
Proof.
  intros Hm Hrun.
  destruct (run_inv _ _ _ _ _ Hm Hrun)
    as (st1 & r1 & Hs & [(e & _ & _ & [=]) | (-> & Hc)]).
  pose proof (steps_same_dirs _ _ _ _ _ Hs) as D1. simpl in D1.
  inversion Hc as [| | pm d ps d' Hpm Hfm Hps Hfs]; subst.
  pose proof (same_dirs_delete_file _ _ _ Hfm) as D2.
  pose proof (same_dirs_delete_file _ _ _ Hfs) as D3.
  apply lookup_delete_Some in Hfs as [Hne Hfs].
  exists st1, pm, d, ps, d'. simpl. split_and!; try done.
  - rewrite (dest_same_dirs _ _ _ D1). exact Hpm.
  - rewrite (dest_same_dirs _ _ _ (same_dirs_trans _ _ _ D1 D2)). exact Hps.
  - eapply same_dirs_trans; [exact D1 |].
    eapply same_dirs_trans; [exact D2 | exact D3].
Qed.

(** What a successful run leaves of one entry. *)
Lemma run_entry_file file t l1 k v l2 st :
  manifest file t = Ok (l1 ++ (k, v) :: l2) -> run file t = (st, Ok tt) ->
  exists p data content,
    dest t (join (dirname file) k) = Some p
    /\ b64decode_value v = Ok data /\ Utf8.decode data = Ok content
    /\ (p, data) ∈ writes (log st)
    /\ ((forall k' v', (k', v') ∈ l2 ->
           dest t (join (dirname file) k') <> Some p) ->
        dest t (join (dirname file) manifest_name) <> Some p ->
        dest t (join (dirname file) script_name) <> Some p ->
        file_at (fs st) (join (dirname file) k) = Some data
        /\ text_at (fs st) (join (dirname file) k) = Some content).
Proof.
  intros Hm Hrun.
  destruct (run_ok_inv _ _ _ _ Hm Hrun)
    as (st1 & pm & d & ps & d' & Hs & Hpm & Hps & Hne & _ & _ & Hfs & Hlog & Hd).
  destruct (steps_file _ _ _ _ _ _ _ Hs)
    as (p & data & content & Hp & Hb & Hu & Hw & Hfile).
  simpl in Hp, Hfile. exists p, data, content. split_and!; try done.
  - rewrite Hlog. unfold writes. rewrite omap_app. apply elem_of_app. left.
    exact Hw.
  - intros Hlater Hnm Hns. unfold text_at, file_at.
    rewrite <- (dest_same_dirs _ _ _ Hd), Hp, Hfs.
    rewrite !lookup_delete_ne by congruence. rewrite Hfile by assumption.
    rewrite Hu. split; reflexivity.
Qed.

(** ** The order of the effects *)

Lemma removes_loop l : Forall loop_event l -> removes l = [].
Proof.
  induction 1 as [|e l He _ IH]; [reflexivity |].
  unfold removes in *. destruct e; simpl in *; try exact IH. destruct He.
Qed.

Lemma stdout_loop st :
  Forall loop_event (log st) -> lit "Cleanup done" ∉ stdout st.
Proof.
  unfold stdout. induction 1 as [|e l He _ IH]; [apply not_elem_of_nil |].
  destruct e; simpl in *; try exact IH.
  apply not_elem_of_cons. split; [congruence | exact IH].
Qed.

(** An event that is not of the loop sits in what follows the loop. *)
Lemma split_after_loop l tail l1 x l2 :
  Forall loop_event l -> ~ loop_event x ->
  l ++ tail = l1 ++ x :: l2 ->
  exists t1, l1 = l ++ t1 /\ tail = t1 ++ x :: l2.
Proof.
  intros Hl Hx. revert l1. induction Hl as [|a l Ha _ IH]; intros l1 E.
  - exists l1. auto.
  - destruct l1 as [|b l1]; simpl in E.
    + injection E as -> _. contradiction.
    + injection E as -> E. destruct (IH _ E) as (t1 & -> & ->).
      exists t1. auto.
Qed.

(** The log of a run that got to the loop: the events of the loop, then
    nothing, or the manifest's removal, or both removals and the final line;
    whatever follows the loop comes after every entry has been written. *)
Lemma run_log_shape file t entries st r :
  manifest file t = Ok entries -> run file t = (st, r) ->
  exists l tail,
    log st = l ++ tail /\ Forall loop_event l
    /\ (tail = []
        \/ Forall2 (write_for t (dirname file)) entries (writes l)
           /\ exists pm,
                dest t (join (dirname file) manifest_name) = Some pm
                /\ (tail = [EvRemove pm]
                    \/ exists ps,
                         dest t (join (dirname file) script_name) = Some ps
                         /\ r = Ok tt
                         /\ tail = [EvRemove pm; EvRemove ps;
                                    EvPrint (lit "Cleanup done")])).
Proof.
  intros Hm Hrun.
  destruct (run_inv _ _ _ _ _ Hm Hrun) as (st1 & r1 & Hs & Hcases).
  destruct (steps_log _ _ _ _ _ Hs) as (l & Hl & Floop). simpl in Hl.
  subst l.
  pose proof (steps_same_dirs _ _ _ _ _ Hs) as D1. simpl in D1.
  destruct Hcases as [(e & -> & -> & ->) | (-> & Hc)].
  { exists (log st1), []. rewrite app_nil_r. auto. }
  destruct (steps_ok _ _ _ _ Hs) as (ws & _ & Fw & _ & Ew & _).
  simpl in Fw, Ew.
  inversion Hc as [e Hr | pm d e Hpm Hfm Hr | pm d ps d' Hpm Hfm Hps Hfs]; subst.
  - exists (log st), []. rewrite app_nil_r. auto.
  - exists (log st1), [EvRemove pm]. simpl. split_and!; try done.
    right. split; [exact Fw |]. exists pm.
    rewrite (dest_same_dirs _ _ _ D1). auto.
  - exists (log st1), [EvRemove pm; EvRemove ps; EvPrint (lit "Cleanup done")].
    simpl. split_and!; try done.
    right. split; [exact Fw |]. exists pm.
    rewrite (dest_same_dirs _ _ _ D1). split; [exact Hpm |]. right. exists ps.
    pose proof (same_dirs_delete_file _ _ _ Hfm) as D2.
    rewrite (dest_same_dirs _ _ _ (same_dirs_trans _ _ _ D1 D2)). auto.
Qed.


(** ** Runs that stop in the loop *)

Lemma stopped_after_prefix file t pre st1 :
  is_Some (file_at t (join (dirname file) manifest_name)) ->
  write_loop (dirname file) pre (State t []) = (st1, Ok tt) ->
  stopped_after file t pre st1.
Proof.
  intros [d0 Hman] Hloop.
  pose proof (write_loop_steps (dirname file) pre (State t [])) as Hs.
  rewrite Hloop in Hs. simpl in Hs.
  pose proof (steps_same_dirs _ _ _ _ _ Hs) as Hd. simpl in Hd.
  destruct (steps_log _ _ _ _ _ Hs) as (l & Hl & Floop). simpl in Hl. subst l.
  unfold stopped_after. split_and!.
  - destruct (steps_ok _ _ _ _ Hs) as (ws & _ & Fw & _ & Ew & _).
    simpl in Fw, Ew. rewrite Ew. exact Fw.
  - intros l1 k v l2 ->.
    destruct (steps_file _ _ _ _ _ _ _ Hs)
      as (p & data & content & Hp & Hb & _ & _ & Hfile).
    simpl in Hp, Hfile. exists p, data. split_and!; try done.
    intros Hlater. unfold file_at.
    rewrite <- (dest_same_dirs _ _ _ Hd), Hp, (Hfile Hlater). reflexivity.
  - unfold file_at in *. rewrite <- (dest_same_dirs _ _ _ Hd).
    destruct (dest t (join (dirname file) manifest_name)) as [pm|]; [| done].
    destruct (t !! pm) as [[|d]|] eqn:E; try done.
    destruct (steps_file_stays _ _ _ _ _ pm d Hs E) as (d' & ->). eauto.
  - apply removes_loop, Floop.
  - apply stdout_loop, Floop.
  - exact Hd.
Qed.

Lemma run_aborts_at file t pre k v post st1 st2 e :
  manifest file t = Ok (pre ++ (k, v) :: post) ->
  write_loop (dirname file) pre (State t []) = (st1, Ok tt) ->
  write_entry (dirname file) (k, v) st1 = (st2, Raise e) ->
  run file t = (st2, Raise e).
Proof.
  intros Hm Hpre Hentry. apply run_manifest_ok in Hm as [-> _].
  rewrite write_loop_app, Hpre. cbn [write_loop].
  rewrite (bind_raise _ _ _ _ _ Hentry). reflexivity.
Qed.

Lemma open_w_nowhere p st :
  dest (fs st) p = None -> exists e, open_w p st = (st, Raise e).
Proof.
  intros Hd. destruct (open_w_spec p st) as [(x & Hx & _) | (e & _ & He & _)].
  - eauto.
  - congruence.
Qed.


(** A run whose manifest holds a value that does not decode raises, whatever
    entry it stops at: nothing is removed, the final line is not printed,
    the manifest is still there. *)
Lemma undecodable_value_aborts file t entries k v e :
  manifest file t = Ok entries ->
  (k, v) ∈ entries ->
  decode_content v = Raise e ->
  exists st e',
    run file t = (st, Raise e')
    /\ removes (log st) = []
    /\ (lit "Cleanup done" ∉ stdout st)
    /\ is_Some (file_at (fs st) (join (dirname file) manifest_name))
    /\ same_dirs t (fs st).
Proof.
  intros Hm Hin Hdec.
  destruct (run file t) as [st r] eqn:Hrun.
  destruct (run_inv _ _ _ _ _ Hm Hrun) as (st1 & r1 & Hs & Hcases).
  assert (r1 <> Ok tt) as Hr1.
  { intros ->. destruct (steps_ok _ _ _ _ Hs) as (ws & lines & _ & Fl & _).
    apply list_elem_of_lookup in Hin as (i & Hi).
    destruct (Forall2_lookup_l _ _ _ _ _ Fl Hi) as (line & _ & content & Hc & _).
    simpl in Hc. congruence. }
  destruct Hcases as [(e' & -> & -> & ->) | (-> & _)]; [| done].
  exists st1, e'. split; [reflexivity |].
  destruct (steps_log _ _ _ _ _ Hs) as (l & Hl & Floop). simpl in Hl. subst l.
  pose proof (steps_same_dirs _ _ _ _ _ Hs) as Hd. simpl in Hd.
  split_and!.
  - apply removes_loop, Floop.
  - apply stdout_loop, Floop.
  - destruct (proj2 (run_manifest_ok _ _ _ Hm)) as (d0 & Hman).
    unfold file_at in *. rewrite <- (dest_same_dirs _ _ _ Hd).
    destruct (dest t (join (dirname file) manifest_name)) as [pm|]; [| done].
    destruct (t !! pm) as [[|d]|] eqn:E; try done.
    destruct (steps_file_stays _ _ _ _ _ pm d Hs E) as (d' & ->). eauto.
  - exact Hd.
Qed.

Lemma lstrip_sep_no_sep s :
  startswith_sep s = false -> lstrip_sep s = s.
Proof. destruct s as [|c r]; simpl; [done |]. intros ->. reflexivity. Qed.

(** A normalized absolute path whose last component is the script's name
    is the path the cleanup removes. *)
Lemma script_path_joins d :
  endswith_sep d = false ->
  join (dirname (d ++ sep :: script_name)) script_name
  = d ++ sep :: script_name.
Proof.
  intros Hd. unfold dirname.
  assert (drop_to_sep (rev (d ++ sep :: script_name)) = sep :: rev d) as ->.
  { rewrite rev_app_distr. reflexivity. }
  assert (rev (sep :: rev d) = d ++ [sep]) as ->
    by (cbn [rev]; rewrite rev_involutive; reflexivity).
  assert (startswith_sep (rev d) = false) as Hr.
  { unfold endswith_sep in Hd. destruct (rev d); done. }
  destruct d as [|c d].
  { reflexivity. }
  destruct (lstrip_sep ((c :: d) ++ [sep])) as [|x l] eqn:E.
  - exfalso. assert (Forall (fun z => z = sep) ((c :: d) ++ [sep])) as Hall.
    { clear -E. induction ((c :: d) ++ [sep]) as [|a l IH]; [constructor |].
      simpl in E. destruct (Z.eqb_spec a sep); [| discriminate].
      constructor; auto. }
    apply Forall_app in Hall as [Hall _].
    unfold endswith_sep in Hd. destruct (rev (c :: d)) as [|y r] eqn:Er.
    + apply (f_equal (@rev Z)) in Er. rewrite rev_involutive in Er. done.
    + assert (y ∈ c :: d) as Hy.
      { apply list_elem_of_In, in_rev. rewrite Er. left. reflexivity. }
      rewrite Forall_forall in Hall. rewrite (Hall y Hy) in Hd.
      discriminate.
  - rewrite rev_app_distr.
    change (rev [sep] ++ rev (c :: d)) with (sep :: rev (c :: d)).
    cbn [lstrip_sep]. rewrite Z.eqb_refl.
    rewrite (lstrip_sep_no_sep _ Hr), rev_involutive.
    unfold join. rewrite Hd. reflexivity.
Qed.

(** A path with a component, not the last one, that is not a directory
    where the components before it lead, leads nowhere. *)
Lemma dest_missing_component t p P segs S more D :
  path_arg p = Ok P ->
  names P = segs ++ S :: more -> more <> [] ->
  walk t [] segs = Ok D ->
  is_dot S = false -> is_dotdot S = false ->
  t !! (D ++ [S]) <> Some Dir ->
  dest t p = None.
Proof.
  intros HP Hn Hmore Hw Hdot Hdd Hno. unfold dest. rewrite HP. simpl.
  destruct (exists_last Hmore) as (m' & l & ->).
  assert (P <> []) as HPne by (intros ->; destruct segs; discriminate).
  change (segs ++ S :: m' ++ [l]) with (segs ++ (S :: m') ++ [l]) in Hn.
  rewrite app_assoc in Hn.
  rewrite (namei_unfold t P _ l HPne Hn), walk_app, Hw. simpl.
  rewrite Hdot, Hdd. destruct (too_long S); [reflexivity |].
  destruct (t !! (D ++ [S])) as [[|f]|]; [done | reflexivity..].
Qed.

(** When the loop has gone through the entries before [(k, v)], the value
    decodes and the key leads nowhere, the [open] raises and the run stops
    there. *)
Lemma unreachable_key_aborts file t pre k v post st1 content :
  manifest file t = Ok (pre ++ (k, v) :: post) ->
  write_loop (dirname file) pre (State t []) = (st1, Ok tt) ->
  decode_content v = Ok content ->
  dest t (join (dirname file) k) = None ->
  exists e,
    open_w (join (dirname file) k) st1 = (st1, Raise e)
    /\ run file t = (st1, Raise e)
    /\ stopped_after file t pre st1.
Proof.
  intros Hm Hpre Hdec Hnone.
  assert (stopped_after file t pre st1) as Hstop.
  { apply stopped_after_prefix; [| exact Hpre]. apply (run_manifest_ok _ _ _ Hm). }
  pose proof Hstop as (_ & _ & _ & _ & _ & Hd).
  destruct (open_w_nowhere (join (dirname file) k) st1) as (e & Hopen).
  { rewrite <- (dest_same_dirs _ _ _ Hd). exact Hnone. }
  exists e. split_and!; try done.
  apply (run_aborts_at _ _ _ _ _ _ _ _ _ Hm Hpre).
  unfold write_entry. rewrite (bind_ok _ _ st1 st1 content)
    by (unfold lift; rewrite Hdec; reflexivity).
  apply bind_raise, Hopen.
Qed.

(** [open(.., 'w')] through a component that is not a directory: the
    exception says whether the component is missing or is a file. *)
Lemma open_w_missing_component p P segs S more D st :
  path_arg p = Ok P ->
  names P = segs ++ S :: more -> more <> [] ->
  walk (fs st) [] segs = Ok D ->
  is_dot S = false -> is_dotdot S = false -> too_long S = false ->
  fs st !! (D ++ [S]) <> Some Dir ->
  open_w p st =
  (st, Raise (match fs st !! (D ++ [S]) with
              | None => FileNotFoundError
              | Some _ => NotADirectoryError
              end)).
Proof.
  intros HP Hn Hmore Hw Hdot Hdd Hlong Hno.
  unfold open_w, lookup_path, bind. rewrite HP. cbn [res_bind].
  destruct (exists_last Hmore) as (m' & l & ->).
  assert (P <> []) as HPne by (intros ->; destruct segs; discriminate).
  change (segs ++ S :: m' ++ [l]) with (segs ++ (S :: m') ++ [l]) in Hn.
  rewrite app_assoc in Hn.
  rewrite (namei_unfold (fs st) P _ l HPne Hn), walk_app, Hw. simpl.
  rewrite Hdot, Hdd, Hlong.
  destruct (fs st !! (D ++ [S])) as [[|f]|]; [done | reflexivity..].
Qed.

(** The module body only uses the directory of the script's path. *)
Lemma run_dirname file file' t :
  dirname file' = dirname file -> run file' t = run file t.
Proof. unfold run, main. intros ->. reflexivity. Qed.

(** Without a manifest entry in the base directory the run raises
    [FileNotFoundError] at line 6, with nothing done. *)
Lemma run_without_manifest file t p :
  dest t (join (dirname file) manifest_name) = Some p ->
  t !! p = None ->
  run file t = (State t [], Raise FileNotFoundError).
Proof.
  intros Hp Hn. apply run_manifest_raise. unfold manifest.
  destruct (load_manifest_spec (dirname file) (State t []))
    as (r & -> & _ & Hr).
  simpl in *. rewrite (Hr p Hp Hn). reflexivity.
Qed.

End ScriptFacts.

(** * The specification, claim by claim *)

Import Json Script ScriptFacts.

(** C1, as amended.  For every entry [(k, v)] of the manifest of a successful
    run: [v] decodes from base64 to bytes that are valid UTF-8, these bytes
    are written to the file [os.path.join(base, k)] leads to, and after the
    run the file holds them (read as text: the decoded content), provided no
    later entry has the same destination and the destination is neither the
    manifest nor the script, which the cleanup removes. *)
Theorem written_file_content file t l1 k v l2 st :
  manifest file t = Ok (l1 ++ (k, v) :: l2) ->
  run file t = (st, Ok tt) ->
  exists p data content,
    dest t (join (dirname file) k) = Some p
    /\ b64decode_value v = Ok data
    /\ Utf8.decode data = Ok content
    /\ decode_content v = Ok content
    /\ (p, data) ∈ writes (log st)
    /\ ((forall k' v', (k', v') ∈ l2 ->
           dest t (join (dirname file) k') <> Some p) ->
        dest t (join (dirname file) manifest_name) <> Some p ->
        dest t (join (dirname file) script_name) <> Some p ->
        file_at (fs st) (join (dirname file) k) = Some data
        /\ text_at (fs st) (join (dirname file) k) = Some content).
Proof.
  intros Hm Hrun.
  destruct (run_entry_file _ _ _ _ _ _ _ Hm Hrun)
    as (p & data & content & Hp & Hb & Hu & Hw & Hfile).
  exists p, data, content. split_and!; try done.
  unfold decode_content. rewrite Hb. exact Hu.
Qed.

Lemma written_file_content_witness :
  exists p,
    dest tree_two_files (join (dirname example_file) (lit "a.txt")) = Some p
    /\ text_at (fs (fst (run example_file tree_two_files)))
               (join (dirname example_file) (lit "a.txt"))
       = Some (lit "x").
Proof.
  destruct (written_file_content example_file tree_two_files []
              (lit "a.txt") (JString (lit "eA=="))
              [(lit "b.txt", JString (lit "eQp6Cg=="))]
              (fst (run example_file tree_two_files)))
    as (p & data & content & Hp & Hb & Hu & Hd & Hw & Hfile);
    [vm_compute; reflexivity | vm_compute; reflexivity |].
  exists p. split; [exact Hp |].
  vm_compute in Hd. injection Hd as <-.
  vm_compute in Hp. injection Hp as <-.
  apply Hfile.
  - intros k' v' Hin. apply list_elem_of_singleton in Hin. injection Hin as -> ->.
    vm_compute. discriminate.
  - vm_compute. discriminate.
  - vm_compute. discriminate.
Defined.

(** C1 as the specification words it fails: the manifest that lists
    [_files_data.json] runs successfully, and the file written for that key
    is gone after the run. *)
Lemma every_key_has_its_file_fails : ~ every_key_has_its_file.
Proof.
  intros H.
  destruct (H example_file tree_own_name
              [(lit "_files_data.json", JString (lit "eA=="))]
              (fst (run example_file tree_own_name))
              (lit "_files_data.json") (JString (lit "eA==")))
    as (content & _ & Htext).
  - vm_compute. reflexivity.
  - vm_compute. reflexivity.
  - left.
  - vm_compute in Htext. discriminate.
Qed.

(** The other way a key loses its file: a later key with the same
    destination.  The run on [{"a.txt": base64("x"), "./a.txt": base64("y")}]
    is successful and leaves ["y"] in [a.txt]. *)
Lemma later_key_overwrites :
  manifest example_file tree_alias
  = Ok [(lit "a.txt", JString (lit "eA=="));
        (lit "./a.txt", JString (lit "eQ=="))]
  /\ snd (run example_file tree_alias) = Ok tt
  /\ decode_content (JString (lit "eA==")) = Ok (lit "x")
  /\ text_at (fs (fst (run example_file tree_alias)))
             (join (dirname example_file) (lit "a.txt")) = Some (lit "y").
Proof. split_and!; vm_compute; reflexivity. Qed.

(** C2, as amended.  Round trip: when the manifest holds
    [base64_encode(T)] under the key [k], for a UTF-8 text [T], a successful
    run writes exactly the bytes of [T] to the file the key leads to, and
    after the run the file holds exactly [T], provided no later entry has the
    same destination and the destination is neither the manifest nor the
    script. *)
Theorem roundtrip_through_write_path T data file t l1 k l2 st :
  Forall is_scalar T ->
  Utf8.encode T = Ok data ->
  manifest file t = Ok (l1 ++ (k, JString (Base64.b64encode data)) :: l2) ->
  run file t = (st, Ok tt) ->
  Base64.b64decode (Base64.b64encode data) = Ok data
  /\ Utf8.decode data = Ok T
  /\ exists p,
       dest t (join (dirname file) k) = Some p
       /\ (p, data) ∈ writes (log st)
       /\ ((forall k' v', (k', v') ∈ l2 ->
              dest t (join (dirname file) k') <> Some p) ->
           dest t (join (dirname file) manifest_name) <> Some p ->
           dest t (join (dirname file) script_name) <> Some p ->
           file_at (fs st) (join (dirname file) k) = Some data
           /\ text_at (fs st) (join (dirname file) k) = Some T).
Proof.
  intros HT Henc Hm Hrun.
  destruct (Utf8Facts.encode_decode T HT) as (bs & Hbs & Hbytes & Hdec).
  rewrite Henc in Hbs. injection Hbs as <-.
  pose proof (Base64Facts.b64decode_b64encode data Hbytes) as Hb64.
  split; [exact Hb64 |]. split; [exact Hdec |].
  destruct (run_entry_file _ _ _ _ _ _ _ Hm Hrun)
    as (p & data' & content & Hp & Hb & Hu & Hw & Hfile).
  simpl in Hb. rewrite Hb64 in Hb. injection Hb as <-.
  rewrite Hdec in Hu. injection Hu as <-.
  exists p. split_and!; done.
Qed.

Lemma roundtrip_through_write_path_witness :
  text_at (fs (fst (run example_file tree_two_files)))
          (join (dirname example_file) (lit "b.txt"))
  = Some [121; 10; 122; 10].
Proof.
  destruct (roundtrip_through_write_path [121; 10; 122; 10] [121; 10; 122; 10]
              example_file tree_two_files
              [(lit "a.txt", JString (lit "eA=="))] (lit "b.txt") []
              (fst (run example_file tree_two_files)))
    as (_ & _ & p & Hp & _ & Hfile).
  - repeat constructor; unfold is_scalar; lia.
  - reflexivity.
  - vm_compute. reflexivity.
  - vm_compute. reflexivity.
  - vm_compute in Hp. injection Hp as <-. apply Hfile.
    + intros k' v' Hin. inversion Hin.
    + vm_compute. discriminate.
    + vm_compute. discriminate.
Defined.

(** C2 as the specification words it fails: with two keys for one file the
    run is successful and the file of the first key holds the text of the
    second. *)
Lemma text_survives_the_run_fails : ~ text_survives_the_run.
Proof.
  intros H.
  specialize (H (lit "x") (lit "x") example_file tree_alias
                [(lit "a.txt", JString (lit "eA=="));
                 (lit "./a.txt", JString (lit "eQ=="))]
                (fst (run example_file tree_alias)) (lit "a.txt")).
  assert (file_at (fs (fst (run example_file tree_alias)))
                  (join (dirname example_file) (lit "a.txt"))
          = Some (lit "y")) as Hy by (vm_compute; reflexivity).
  rewrite H in Hy.
  - discriminate.
  - repeat constructor; unfold is_scalar; lia.
  - reflexivity.
  - vm_compute. reflexivity.
  - left.
  - vm_compute. reflexivity.
Qed.

(** C3.  The count in a line [Written: <filename> (<count> lines)] is the
    script's [content.count(chr(10))], which is the number of newline
    characters of the entry's decoded content: 2 for ["a\nb\nc"], 3 for
    ["a\nb\nc\n"].  The lines a run prints are those of the first [n]
    entries, in order, each with that count, and then, when the cleanup went
    through, the final line; in a successful run [n] is the number of
    entries. *)
Theorem printed_count_is_newline_count :
  (forall content, str_count content (chr 10) = newlines content)
  /\ written_line (lit "f.txt") (str_count [97; 10; 98; 10; 99] (chr 10))
     = lit "Written: f.txt (2 lines)"
  /\ written_line (lit "f.txt") (str_count [97; 10; 98; 10; 99; 10] (chr 10))
     = lit "Written: f.txt (3 lines)"
  /\ forall file t entries st r,
       manifest file t = Ok entries ->
       run file t = (st, r) ->
       exists n lines,
         (n <= length entries)%nat
         /\ (r = Ok tt -> n = length entries)
         /\ Forall2
              (fun entry line =>
                 exists content,
                   decode_content (snd entry) = Ok content
                   /\ line = lit "Written: " ++ fst entry ++ lit " ("
                             ++ str_of_nat (newlines content) ++ lit " lines)")
              (take n entries) lines
         /\ (stdout st = lines \/ stdout st = lines ++ [lit "Cleanup done"]).
Proof.
  split; [exact str_count_newlines |]. split; [reflexivity |].
  split; [reflexivity |].
  intros file t entries st r Hm Hrun.
  destruct (run_inv _ _ _ _ _ Hm Hrun) as (st1 & r1 & Hs & Hcases).
  destruct (steps_stdout _ _ _ _ _ Hs) as (n & lines & Hn & Fl & El & Hall).
  simpl in El. exists n, lines. split; [exact Hn |].
  destruct Hcases as [(e & -> & -> & ->) | (-> & Hc)].
  { split; [discriminate |]. split; [exact Fl | left; exact El]. }
  split; [intros _; apply Hall; reflexivity |]. split; [exact Fl |].
  rewrite <- El. clear El Fl Hall.
  inversion Hc; subst; unfold stdout; simpl; rewrite ?omap_app; simpl.
  - left. reflexivity.
  - left. apply app_nil_r.
  - right. reflexivity.
Qed.

Lemma printed_count_is_newline_count_witness :
  exists n lines,
    (n <= 2)%nat
    /\ (Ok tt = Ok tt -> n = 2%nat)
    /\ Forall2
         (fun entry line =>
            exists content,
              decode_content (snd entry) = Ok content
              /\ line = lit "Written: " ++ fst entry ++ lit " ("
                        ++ str_of_nat (newlines content) ++ lit " lines)")
         (take n [(lit "a.txt", JString (lit "eA=="));
                  (lit "b.txt", JString (lit "eQp6Cg=="))]) lines
    /\ (stdout (fst (run example_file tree_two_files)) = lines
        \/ stdout (fst (run example_file tree_two_files))
           = lines ++ [lit "Cleanup done"]).
Proof.
  apply (proj2 (proj2 (proj2 printed_count_is_newline_count))
           example_file tree_two_files
           [(lit "a.txt", JString (lit "eA=="));
            (lit "b.txt", JString (lit "eQp6Cg=="))]
           (fst (run example_file tree_two_files)) (Ok tt));
    vm_compute; reflexivity.
Defined.

(** C8.  A successful run writes the entries in the order of the manifest
    and prints their lines in that order, followed by the final line.  On
    the manifest [{"a.txt": base64("x"), "b.txt": base64("y\nz\n")}] it writes
    [a.txt] and then [b.txt], prints the counts 0 and 2 in that order, and
    leaves the two files with the contents ["x"] and ["y\nz\n"]. *)
Theorem entries_in_manifest_order :
  (forall file t entries st,
      manifest file t = Ok entries ->
      run file t = (st, Ok tt) ->
      exists lines,
        Forall2 (write_for t (dirname file)) entries (writes (log st))
        /\ Forall2 line_for entries lines
        /\ stdout st = lines ++ [lit "Cleanup done"])
  /\ manifest example_file tree_two_files
     = Ok [(lit "a.txt", JString (Base64.b64encode (lit "x")));
           (lit "b.txt", JString (Base64.b64encode [121; 10; 122; 10]))]
  /\ snd (run example_file tree_two_files) = Ok tt
  /\ stdout (fst (run example_file tree_two_files))
     = [lit "Written: a.txt (0 lines)"; lit "Written: b.txt (2 lines)";
        lit "Cleanup done"]
  /\ writes (log (fst (run example_file tree_two_files)))
     = [([lit "srv"; lit "app"; lit "a.txt"], lit "x");
        ([lit "srv"; lit "app"; lit "b.txt"], [121; 10; 122; 10])]
  /\ text_at (fs (fst (run example_file tree_two_files)))
             (lit "/srv/app/a.txt") = Some (lit "x")
  /\ text_at (fs (fst (run example_file tree_two_files)))
             (lit "/srv/app/b.txt") = Some [121; 10; 122; 10].
Proof.
  split; [| split_and!; vm_compute; reflexivity].
  intros file t entries st Hm Hrun.
  destruct (run_ok_inv _ _ _ _ Hm Hrun)
    as (st1 & pm & d & ps & d' & Hs & _ & _ & _ & _ & _ & _ & Hlog & _).
  destruct (steps_ok _ _ _ _ Hs) as (ws & lines & Fw & Fl & Ew & El).
  simpl in Fw, Ew, El. exists lines. split_and!.
  - rewrite Hlog. unfold writes in *. rewrite omap_app, Ew. simpl.
    rewrite app_nil_r. exact Fw.
  - exact Fl.
  - unfold stdout in *. rewrite Hlog, omap_app, El. reflexivity.
Qed.

Lemma entries_in_manifest_order_witness :
  exists lines,
    Forall2 (write_for tree_two_files (dirname example_file))
            [(lit "a.txt", JString (lit "eA=="));
             (lit "b.txt", JString (lit "eQp6Cg=="))]
            (writes (log (fst (run example_file tree_two_files))))
    /\ Forall2 line_for [(lit "a.txt", JString (lit "eA=="));
                         (lit "b.txt", JString (lit "eQp6Cg=="))] lines
    /\ stdout (fst (run example_file tree_two_files))
       = lines ++ [lit "Cleanup done"].
Proof.
  apply (proj1 entries_in_manifest_order example_file tree_two_files);
    vm_compute; reflexivity.
Defined.

(** C4.  When a value of the manifest does not decode (the base64 decoding
    or the UTF-8 decoding raises), the run raises: nothing is removed,
    [Cleanup done] is not printed and the manifest is still there.  When the
    loop has gone through the entries before [(k, v)], the run raises the
    decoding's exception at this entry and stops in the state the earlier
    entries left: their files are on disk, nothing is written for this entry
    or a later one. *)
Theorem decode_failure_aborts file t pre k v post e :
  manifest file t = Ok (pre ++ (k, v) :: post) ->
  decode_content v = Raise e ->
  (exists st e',
      run file t = (st, Raise e')
      /\ removes (log st) = []
      /\ (lit "Cleanup done" ∉ stdout st)
      /\ is_Some (file_at (fs st) (join (dirname file) manifest_name)))
  /\ (forall st1,
        write_loop (dirname file) pre (State t []) = (st1, Ok tt) ->
        run file t = (st1, Raise e) /\ stopped_after file t pre st1).
Proof.
  intros Hm Hdec. split.
  - destruct (undecodable_value_aborts file t _ k v e Hm) as (st & e' & H);
      [apply elem_of_app; right; left | exact Hdec |].
    exists st, e'. tauto.
  - intros st1 Hpre. split.
    + apply (run_aborts_at _ _ _ _ _ _ _ _ _ Hm Hpre).
      unfold write_entry. apply bind_raise. unfold lift. rewrite Hdec.
      reflexivity.
    + apply stopped_after_prefix; [| exact Hpre].
      apply (run_manifest_ok _ _ _ Hm).
Qed.

Lemma decode_failure_aborts_witness :
  run example_file tree_bad_value
  = (fst (write_loop (dirname example_file)
                     [(lit "a.txt", JString (lit "eA=="))]
                     (State tree_bad_value [])),
     Raise BinasciiError)
  /\ stopped_after example_file tree_bad_value
       [(lit "a.txt", JString (lit "eA=="))]
       (fst (write_loop (dirname example_file)
                        [(lit "a.txt", JString (lit "eA=="))]
                        (State tree_bad_value []))).
Proof.
  apply (proj2 (decode_failure_aborts example_file tree_bad_value
                  [(lit "a.txt", JString (lit "eA=="))]
                  (lit "bad.txt") (JString (lit "e"))
                  [(lit "c.txt", JString (lit "eA=="))] BinasciiError
                  ltac:(vm_compute; reflexivity) ltac:(reflexivity))).
  vm_compute. reflexivity.
Defined.

(** C9.  The script makes no directory.  Take a key whose path goes, after
    the components [segs] that lead to the directory [D], through a
    component [S] that is not the last one and is not a directory of [D]: a
    missing directory at any depth below the base directory.  When the loop
    has gone through the entries before the key and the value decodes, the
    [open] for writing raises, the run raises with it at this entry and stops
    in the state the earlier entries left, as for a decoding failure; [S] is
    still not a directory.  The exception is [FileNotFoundError] when
    nothing is at [S], and [NotADirectoryError] when a file is. *)
Theorem missing_directory_aborts
    file t pre k v post st1 content P segs S more D :
  manifest file t = Ok (pre ++ (k, v) :: post) ->
  path_arg (join (dirname file) k) = Ok P ->
  names P = segs ++ S :: more -> more <> [] ->
  walk t [] segs = Ok D ->
  is_dot S = false -> is_dotdot S = false ->
  t !! (D ++ [S]) <> Some Dir ->
  write_loop (dirname file) pre (State t []) = (st1, Ok tt) ->
  decode_content v = Ok content ->
  exists e,
    open_w (join (dirname file) k) st1 = (st1, Raise e)
    /\ run file t = (st1, Raise e)
    /\ stopped_after file t pre st1
    /\ fs st1 !! (D ++ [S]) <> Some Dir
    /\ (too_long S = false -> fs st1 !! (D ++ [S]) = None ->
        e = FileNotFoundError)
    /\ (too_long S = false ->
        (exists d, fs st1 !! (D ++ [S]) = Some (File d)) ->
        e = NotADirectoryError).
Proof.
  intros Hm HP Hn Hmore Hw Hdot Hdd Hno Hpre Hdec.
  destruct (unreachable_key_aborts _ _ _ _ _ _ _ _ Hm Hpre Hdec)
    as (e & Hopen & Hrun & Hstop).
  { eapply dest_missing_component; eauto. }
  pose proof Hstop as (_ & _ & _ & _ & _ & Hd).
  assert (fs st1 !! (D ++ [S]) <> Some Dir) as Hno1.
  { intros H. apply Hd in H. contradiction. }
  pose proof (walk_same_dirs _ _ _ _ _ Hd Hw) as Hw1.
  exists e. split_and!; try done.
  - intros Hlong Hnone.
    rewrite (open_w_missing_component _ _ _ _ _ _ _
               HP Hn Hmore Hw1 Hdot Hdd Hlong Hno1), Hnone in Hopen.
    congruence.
  - intros Hlong [d Hf].
    rewrite (open_w_missing_component _ _ _ _ _ _ _
               HP Hn Hmore Hw1 Hdot Hdd Hlong Hno1), Hf in Hopen.
    congruence.
Qed.

Lemma missing_directory_aborts_witness :
  exists e,
    run example_file tree_deep_subdir
    = (fst (write_loop (dirname example_file)
              [(lit "a.txt", JString (lit "eA=="))]
              (State tree_deep_subdir [])), Raise e)
    /\ stopped_after example_file tree_deep_subdir
         [(lit "a.txt", JString (lit "eA=="))]
         (fst (write_loop (dirname example_file)
                 [(lit "a.txt", JString (lit "eA=="))]
                 (State tree_deep_subdir [])))
    /\ fs (fst (write_loop (dirname example_file)
                  [(lit "a.txt", JString (lit "eA=="))]
                  (State tree_deep_subdir [])))
         !! ([lit "srv"; lit "app"; lit "out"] ++ [lit "sub"]) <> Some Dir
    /\ e = FileNotFoundError.
Proof.
  destruct (missing_directory_aborts example_file tree_deep_subdir
              [(lit "a.txt", JString (lit "eA=="))]
              (lit "out/sub/b.txt") (JString (lit "eQ=="))
              [(lit "c.txt", JString (lit "eA=="))]
              (fst (write_loop (dirname example_file)
                      [(lit "a.txt", JString (lit "eA=="))]
                      (State tree_deep_subdir [])))
              (lit "y") (lit "/srv/app/out/sub/b.txt")
              [lit "srv"; lit "app"; lit "out"] (lit "sub") [lit "b.txt"]
              [lit "srv"; lit "app"; lit "out"])
    as (e & _ & Hrun & Hstop & Hno & Hnf & _).
  - vm_compute. reflexivity.
  - vm_compute. reflexivity.
  - vm_compute. reflexivity.
  - discriminate.
  - vm_compute. reflexivity.
  - reflexivity.
  - reflexivity.
  - vm_compute. discriminate.
  - vm_compute. reflexivity.
  - reflexivity.
  - exists e. split_and!; [exact Hrun | exact Hstop | exact Hno |].
    apply Hnf; vm_compute; reflexivity.
Defined.

(** C5, as amended.  After a successful run neither the manifest
    [<base>/_files_data.json] nor the file [<base>/_write_files.py] exists
    any more: each was removed once, one after the other, at the end of the
    run, and nothing had been removed before.  The file removed last is the
    script's own file when the script is stored under that name, which is
    its name in the repository; line 18 names the file, it does not use
    [__file__]. *)
Theorem manifest_and_script_removed file t st :
  run file t = (st, Ok tt) ->
  is_Some (file_at t (join (dirname file) manifest_name))
  /\ file_at (fs st) (join (dirname file) manifest_name) = None
  /\ file_at (fs st) (join (dirname file) script_name) = None
  /\ (join (dirname file) script_name = file -> file_at (fs st) file = None)
  /\ exists pm ps l,
       dest t (join (dirname file) manifest_name) = Some pm
       /\ dest t (join (dirname file) script_name) = Some ps
       /\ pm <> ps
       /\ fs st !! pm = None /\ fs st !! ps = None
       /\ log st = l ++ [EvRemove pm; EvRemove ps; EvPrint (lit "Cleanup done")]
       /\ removes l = []
       /\ removes (log st) = [pm; ps].
Proof.
  intros Hrun. destruct (run_ok_manifest _ _ _ Hrun) as (entries & Hm).
  destruct (run_ok_inv _ _ _ _ Hm Hrun)
    as (st1 & pm & d & ps & d' & Hs & Hpm & Hps & Hne & _ & _ & Hfs & Hlog & Hd).
  destruct (steps_log _ _ _ _ _ Hs) as (l & Hl & Floop). simpl in Hl. subst l.
  assert (fs st !! pm = None) as Hnm.
  { rewrite Hfs, lookup_delete_ne by congruence. apply lookup_delete_eq. }
  assert (fs st !! ps = None) as Hns by (rewrite Hfs; apply lookup_delete_eq).
  assert (file_at (fs st) (join (dirname file) script_name) = None) as Hgone.
  { unfold file_at. rewrite <- (dest_same_dirs _ _ _ Hd), Hps, Hns. reflexivity. }
  split; [apply (run_manifest_ok _ _ _ Hm) |]. split_and!.
  - unfold file_at. rewrite <- (dest_same_dirs _ _ _ Hd), Hpm, Hnm. reflexivity.
  - exact Hgone.
  - intros <-. exact Hgone.
  - exists pm, ps, (log st1). split_and!; try done.
    + apply removes_loop, Floop.
    + rewrite Hlog. unfold removes. rewrite omap_app. fold (removes (log st1)).
      rewrite (removes_loop _ Floop). reflexivity.
Qed.

Lemma manifest_and_script_removed_witness :
  file_at (fs (fst (run example_file tree_two_files)))
          (join (dirname example_file) manifest_name) = None
  /\ file_at (fs (fst (run example_file tree_two_files))) example_file = None.
Proof.
  destruct (manifest_and_script_removed example_file tree_two_files
              (fst (run example_file tree_two_files)))
    as (_ & Hm & _ & Hs & _); [vm_compute; reflexivity |].
  split; [exact Hm | apply Hs; vm_compute; reflexivity].
Defined.

(** The sentence as the specification has it fails for a copy of the script
    under another name: started next to [_write_files.py], it succeeds,
    removes that file, and is still there itself. *)
Lemma own_file_is_gone_fails : ~ own_file_is_gone.
Proof.
  intros H.
  destruct (H copy_file tree_script_copy
              (fst (run copy_file tree_script_copy))) as [_ Hgone].
  - vm_compute. reflexivity.
  - vm_compute in Hgone. discriminate.
Qed.

(** C6.  In the log of any run that got to the loop: whenever a file is
    removed (the manifest first of all), every entry of the manifest has been
    written before; the script's removal comes after the manifest's; the
    final line comes after both removals, which are logged only once done,
    and only in a successful run. *)
Theorem side_effects_in_order file t entries st r :
  manifest file t = Ok entries ->
  run file t = (st, r) ->
  (forall q l1 l2,
      log st = l1 ++ EvRemove q :: l2 ->
      Forall2 (write_for t (dirname file)) entries (writes l1))
  /\ (forall ps l1 l2,
        dest t (join (dirname file) script_name) = Some ps ->
        log st = l1 ++ EvRemove ps :: l2 ->
        exists pm,
          dest t (join (dirname file) manifest_name) = Some pm
          /\ EvRemove pm ∈ l1)
  /\ (forall l1 l2,
        log st = l1 ++ EvPrint (lit "Cleanup done") :: l2 ->
        exists pm ps,
          dest t (join (dirname file) manifest_name) = Some pm
          /\ dest t (join (dirname file) script_name) = Some ps
          /\ removes l1 = [pm; ps]
          /\ l2 = [] /\ r = Ok tt).
Proof.
  intros Hm Hrun.
  destruct (run_log_shape _ _ _ _ _ Hm Hrun) as (l & tail & Hlog & Floop & Ht).
  assert (forall q, ~ loop_event (EvRemove q)) as Hrm by (intros q H; exact H).
  assert (~ loop_event (EvPrint (lit "Cleanup done"))) as Hpr
    by (intros H; apply H; reflexivity).
  split_and!.
  - intros q l1 l2 E. rewrite Hlog in E.
    destruct (split_after_loop _ _ _ _ _ Floop (Hrm q) E) as (t1 & -> & Et).
    destruct Ht as [-> | (Fw & pm & Hpm & [-> | (ps & Hps & _ & ->)])].
    + destruct t1; discriminate.
    + destruct t1 as [|? [|]]; simpl in Et; simplify_eq.
      unfold writes in *. rewrite ?omap_app; simpl; rewrite ?app_nil_r.
      exact Fw.
    + destruct t1 as [|? [|? [|? [|]]]]; simpl in Et; simplify_eq;
        unfold writes in *; rewrite ?omap_app; simpl; rewrite ?app_nil_r;
        exact Fw.
  - intros ps l1 l2 Hps E. rewrite Hlog in E.
    destruct (split_after_loop _ _ _ _ _ Floop (Hrm ps) E) as (t1 & -> & Et).
    destruct Ht as [-> | (Fw & pm & Hpm & [-> | (ps' & Hps' & _ & ->)])].
    + destruct t1; discriminate.
    + pose proof (dest_manifest_script _ _ _ _ _ Hpm Hps) as Hne.
      destruct t1 as [|? [|]]; simpl in Et; simplify_eq.
    + exists pm. split; [exact Hpm |].
      pose proof (dest_manifest_script _ _ _ _ _ Hpm Hps) as Hne.
      destruct t1 as [|? [|? [|? [|]]]]; simpl in Et; simplify_eq.
      apply elem_of_app. right. left.
  - intros l1 l2 E. rewrite Hlog in E.
    destruct (split_after_loop _ _ _ _ _ Floop Hpr E) as (t1 & -> & Et).
    destruct Ht as [-> | (Fw & pm & Hpm & [-> | (ps & Hps & -> & ->)])].
    + destruct t1; discriminate.
    + destruct t1 as [|? [|]]; simpl in Et; simplify_eq.
    + destruct t1 as [|? [|? [|? [|]]]]; simpl in Et; simplify_eq.
      exists pm, ps. split_and!; try done.
      unfold removes. rewrite omap_app. fold (removes l).
      rewrite (removes_loop l Floop). reflexivity.
Qed.

Lemma side_effects_in_order_witness :
  exists pm ps,
    dest tree_two_files (join (dirname example_file) manifest_name) = Some pm
    /\ dest tree_two_files (join (dirname example_file) script_name) = Some ps
    /\ removes (take 8 (log (fst (run example_file tree_two_files)))) = [pm; ps]
    /\ @nil event = [] /\ Ok tt = Ok tt.
Proof.
  apply (proj2 (proj2 (side_effects_in_order example_file tree_two_files
           [(lit "a.txt", JString (lit "eA=="));
            (lit "b.txt", JString (lit "eQp6Cg=="))]
           (fst (run example_file tree_two_files)) (Ok tt)
           ltac:(vm_compute; reflexivity) ltac:(vm_compute; reflexivity)))
         (take 8 (log (fst (run example_file tree_two_files)))) []).
  vm_compute. reflexivity.
Defined.

(** C7, as amended.  When no manifest is at the expected place the run
    raises with the tree untouched and nothing done (no write, no removal,
    no output); the exception is [FileNotFoundError] when the directory is
    there and the entry is not.  After a successful run the manifest is
    gone, and with it the script stored as [_write_files.py]: started a
    second time, that script does not run at all, the interpreter finds no
    file.  A copy of the script that is still in the directory, when
    started, fails at line 6 with [FileNotFoundError], nothing written and
    nothing removed. *)
Theorem manifest_not_found :
  (forall file t,
      file_at t (join (dirname file) manifest_name) = None ->
      exists e, run file t = (State t [], Raise e))
  /\ (forall file t p,
        dest t (join (dirname file) manifest_name) = Some p ->
        t !! p = None ->
        run file t = (State t [], Raise FileNotFoundError))
  /\ (forall file t st,
        run file t = (st, Ok tt) ->
        file_at (fs st) (join (dirname file) manifest_name) = None
        /\ (join (dirname file) script_name = file ->
            invoke file (fs st) = None)
        /\ (forall copy,
              dirname copy = dirname file ->
              is_Some (file_at (fs st) copy) ->
              invoke copy (fs st)
              = Some (State (fs st) [], Raise FileNotFoundError))).
Proof.
  split_and!.
  - intros file t Hnone.
    destruct (manifest file t) as [entries|e] eqn:Hm.
    + destruct (proj2 (run_manifest_ok _ _ _ Hm)) as (data & Hdata).
      congruence.
    + exists e. apply run_manifest_raise, Hm.
  - apply run_without_manifest.
  - intros file t st Hrun. destruct (run_ok_manifest _ _ _ Hrun) as (entries & Hm).
    destruct (run_ok_inv _ _ _ _ Hm Hrun)
      as (st1 & pm & d & ps & d' & _ & Hpm & Hps & Hne & _ & _ & Hfs & _ & Hd).
    assert (fs st !! pm = None) as Hnm.
    { rewrite Hfs, lookup_delete_ne by congruence. apply lookup_delete_eq. }
    assert (fs st !! ps = None) as Hns by (rewrite Hfs; apply lookup_delete_eq).
    rewrite (dest_same_dirs _ _ (join (dirname file) manifest_name) Hd) in Hpm.
    rewrite (dest_same_dirs _ _ (join (dirname file) script_name) Hd) in Hps.
    split_and!.
    + unfold file_at. rewrite Hpm, Hnm. reflexivity.
    + intros Hname. unfold invoke, file_at.
      rewrite <- Hname, Hps, Hns. reflexivity.
    + intros copy Hdir [data Hcopy]. unfold invoke. rewrite Hcopy.
      rewrite (run_dirname _ _ _ Hdir).
      rewrite (run_without_manifest file (fs st) pm Hpm Hnm). reflexivity.
Qed.

Lemma manifest_not_found_witness :
  run example_file tree_no_manifest
  = (State tree_no_manifest [], Raise FileNotFoundError)
  /\ invoke example_file (fs (fst (run example_file tree_two_files))) = None
  /\ invoke copy_file (fs (fst (run copy_file tree_script_copy)))
     = Some (State (fs (fst (run copy_file tree_script_copy))) [],
             Raise FileNotFoundError).
Proof.
  split_and!.
  - apply (proj1 (proj2 manifest_not_found) example_file tree_no_manifest
             [lit "srv"; lit "app"; manifest_name]);
      vm_compute; reflexivity.
  - apply (proj2 (proj2 manifest_not_found) example_file tree_two_files);
      vm_compute; reflexivity.
  - apply (proj2 (proj2 manifest_not_found) copy_file tree_script_copy);
      [vm_compute; reflexivity | reflexivity |].
    vm_compute. eexists. reflexivity.
Defined.

(** The sentence as the specification has it fails for the script itself:
    after its successful run it is no longer there to be started. *)
Lemma second_invocation_misses_the_manifest_fails :
  ~ second_invocation_misses_the_manifest.
Proof.
  intros H.
  specialize (H example_file tree_two_files
                (fst (run example_file tree_two_files))).
  assert (invoke example_file tree_two_files
          = Some (fst (run example_file tree_two_files), Ok tt)) as Hfirst
    by (vm_compute; reflexivity).
  apply H in Hfirst. vm_compute in Hfirst. discriminate.
Qed.

(** C10.  The cleanup removes [_files_data.json] and [_write_files.py] of
    the base directory whatever the manifest holds.  So when the manifest
    has one of these two names as a key, a successful run writes the file for
    that key and removes it again: after the run no file is there. *)
Theorem cleanup_removes_listed_names file t entries st k v :
  manifest file t = Ok entries ->
  run file t = (st, Ok tt) ->
  (k, v) ∈ entries ->
  k = manifest_name \/ k = script_name ->
  (exists p data,
      dest t (join (dirname file) k) = Some p
      /\ b64decode_value v = Ok data
      /\ (p, data) ∈ writes (log st)
      /\ EvRemove p ∈ log st
      /\ fs st !! p = None)
  /\ file_at (fs st) (join (dirname file) k) = None
  /\ exists pm ps,
       dest t (join (dirname file) manifest_name) = Some pm
       /\ dest t (join (dirname file) script_name) = Some ps
       /\ removes (log st) = [pm; ps].
Proof.
  intros Hm Hrun Hin Hk.
  destruct (run_ok_inv _ _ _ _ Hm Hrun)
    as (st1 & pm & d & ps & d' & Hs & Hpm & Hps & Hne & _ & _ & Hfs & Hlog & Hd).
  destruct (steps_log _ _ _ _ _ Hs) as (l & Hl & Floop). simpl in Hl. subst l.
  assert (fs st !! pm = None) as Hnm.
  { rewrite Hfs, lookup_delete_ne by congruence. apply lookup_delete_eq. }
  assert (fs st !! ps = None) as Hns by (rewrite Hfs; apply lookup_delete_eq).
  apply list_elem_of_split in Hin as (l1 & l2 & ->).
  destruct (run_entry_file _ _ _ _ _ _ _ Hm Hrun)
    as (p & data & content & Hp & Hb & _ & Hw & _).
  assert (fs st !! p = None /\ EvRemove p ∈ log st) as [Hnp Hrm].
  { rewrite Hlog. destruct Hk as [-> | ->].
    - rewrite Hpm in Hp. injection Hp as <-. split; [exact Hnm |].
      apply elem_of_app. right. left.
    - rewrite Hps in Hp. injection Hp as <-. split; [exact Hns |].
      apply elem_of_app. right. right. left. }
  split_and!.
  - exists p, data. split_and!; done.
  - unfold file_at. rewrite <- (dest_same_dirs _ _ _ Hd), Hp, Hnp. reflexivity.
  - exists pm, ps. split_and!; try done.
    rewrite Hlog. unfold removes. rewrite omap_app. fold (removes (log st1)).
    rewrite (removes_loop _ Floop). reflexivity.
Qed.

Lemma cleanup_removes_listed_names_witness :
  file_at (fs (fst (run example_file tree_script_name)))
          (join (dirname example_file) script_name) = None
  /\ file_at (fs (fst (run example_file tree_own_name)))
             (join (dirname example_file) manifest_name) = None.
Proof.
  split.
  - apply (cleanup_removes_listed_names example_file tree_script_name
             [(lit "_write_files.py", JString (lit "eA=="));
              (lit "keep.txt", JString (lit "eQ=="))]
             (fst (run example_file tree_script_name))
             script_name (JString (lit "eA==")));
      [vm_compute; reflexivity | vm_compute; reflexivity | left | right; reflexivity].
  - apply (cleanup_removes_listed_names example_file tree_own_name
             [(lit "_files_data.json", JString (lit "eA=="))]
             (fst (run example_file tree_own_name))
             manifest_name (JString (lit "eA==")));
      [vm_compute; reflexivity | vm_compute; reflexivity | left | left; reflexivity].
Defined.

(** * Further properties of the script

    What follows is read off the code alone: how the library calls behave
    on the inputs a manifest can hold, what a run leaves untouched, when it
    succeeds and where it stops. *)

(** ** Base64 values *)

Lemma a2b_loop_filter q l p s :
  Base64.a2b_loop q l p (List.filter Base64.significant s) = Base64.a2b_loop q l p s.
Proof.
  revert q l p. induction s as [|c s IH]; intros q l p; [reflexivity |].
  cbn [List.filter]. unfold Base64.significant at 1.
  destruct (c =? Base64.BASE64_PAD) eqn:Ep; cbn [orb].
  - cbn [Base64.a2b_loop]. rewrite Ep, !IH. reflexivity.
  - destruct (Base64.table_a2b_base64 c) as [v|] eqn:Et.
    + cbn [Base64.a2b_loop]. rewrite Ep, Et.
      destruct q as [|[|[|q]]]; rewrite IH; reflexivity.
    + cbn [Base64.a2b_loop]. rewrite Ep, Et. apply IH.
Qed.

Lemma ascii_forallb s :
  Forall (fun c => 0 <= c < 128) s ->
  forallb (fun c => (0 <=? c) && (c <? 128)) s = true.
Proof.
  induction 1 as [|c s Hc _ IH]; [reflexivity |]. cbn [forallb].
  rewrite IH, andb_true_r. apply andb_true_iff.
  split; [apply Z.leb_le | apply Z.ltb_lt]; lia.
Qed.

Lemma a2b_b2a_padded bs junk :
  Forall is_byte bs -> (length bs mod 3 <> 0)%nat ->
  Base64.a2b_loop 0 0 0 (Base64.b64encode bs ++ junk) = Ok bs.
Proof.
  induction bs as [| a | a b | a b c l IH] using Base64Facts.list_ind3;
    intros Hall Hlen.
  - done.
  - apply Forall_cons in Hall as [Ha _]. cbn [Base64.b64encode app].
    assert (Z.shiftl (Z.land a 3) 4 = Base64.s2 a 0) as ->.
    { rewrite Base64Facts.s2_arith by (unfold is_byte; lia).
      autorewrite with bits. rewrite Z.shiftl_mul_pow2 by lia. lia. }
    change (Z.shiftr a 2) with (Base64.s1 a).
    rewrite Base64Facts.a2b_step by (apply Base64Facts.s1_range; done).
    rewrite Base64Facts.a2b_step
      by (apply Base64Facts.s2_range; unfold is_byte; lia).
    rewrite Base64Facts.byte1 by (done || unfold is_byte; lia). reflexivity.
  - apply Forall_cons in Hall as [Ha Hall].
    apply Forall_cons in Hall as [Hb _]. cbn [Base64.b64encode app].
    assert (Z.shiftl (Z.land b 15) 2 = Base64.s3 b 0) as ->.
    { rewrite Base64Facts.s3_arith by (unfold is_byte; lia).
      autorewrite with bits. rewrite Z.shiftl_mul_pow2 by lia. lia. }
    change (Z.shiftr a 2) with (Base64.s1 a).
    change (Z.lor (Z.shiftl (Z.land a 3) 4) (Z.shiftr b 4))
      with (Base64.s2 a b).
    rewrite Base64Facts.a2b_step by (apply Base64Facts.s1_range; done).
    rewrite Base64Facts.a2b_step by (apply Base64Facts.s2_range; done).
    rewrite Base64Facts.a2b_step
      by (apply Base64Facts.s3_range; unfold is_byte; lia).
    rewrite Base64Facts.byte1, Base64Facts.byte2
      by (done || unfold is_byte; lia).
    reflexivity.
  - apply Forall_cons in Hall as [Ha Hall].
    apply Forall_cons in Hall as [Hb Hall].
    apply Forall_cons in Hall as [Hc Hall]. cbn [Base64.b64encode app].
    change (Z.shiftr a 2) with (Base64.s1 a).
    change (Z.lor (Z.shiftl (Z.land a 3) 4) (Z.shiftr b 4))
      with (Base64.s2 a b).
    change (Z.lor (Z.shiftl (Z.land b 15) 2) (Z.shiftr c 6))
      with (Base64.s3 b c).
    change (Z.land c 63) with (Base64.s4 c).
    rewrite Base64Facts.a2b_step by (apply Base64Facts.s1_range; done).
    rewrite Base64Facts.a2b_step by (apply Base64Facts.s2_range; done).
    rewrite Base64Facts.a2b_step by (apply Base64Facts.s3_range; done).
    rewrite Base64Facts.a2b_step by apply Base64Facts.s4_range.
    rewrite Base64Facts.byte1, Base64Facts.byte2, Base64Facts.byte3 by done.
    rewrite IH; [reflexivity | done |].
    cbn [length] in Hlen.
    replace (S (S (S (length l)))) with (length l + 1 * 3)%nat in Hlen by lia.
    rewrite Nat.Div0.mod_add in Hlen. exact Hlen.
Qed.

(** X1.  Line 9: [base64.b64decode] does not validate.  Characters that are
    neither of the alphabet nor the pad (white space, line breaks,
    punctuation) are skipped wherever they stand: a value decodes to what it
    decodes to without them. *)
Theorem b64decode_skips_foreign_characters s :
  Forall (fun c => 0 <= c < 128) s ->
  Base64.b64decode s = Base64.b64decode (List.filter Base64.significant s).
Proof.
  intros Hs. unfold Base64.b64decode, Base64.bytes_from_decode_data.
  rewrite (ascii_forallb s Hs). rewrite ascii_forallb.
  - simpl. unfold Base64.a2b_base64. symmetry. apply a2b_loop_filter.
  - rewrite Forall_forall in *. intros c Hc.
    apply list_elem_of_In, filter_In in Hc as [Hc _].
    apply Hs, list_elem_of_In, Hc.
Qed.

Lemma b64decode_skips_foreign_characters_witness :
  Base64.b64decode [101; 81; 32; 112; 54; 10; 67; 103; 61; 61]
  = Base64.b64decode
      (List.filter Base64.significant [101; 81; 32; 112; 54; 10; 67; 103; 61; 61])
  /\ Base64.b64decode [101; 81; 32; 112; 54; 10; 67; 103; 61; 61]
     = Ok [121; 10; 122; 10].
Proof.
  split; [| reflexivity].
  apply (b64decode_skips_foreign_characters
           [101; 81; 32; 112; 54; 10; 67; 103; 61; 61]).
  repeat constructor; lia.
Defined.

(** X2.  Line 9: the decoder stops at the padding that completes a group.  When
    the encoded bytes end in padding (their number is not a multiple of 3),
    whatever follows the encoding inside the value is not looked at. *)
Theorem b64decode_stops_at_padding bs junk :
  Forall is_byte bs -> (length bs mod 3 <> 0)%nat ->
  Forall (fun c => 0 <= c < 128) junk ->
  Base64.b64decode (Base64.b64encode bs ++ junk) = Ok bs.
Proof.
  intros Hbs Hlen Hjunk. unfold Base64.b64decode, Base64.bytes_from_decode_data.
  rewrite forallb_app, (Base64Facts.b64encode_ascii bs Hbs),
    (ascii_forallb junk Hjunk).
  simpl. apply a2b_b2a_padded; done.
Qed.

Lemma b64decode_stops_at_padding_witness :
  Base64.b64decode (Base64.b64encode [120] ++ lit "zzzz") = Ok [120].
Proof.
  apply (b64decode_stops_at_padding [120] (lit "zzzz")).
  - repeat constructor; unfold is_byte; lia.
  - simpl. lia.
  - repeat constructor; simpl; lia.
Defined.

Lemma alphabet_ascii c :
  is_Some (Base64.table_a2b_base64 c) ->
  0 <= c < 128 /\ c <> Base64.BASE64_PAD.
Proof.
  unfold Base64.table_a2b_base64, Base64.BASE64_PAD. intros [v Hv].
  repeat match type of Hv with
         | context [if ?b then _ else _] => destruct b eqn:?
         end; try discriminate; lia.
Qed.

Lemma is_ok_emit b r : is_ok (Base64.emit b r) = is_ok r.
Proof. destruct r; reflexivity. Qed.

Lemma a2b_loop_alphabet s :
  Forall (fun c => is_Some (Base64.table_a2b_base64 c)) s ->
  forall q l,
    (q < 4)%nat ->
    is_ok (Base64.a2b_loop q l 0 s) = true <-> ((q + length s) mod 4 = 0)%nat.
Proof.
  induction 1 as [|c s Hc _ IH]; intros q l Hq.
  - cbn [Base64.a2b_loop length].
    destruct q as [|[|[|[|q]]]]; simpl; split; (done || lia).
  - destruct (alphabet_ascii c Hc) as [_ Hpad]. destruct Hc as [v Hv].
    cbn [Base64.a2b_loop length].
    rewrite (proj2 (Z.eqb_neq _ _) Hpad), Hv.
    destruct q as [|[|[|[|q]]]]; [| | | | lia]; rewrite ?is_ok_emit, IH by lia.
    + replace (0 + S (length s))%nat with (1 + length s)%nat by lia. done.
    + replace (1 + S (length s))%nat with (2 + length s)%nat by lia. done.
    + replace (2 + S (length s))%nat with (3 + length s)%nat by lia. done.
    + replace (3 + S (length s))%nat with (0 + length s + 1 * 4)%nat by lia.
      rewrite Nat.Div0.mod_add. done.
Qed.

Lemma a2b_loop_raise s :
  forall q l p e, Base64.a2b_loop q l p s = Raise e -> e = BinasciiError.
Proof.
  induction s as [|c s IH]; intros q l p e; cbn [Base64.a2b_loop].
  - destruct q; [discriminate | intros [= <-]; reflexivity].
  - assert (forall b q' l' p',
              Base64.emit b (Base64.a2b_loop q' l' p' s) = Raise e ->
              e = BinasciiError) as Hemit.
    { intros b q' l' p'. destruct (Base64.a2b_loop q' l' p' s) eqn:E; simpl;
        [discriminate | intros [= <-]; apply (IH _ _ _ _ E)]. }
    destruct (c =? Base64.BASE64_PAD).
    + destruct (2 <=? q)%nat; [| apply IH].
      destruct (4 <=? q + S p)%nat; [discriminate | apply IH].
    + destruct (Base64.table_a2b_base64 c) as [v|]; [| apply IH].
      destruct q as [|[|[|q]]]; [apply IH | apply Hemit..].
Qed.

(** X3.  Line 9: a value made of alphabet characters only, without padding,
    decodes exactly when its length is a multiple of four; any other length
    raises [binascii.Error], whatever the characters. *)
Theorem b64decode_unpadded_length s :
  Forall (fun c => is_Some (Base64.table_a2b_base64 c)) s ->
  (is_ok (Base64.b64decode s) = true <-> (length s mod 4 = 0)%nat)
  /\ ((length s mod 4 <> 0)%nat ->
      Base64.b64decode s = Raise BinasciiError).
Proof.
  intros Hs.
  assert (Base64.b64decode s = Base64.a2b_loop 0 0 0 s) as ->.
  { unfold Base64.b64decode, Base64.bytes_from_decode_data.
    rewrite ascii_forallb; [reflexivity |].
    eapply Forall_impl; [exact Hs |]. intros c Hc.
    apply (alphabet_ascii c Hc). }
  pose proof (a2b_loop_alphabet s Hs 0%nat 0 ltac:(lia)) as Hlen.
  cbn [Nat.add] in Hlen. split; [exact Hlen |].
  intros Hne. destruct (Base64.a2b_loop 0 0 0 s) as [bs|e] eqn:E.
  - destruct Hne. apply Hlen. reflexivity.
  - f_equal. apply (a2b_loop_raise _ _ _ _ _ E).
Qed.

Lemma b64decode_unpadded_length_witness :
  is_ok (Base64.b64decode (lit "eQp6")) = true
  /\ Base64.b64decode (lit "eQp6e") = Raise BinasciiError.
Proof.
  split.
  - apply (b64decode_unpadded_length (lit "eQp6")); [| reflexivity].
    repeat constructor; vm_compute; eexists; reflexivity.
  - apply (b64decode_unpadded_length (lit "eQp6e")); [| vm_compute; lia].
    repeat constructor; vm_compute; eexists; reflexivity.
Defined.

(** ** Text on disk, and the base directory *)

(** X4.  Lines 9 and 12: a content that line 9 produced is always written.  The
    strict decoder only yields Unicode scalar values, so [f.write] cannot
    raise an encoding error, and the bytes it puts on disk are exactly the
    bytes the base64 value decodes to. *)
Theorem write_stores_the_decoded_bytes v content f st :
  decode_content v = Ok content ->
  exists data,
    b64decode_value v = Ok data
    /\ Forall is_scalar content
    /\ write f content st
       = (State (<[f := File data]> (fs st)) (log st ++ [EvWrite f data]),
          Ok tt).
Proof.
  intros Hdec. unfold decode_content in Hdec.
  apply res_bind_ok in Hdec as (data & Hb & Hu).
  destruct (Utf8Facts.decode_encode data content Hu) as (He & Hs & _).
  exists data. split_and!; [done.. |].
  unfold write, bind, lift. rewrite He. reflexivity.
Qed.

Lemma write_stores_the_decoded_bytes_witness :
  exists data,
    b64decode_value (JString (lit "eQp6Cg==")) = Ok data
    /\ Forall is_scalar [121; 10; 122; 10]
    /\ write [lit "b.txt"] [121; 10; 122; 10] (State ∅ [])
       = (State (<[[lit "b.txt"] := File data]> ∅) ([] ++ [EvWrite [lit "b.txt"] data]),
          Ok tt).
Proof.
  apply (write_stores_the_decoded_bytes (JString (lit "eQp6Cg=="))
           [121; 10; 122; 10] [lit "b.txt"] (State ∅ [])).
  reflexivity.
Defined.

Lemma drop_to_sep_no_sep n r :
  sep ∉ n -> drop_to_sep (rev n ++ sep :: r) = sep :: r.
Proof.
  intros Hn.
  assert (sep ∉ rev n) as Hr.
  { intros H. apply Hn. apply list_elem_of_In, in_rev, list_elem_of_In, H. }
  induction (rev n) as [|c l IH]; cbn [app drop_to_sep].
  - rewrite Z.eqb_refl. reflexivity.
  - apply not_elem_of_cons in Hr as [Hc Hl].
    rewrite (proj2 (Z.eqb_neq c sep)) by congruence. apply IH, Hl.
Qed.

Lemma dirname_of_child d n :
  endswith_sep d = false -> sep ∉ n ->
  dirname (d ++ sep :: n) = match d with [] => [sep] | _ => d end.
Proof.
  intros Hd Hn. unfold dirname.
  rewrite rev_app_distr. cbn [rev]. rewrite <- app_assoc. cbn [app].
  rewrite (drop_to_sep_no_sep n _ Hn).
  assert (rev (sep :: rev d) = d ++ [sep]) as ->
    by (cbn [rev]; rewrite rev_involutive; reflexivity).
  assert (startswith_sep (rev d) = false) as Hr.
  { unfold endswith_sep in Hd. destruct (rev d); done. }
  destruct d as [|c d].
  { reflexivity. }
  destruct (lstrip_sep ((c :: d) ++ [sep])) as [|x l] eqn:E.
  - exfalso. assert (Forall (fun z => z = sep) ((c :: d) ++ [sep])) as Hall.
    { clear -E. induction ((c :: d) ++ [sep]) as [|a l IH]; [constructor |].
      simpl in E. destruct (Z.eqb_spec a sep); [| discriminate].
      constructor; auto. }
    apply Forall_app in Hall as [Hall _].
    unfold endswith_sep in Hd. destruct (rev (c :: d)) as [|y r] eqn:Er.
    + apply (f_equal (@rev Z)) in Er. rewrite rev_involutive in Er. done.
    + assert (y ∈ c :: d) as Hy.
      { apply list_elem_of_In, in_rev. rewrite Er. left. reflexivity. }
      rewrite Forall_forall in Hall. rewrite (Hall y Hy) in Hd.
      discriminate.
  - rewrite rev_app_distr.
    change (rev [sep] ++ rev (c :: d)) with (sep :: rev (c :: d)).
    cbn [lstrip_sep]. rewrite Z.eqb_refl.
    rewrite (lstrip_sep_no_sep _ Hr), rev_involutive. reflexivity.
Qed.

(** X5.  Lines 3 and 6: for a normalized absolute path [d/n] (what
    [os.path.abspath] returns), [dirname] gives [d] (the root for a file in
    the root), and joining the name back onto it gives the path again: the
    base directory is the directory of the script, and a name joined onto it
    names a sibling of the script. *)
Theorem dirname_join_roundtrip d n :
  endswith_sep d = false -> sep ∉ n ->
  dirname (d ++ sep :: n) = match d with [] => [sep] | _ => d end
  /\ join (dirname (d ++ sep :: n)) n = d ++ sep :: n
  /\ forall m, startswith_sep m = false ->
       join (dirname (d ++ sep :: n)) m = d ++ sep :: m.
Proof.
  intros Hd Hn. rewrite (dirname_of_child d n Hd Hn).
  assert (forall m, startswith_sep m = false ->
            join match d with [] => [sep] | _ => d end m = d ++ sep :: m) as Hj.
  { intros m Hm. unfold join. rewrite Hm. destruct d as [|c d].
    - reflexivity.
    - cbn [orb]. rewrite Hd. reflexivity. }
  split_and!; [reflexivity | | exact Hj].
  apply Hj. destruct n as [|c n]; [reflexivity |].
  apply not_elem_of_cons in Hn as [Hc _]. simpl.
  apply Z.eqb_neq. congruence.
Qed.

Lemma dirname_join_roundtrip_witness :
  dirname (lit "/srv/app" ++ sep :: script_name) = lit "/srv/app"
  /\ join (dirname (lit "/srv/app" ++ sep :: script_name)) script_name
     = lit "/srv/app" ++ sep :: script_name
  /\ join (dirname (lit "/srv/app" ++ sep :: script_name)) manifest_name
     = lit "/srv/app" ++ sep :: manifest_name.
Proof.
  destruct (dirname_join_roundtrip (lit "/srv/app") script_name)
    as (H1 & H2 & H3).
  - reflexivity.
  - vm_compute. intros H.
    repeat (apply elem_of_cons in H as [H|H]; [discriminate |]).
    inversion H.
  - split_and!; [exact H1 | exact H2 | apply H3; reflexivity].
Defined.

(** ** The manifest *)










Lemma read_text_file p st data :
  file_at (fs st) p = Some data ->
  read_text p st = (st, res_map universal_newlines (Utf8.decode data)).
Proof.
  unfold file_at, dest, read_text, lookup_path, bind.
  destruct (path_arg p) as [b|x]; simpl; [| discriminate].
  destruct (namei (fs st) b) as [[e [|]]|x]; simpl; try discriminate.
  destruct (too_long (entry_name e)); [discriminate |].
  destruct (fs st !! e) as [[|d]|]; try discriminate.
  intros [= ->]. reflexivity.
Qed.

Lemma manifest_of_file file t data :
  file_at t (join (dirname file) manifest_name) = Some data ->
  manifest file t =
  res_bind (res_bind (res_map universal_newlines (Utf8.decode data)) loads)
           items.
Proof.
  intros Hf. unfold manifest, load_manifest, bind.
  rewrite (read_text_file _ (State t []) data Hf).
  destruct (res_map universal_newlines (Utf8.decode data)); reflexivity.
Qed.

(** X7.  Lines 6 and 8: a manifest file that is there but cannot be used stops
    the run before the loop, with nothing written, removed or printed.  That
    is so when its bytes are not UTF-8, when its text is not JSON, and when
    the JSON value is not an object: [.items()] then raises
    [AttributeError]. *)
Theorem unusable_manifest_stops_the_run file t data :
  file_at t (join (dirname file) manifest_name) = Some data ->
  (forall e,
      Utf8.decode data = Raise e -> run file t = (State t [], Raise e))
  /\ (forall text e,
        Utf8.decode data = Ok text ->
        loads (universal_newlines text) = Raise e ->
        run file t = (State t [], Raise e))
  /\ (forall text j,
        Utf8.decode data = Ok text ->
        loads (universal_newlines text) = Ok j ->
        (forall d, j <> JObject d) ->
        run file t = (State t [], Raise AttributeError)).
Proof.
  intros Hf. pose proof (manifest_of_file _ _ _ Hf) as Hm. split_and!.
  - intros e He. apply run_manifest_raise. rewrite Hm, He. reflexivity.
  - intros text e Ht He. apply run_manifest_raise. rewrite Hm, Ht. simpl.
    rewrite He. reflexivity.
  - intros text j Ht Hj Hno. apply run_manifest_raise. rewrite Hm, Ht. simpl.
    rewrite Hj. simpl. destruct j; try reflexivity.
    destruct (Hno d). reflexivity.
Qed.

Lemma unusable_manifest_stops_the_run_witness :
  run example_file tree_array_manifest
  = (State tree_array_manifest [], Raise AttributeError).
Proof.
  refine (proj2 (proj2 (unusable_manifest_stops_the_run
                          example_file tree_array_manifest
                          (json_text "['a.txt', 'eA==']") _))
                (json_text "['a.txt', 'eA==']")
                (JArray [JString (lit "a.txt"); JString (lit "eA==")])
                _ _ _).
  - vm_compute. reflexivity.
  - vm_compute. reflexivity.
  - vm_compute. reflexivity.
  - intros d. discriminate.
Defined.

(** X8.  Lines 8 and 9: a value of the manifest that is not a JSON string (a
    number, a nested object, a list, [null]) is only found when the loop
    gets to it.  [base64.b64decode] raises [TypeError] there, after the
    entries before it have been written; nothing is removed. *)
Theorem value_of_wrong_type_aborts file t pre k v post st1 :
  manifest file t = Ok (pre ++ (k, v) :: post) ->
  (forall s, v <> JString s) ->
  write_loop (dirname file) pre (State t []) = (st1, Ok tt) ->
  run file t = (st1, Raise TypeError) /\ stopped_after file t pre st1.
Proof.
  intros Hm Hv Hpre.
  assert (decode_content v = Raise TypeError) as Hdec.
  { destruct v; try reflexivity. destruct (Hv s). reflexivity. }
  split.
  - apply (run_aborts_at _ _ _ _ _ _ _ _ _ Hm Hpre).
    unfold write_entry. apply bind_raise. unfold lift. rewrite Hdec.
    reflexivity.
  - apply stopped_after_prefix; [| exact Hpre].
    apply (run_manifest_ok _ _ _ Hm).
Qed.

Lemma value_of_wrong_type_aborts_witness :
  run example_file tree_nested_value
  = (fst (write_loop (dirname example_file)
            [(lit "a.txt", JString (lit "eA=="))]
            (State tree_nested_value [])), Raise TypeError)
  /\ stopped_after example_file tree_nested_value
       [(lit "a.txt", JString (lit "eA=="))]
       (fst (write_loop (dirname example_file)
               [(lit "a.txt", JString (lit "eA=="))]
               (State tree_nested_value []))).
Proof.
  apply (value_of_wrong_type_aborts example_file tree_nested_value
           [(lit "a.txt", JString (lit "eA=="))] (lit "sub")
           (JObject [(lit "b.txt", JString (lit "eQ=="))]) []).
  - vm_compute. reflexivity.
  - intros s. discriminate.
  - vm_compute. reflexivity.
Defined.

(** ** The tree after a run *)

Lemma cleanup_outcome_same_dirs base st st' r :
  cleanup_outcome base st st' r -> same_dirs (fs st) (fs st').
Proof.
  intros [e He | pm d e Hpm Hd He | pm d ps d' Hpm Hd Hps Hd']; simpl.
  - apply same_dirs_refl.
  - apply (same_dirs_delete_file _ _ _ Hd).
  - eapply same_dirs_trans; [apply (same_dirs_delete_file _ _ _ Hd) |].
    apply (same_dirs_delete_file _ _ _ Hd').
Qed.

Lemma cleanup_outcome_untouched base t st st' r q :
  same_dirs t (fs st) ->
  cleanup_outcome base st st' r ->
  dest t (join base manifest_name) <> Some q ->
  dest t (join base script_name) <> Some q ->
  fs st' !! q = fs st !! q.
Proof.
  intros Hsame Hc Hm Hs.
  destruct Hc as [e He | pm d e Hpm Hd He | pm d ps d' Hpm Hd Hps Hd']; simpl.
  - reflexivity.
  - rewrite <- (dest_same_dirs _ _ _ Hsame) in Hpm.
    apply lookup_delete_ne. congruence.
  - rewrite <- (dest_same_dirs _ _ _ Hsame) in Hpm.
    assert (same_dirs t (delete pm (fs st))) as Hsame'.
    { eapply same_dirs_trans; [exact Hsame |].
      apply (same_dirs_delete_file _ _ _ Hd). }
    rewrite <- (dest_same_dirs _ _ _ Hsame') in Hps.
    rewrite lookup_delete_ne by congruence.
    apply lookup_delete_ne. congruence.
Qed.

(** X9.  The whole script: whatever the manifest holds and however the run ends,
    the tree it leaves has exactly the directories it started with.  The
    script makes no directory (there is no [os.makedirs]), removes none, and
    never puts a file in the place of one. *)
Theorem run_keeps_the_directories file t :
  same_dirs t (fs (fst (run file t))).
Proof.
  destruct (manifest file t) as [entries|e] eqn:Hm.
  - destruct (run file t) as [st r] eqn:Hrun. simpl.
    destruct (run_inv _ _ _ _ _ Hm Hrun) as (st1 & r1 & Hs & Hend).
    apply steps_same_dirs in Hs. simpl in Hs.
    destruct Hend as [(e & _ & -> & _) | [_ Hc]]; [exact Hs |].
    eapply same_dirs_trans; [exact Hs |].
    apply (cleanup_outcome_same_dirs _ _ _ _ Hc).
  - rewrite (run_manifest_raise _ _ _ Hm). apply same_dirs_refl.
Qed.

(** X10.  The whole script: a run changes nothing but the files its keys lead to
    and the two files of the cleanup.  Every other entry of the tree is
    after the run, however it ends, what it was before. *)
Theorem run_touches_nothing_else file t entries st r q :
  manifest file t = Ok entries ->
  run file t = (st, r) ->
  (forall k v, (k, v) ∈ entries -> dest t (join (dirname file) k) <> Some q) ->
  dest t (join (dirname file) manifest_name) <> Some q ->
  dest t (join (dirname file) script_name) <> Some q ->
  fs st !! q = t !! q.
Proof.
  intros Hm Hrun Hkeys Hqm Hqs.
  destruct (run_inv _ _ _ _ _ Hm Hrun) as (st1 & r1 & Hs & Hend).
  pose proof (steps_untouched _ _ _ _ _ q Hs Hkeys) as Hq. simpl in Hq.
  destruct Hend as [(e & _ & -> & _) | [_ Hc]]; [exact Hq |].
  rewrite <- Hq. apply steps_same_dirs in Hs. simpl in Hs.
  apply (cleanup_outcome_untouched _ _ _ _ _ _ Hs Hc Hqm Hqs).
Qed.

Lemma run_touches_nothing_else_witness :
  fs (fst (run example_file tree_bystander))
    !! [lit "srv"; lit "app"; lit "notes.txt"]
  = tree_bystander !! [lit "srv"; lit "app"; lit "notes.txt"]
  /\ tree_bystander !! [lit "srv"; lit "app"; lit "notes.txt"]
     = Some (File (lit "keep")).
Proof.
  split; [| vm_compute; reflexivity].
  apply (run_touches_nothing_else example_file tree_bystander
           [(lit "a.txt", JString (lit "eA=="));
            (lit "b.txt", JString (lit "eQp6Cg=="))]
           (fst (run example_file tree_bystander))
           (snd (run example_file tree_bystander))).
  - vm_compute. reflexivity.
  - apply surjective_pairing.
  - intros k v Hin.
    apply elem_of_cons in Hin as [[= -> ->] | Hin];
      [vm_compute; discriminate |].
    apply elem_of_cons in Hin as [[= -> ->] | Hin];
      [vm_compute; discriminate |].
    inversion Hin.
  - vm_compute. discriminate.
  - vm_compute. discriminate.
Defined.

(** ** When a run succeeds *)

Lemma uint_digits_scalar d : Forall is_scalar (uint_digits d).
Proof.
  induction d; cbn [uint_digits]; constructor; try assumption;
    unfold is_scalar; lia.
Qed.

Lemma written_line_printable k n :
  Forall is_scalar k -> exists bs, Utf8.encode (written_line k n) = Ok bs.
Proof.
  intros Hk.
  destruct (Utf8Facts.encode_decode (written_line k n)) as (bs & He & _);
    [| eauto].
  unfold written_line. repeat apply Forall_app_2; try assumption.
  - repeat constructor; unfold is_scalar; simpl; lia.
  - repeat constructor; unfold is_scalar; simpl; lia.
  - apply uint_digits_scalar.
  - repeat constructor; unfold is_scalar; simpl; lia.
Qed.

Lemma write_entry_ready base k v st content p :
  decode_content v = Ok content ->
  Forall is_scalar k ->
  dest (fs st) (join base k) = Some p -> fs st !! p <> Some Dir ->
  exists st', write_entry base (k, v) st = (st', Ok tt).
Proof.
  intros Hdec Hk Hd Hno.
  pose proof (write_entry_outcome base k v st) as Ho.
  destruct (write_entry base (k, v) st) as [st' r]. simpl in Ho.
  destruct Ho as [e He | content' e _ Hopen | data content' p' e _ _ _ _ Hp
                  | data content' p' _ _ _ _].
  - congruence.
  - exfalso.
    destruct (open_w_spec (join base k) st)
      as [(x & _ & [Hnone | (e' & Hd' & Hdir)]) | (e' & Hopen' & _)];
      congruence.
  - destruct (written_line_printable k (newlines content') Hk) as (bs & Hbs).
    congruence.
  - eauto.
Qed.

Lemma write_loop_ready base t entries :
  Forall (entry_ready t base) entries ->
  forall st, same_dirs t (fs st) ->
  exists st', write_loop base entries st = (st', Ok tt).
Proof.
  induction 1 as [|[k v] entries (Hdec & Hk & p & Hd & Hno) _ IH];
    intros st Hsame.
  - exists st. reflexivity.
  - simpl in Hdec, Hk, Hd.
    destruct (decode_content v) as [content|] eqn:Ec; [| discriminate].
    destruct (write_entry_ready base k v st content p Ec Hk) as (st1 & H1).
    + rewrite <- (dest_same_dirs _ _ _ Hsame). exact Hd.
    + intros Hdir. apply Hno, Hsame, Hdir.
    + pose proof (write_entry_outcome base k v st) as Ho.
      rewrite H1 in Ho. simpl in Ho.
      apply entry_outcome_same_dirs in Ho.
      destruct (IH st1) as (st' & H').
      { eapply same_dirs_trans; eassumption. }
      exists st'. cbn [write_loop]. rewrite (bind_ok _ _ _ _ _ H1). exact H'.
Qed.

Lemma cleanup_ready base t st :
  same_dirs t (fs st) ->
  (forall q d, t !! q = Some (File d) -> exists d', fs st !! q = Some (File d')) ->
  is_Some (file_at t (join base manifest_name)) ->
  is_Some (file_at t (join base script_name)) ->
  exists st', cleanup base st = (st', Ok tt).
Proof.
  intros Hsame Hstay [dm Hm] [ds Hs].
  unfold file_at in Hm, Hs.
  destruct (dest t (join base manifest_name)) as [pm|] eqn:Epm; [| discriminate].
  destruct (dest t (join base script_name)) as [ps|] eqn:Eps; [| discriminate].
  destruct (t !! pm) as [[|dm']|] eqn:Em; try discriminate.
  destruct (t !! ps) as [[|ds']|] eqn:Es; try discriminate.
  destruct (Hstay _ _ Em) as (dm1 & Hm1).
  destruct (Hstay _ _ Es) as (ds1 & Hs1).
  pose proof (dest_manifest_script _ _ _ _ _ Epm Eps) as Hne.
  pose proof (cleanup_outcome_run base st) as Hc.
  destruct (cleanup base st) as [st' r]. simpl in Hc.
  destruct Hc as [e He | pm' d e Hpm Hd He | pm' d ps' d' Hpm Hd Hps Hd'].
  - exfalso.
    destruct (remove_spec (join base manifest_name) st)
      as [(x & _ & Hno & _) | (e' & d & Hr & _)]; [| congruence].
    apply (Hno pm dm1); [| exact Hm1].
    rewrite <- (dest_same_dirs _ _ _ Hsame). exact Epm.
  - exfalso.
    rewrite <- (dest_same_dirs _ _ _ Hsame), Epm in Hpm.
    injection Hpm as <-.
    assert (same_dirs t (delete pm (fs st))) as Hsame'.
    { eapply same_dirs_trans; [exact Hsame |].
      apply (same_dirs_delete_file _ _ _ Hd). }
    destruct (remove_spec (join base script_name)
                (State (delete pm (fs st)) (log st ++ [EvRemove pm])))
      as [(x & _ & Hno & _) | (e' & d2 & Hr & _)]; [| congruence].
    apply (Hno ps ds1); simpl.
    + rewrite <- (dest_same_dirs _ _ _ Hsame'). exact Eps.
    + rewrite lookup_delete_ne by congruence. exact Hs1.
  - eauto.
Qed.

(** X11.  The whole script: what is enough for a run to succeed.  When the
    manifest is a JSON object, every value decodes (base64, then UTF-8),
    every key is made of Unicode scalar values and leads to an entry of an
    existing directory that is not a directory, and a regular file stands
    under the script's name in the base directory, then the run goes through
    the loop and the cleanup and ends without an exception. *)
Theorem run_succeeds file t entries :
  manifest file t = Ok entries ->
  Forall (entry_ready t (dirname file)) entries ->
  is_Some (file_at t (join (dirname file) script_name)) ->
  exists st, run file t = (st, Ok tt).
Proof.
  intros Hm Hready Hscript.
  destruct (run_manifest_ok _ _ _ Hm) as [Hrun Hmf]. rewrite Hrun.
  destruct (write_loop_ready _ _ _ Hready (State t []) (same_dirs_refl t))
    as (st1 & H1).
  pose proof (write_loop_steps (dirname file) entries (State t [])) as Hs.
  rewrite H1 in *. simpl in Hs.
  apply (cleanup_ready _ t).
  - apply (steps_same_dirs _ _ _ _ _ Hs).
  - intros q d Hq. apply (steps_file_stays _ _ _ _ _ q d Hs Hq).
  - exact Hmf.
  - exact Hscript.
Qed.

Lemma run_succeeds_witness :
  exists st, run example_file tree_two_files = (st, Ok tt).
Proof.
  apply (run_succeeds example_file tree_two_files
           [(lit "a.txt", JString (lit "eA=="));
            (lit "b.txt", JString (lit "eQp6Cg=="))]).
  - vm_compute. reflexivity.
  - repeat constructor; try (unfold is_scalar; simpl; lia).
    + exists [lit "srv"; lit "app"; lit "a.txt"].
      split; [vm_compute; reflexivity | vm_compute; discriminate].
    + exists [lit "srv"; lit "app"; lit "b.txt"].
      split; [vm_compute; reflexivity | vm_compute; discriminate].
  - vm_compute. eexists. reflexivity.
Defined.

(** ** A cleanup that stops half way *)

(** X12.  Lines 17 and 18: when, after the loop, no regular file stands under the
    name [_write_files.py] in the base directory (the script is stored under
    another name), the run has written every entry and removed the manifest
    when the second [os.remove] raises: the manifest is gone, the final line
    is not printed, and the exception is [FileNotFoundError] when the name
    is simply not there. *)
Theorem missing_script_stops_the_cleanup file t entries st1 :
  manifest file t = Ok entries ->
  write_loop (dirname file) entries (State t []) = (st1, Ok tt) ->
  file_at (fs st1) (join (dirname file) script_name) = None ->
  exists pm e,
    dest t (join (dirname file) manifest_name) = Some pm
    /\ run file t
       = (State (delete pm (fs st1)) (log st1 ++ [EvRemove pm]), Raise e)
    /\ Forall2 (write_for t (dirname file)) entries (writes (log st1))
    /\ removes (log st1 ++ [EvRemove pm]) = [pm]
    /\ file_at (delete pm (fs st1)) (join (dirname file) manifest_name) = None
    /\ (lit "Cleanup done"
          ∉ stdout (State (delete pm (fs st1)) (log st1 ++ [EvRemove pm])))
    /\ (forall ps,
          dest t (join (dirname file) script_name) = Some ps ->
          fs st1 !! ps = None -> e = FileNotFoundError).
Proof.
  intros Hm Hloop Hnone.
  destruct (run_manifest_ok _ _ _ Hm) as [Hrun [dm Hmf]].
  rewrite Hloop in Hrun.
  pose proof (write_loop_steps (dirname file) entries (State t [])) as Hs.
  rewrite Hloop in Hs. simpl in Hs.
  pose proof (steps_same_dirs _ _ _ _ _ Hs) as Hsame. simpl in Hsame.
  destruct (steps_log _ _ _ _ _ Hs) as (l & Hl & Hev). simpl in Hl.
  destruct (steps_ok _ _ _ _ Hs) as (ws & lines & Hws & _ & Hw & _).
  simpl in Hws, Hw. subst ws.
  unfold file_at in Hmf.
  destruct (dest t (join (dirname file) manifest_name)) as [pm|] eqn:Epm;
    [| discriminate].
  destruct (t !! pm) as [[|dm']|] eqn:Em; try discriminate.
  destruct (steps_file_stays _ _ _ _ _ pm dm' Hs Em) as (dm1 & Hm1).
  pose proof (cleanup_outcome_run (dirname file) st1) as Hc.
  rewrite <- Hrun in Hc.
  destruct (run file t) as [st r]. simpl in Hc.
  assert (same_dirs t (delete pm (fs st1))) as Hsame'.
  { eapply same_dirs_trans; [exact Hsame |].
    apply (same_dirs_delete_file _ _ _ Hm1). }
  destruct Hc as [e He | pm' d e Hpm Hd He | pm' d ps' d' Hpm Hd Hps Hd'].
  - exfalso.
    destruct (remove_spec (join (dirname file) manifest_name) st1)
      as [(x & _ & Hno & _) | (e' & d & Hr & _)]; [| congruence].
    apply (Hno pm dm1); [| exact Hm1].
    rewrite <- (dest_same_dirs _ _ _ Hsame). exact Epm.
  - rewrite <- (dest_same_dirs _ _ _ Hsame), Epm in Hpm.
    injection Hpm as <-.
    exists pm, e. split_and!; try done.
    + rewrite Hl. unfold removes. rewrite omap_app.
      change (omap _ l) with (removes l). rewrite (removes_loop l Hev).
      reflexivity.
    + unfold file_at. rewrite <- (dest_same_dirs _ _ _ Hsame'), Epm.
      rewrite lookup_delete_eq. reflexivity.
    + unfold stdout. simpl. rewrite omap_app. simpl. rewrite app_nil_r.
      apply stdout_loop. rewrite Hl. exact Hev.
    + intros ps Eps Hps.
      destruct (remove_spec (join (dirname file) script_name)
                  (State (delete pm (fs st1)) (log st1 ++ [EvRemove pm])))
        as [(x & Hx & _ & Hnf) | (e' & d2 & Hr & _)]; [| congruence].
      rewrite He in Hx. injection Hx as ->.
      apply (Hnf ps); simpl.
      * rewrite <- (dest_same_dirs _ _ _ Hsame'). exact Eps.
      * rewrite lookup_delete_ne; [exact Hps |].
        apply (dest_manifest_script _ _ _ _ _ Epm Eps).
  - exfalso.
    rewrite <- (dest_same_dirs _ _ _ Hsame), Epm in Hpm.
    injection Hpm as <-.
    rewrite <- (dest_same_dirs _ _ _ Hsame'),
      (dest_same_dirs _ _ _ Hsame) in Hps.
    unfold file_at in Hnone. rewrite Hps in Hnone.
    assert (pm <> ps') as Hne.
    { rewrite <- (dest_same_dirs _ _ _ Hsame) in Hps.
      apply (dest_manifest_script _ _ _ _ _ Epm Hps). }
    rewrite lookup_delete_ne in Hd' by exact Hne.
    rewrite Hd' in Hnone. discriminate.
Qed.

Lemma missing_script_stops_the_cleanup_witness :
  exists pm e,
    dest tree_renamed_script (join (dirname example_file) manifest_name)
    = Some pm
    /\ run example_file tree_renamed_script
       = (State
            (delete pm
               (fs (fst (write_loop (dirname example_file)
                           [(lit "a.txt", JString (lit "eA=="));
                            (lit "b.txt", JString (lit "eQp6Cg=="))]
                           (State tree_renamed_script [])))))
            (log (fst (write_loop (dirname example_file)
                         [(lit "a.txt", JString (lit "eA=="));
                          (lit "b.txt", JString (lit "eQp6Cg=="))]
                         (State tree_renamed_script [])))
             ++ [EvRemove pm]),
          Raise e)
    /\ e = FileNotFoundError.
Proof.
  destruct (missing_script_stops_the_cleanup example_file tree_renamed_script
              [(lit "a.txt", JString (lit "eA=="));
               (lit "b.txt", JString (lit "eQp6Cg=="))]
              (fst (write_loop (dirname example_file)
                      [(lit "a.txt", JString (lit "eA=="));
                       (lit "b.txt", JString (lit "eQp6Cg=="))]
                      (State tree_renamed_script []))))
    as (pm & e & Hpm & Hrun & _ & _ & _ & _ & He).
  - vm_compute. reflexivity.
  - vm_compute. reflexivity.
  - vm_compute. reflexivity.
  - exists pm, e. split_and!; [exact Hpm | exact Hrun |].
    apply (He [lit "srv"; lit "app"; script_name]);
      vm_compute; reflexivity.
Defined.

(** ** Keys that name a directory, keys that leave the base directory *)







Lemma dest_parent t base n D N p :
  resolve_dir t base = Some D ->
  path_arg n = Ok N -> plain_name N ->
  dest t (join base (lit "../" ++ n)) = Some p ->
  p = removelast D ++ [N].
Proof.
  intros HD Hn HN. unfold dest.
  destruct (path_arg (join base (lit "../" ++ n))) as [P|] eqn:HP; [| done].
  cbn [res_bind].
  unfold resolve_dir in HD.
  destruct (path_arg_join base (lit "../" ++ n) P eq_refl ltac:(discriminate) HP)
    as (B & K & HB & HK & Hnames & Hends & Hne).
  rewrite HB in HD. simpl in HD.
  destruct (walk t [] (names B)) as [D'|x] eqn:EW; [| discriminate].
  injection HD as ->.
  change (lit "../" ++ n) with ([46; 46] ++ [sep] ++ n) in HK.
  apply path_arg_app in HK as (A1 & K1 & HA1 & HK1 & ->).
  apply path_arg_app in HK1 as (A2 & N' & HA2 & HN' & ->).
  vm_compute in HA1. injection HA1 as <-.
  rewrite path_arg_sep in HA2. injection HA2 as <-.
  rewrite Hn in HN'. injection HN' as <-.
  assert (names P = (names B ++ [[46; 46]]) ++ [N]) as Hnames'.
  { rewrite Hnames. change ([46; 46] ++ [sep] ++ N) with ([46; 46] ++ sep :: N).
    rewrite names_app_sep, (names_plain N HN), app_assoc. reflexivity. }
  rewrite (namei_unfold t P _ N (Hne ltac:(discriminate)) Hnames').
  rewrite walk_app, EW. cbn [res_bind walk].
  change (is_dot [46; 46]) with false. change (is_dotdot [46; 46]) with true.
  cbn [res_bind].
  destruct (plain_not_dots N HN) as [-> ->]. cbn [orb].
  rewrite (Hends ltac:(discriminate)).
  assert (endswith_sep ([46; 46] ++ [sep] ++ N) = false) as ->.
  { change ([46; 46] ++ [sep] ++ N) with ([46; 46; sep] ++ N).
    rewrite endswith_sep_app by (destruct HN; done).
    apply plain_last, HN. }
  destruct (too_long (entry_name (removelast D ++ [N]))); [done |].
  intros [= <-]. reflexivity.
Qed.

(** X14.  Lines 10 and 11: the keys are not confined to the base directory.
    [os.path.join] drops the base when the key is absolute, and a key
    [../n] leads to the parent of the base directory: in a successful run
    its bytes are written there. *)
Theorem key_can_leave_the_base_directory :
  (forall base k, startswith_sep k = true -> join base k = k)
  /\ forall file t l1 n v l2 st D N,
       manifest file t = Ok (l1 ++ (lit "../" ++ n, v) :: l2) ->
       run file t = (st, Ok tt) ->
       resolve_dir t (dirname file) = Some D ->
       path_arg n = Ok N -> plain_name N ->
       exists data,
         b64decode_value v = Ok data
         /\ dest t (join (dirname file) (lit "../" ++ n))
            = Some (removelast D ++ [N])
         /\ (removelast D ++ [N], data) ∈ writes (log st).
Proof.
  split.
  - intros base k Hk. unfold join. rewrite Hk. reflexivity.
  - intros file t l1 n v l2 st D N Hm Hrun HD Hn HN.
    destruct (run_entry_file _ _ _ _ _ _ _ Hm Hrun)
      as (p & data & content & Hd & Hb & _ & Hw & _).
    pose proof (dest_parent _ _ _ _ _ _ HD Hn HN Hd) as ->.
    exists data. split_and!; done.
Qed.

Lemma key_can_leave_the_base_directory_witness :
  exists data,
    b64decode_value (JString (lit "eA==")) = Ok data
    /\ dest tree_parent_key
            (join (dirname example_file) (lit "../" ++ lit "up.txt"))
       = Some (removelast [lit "srv"; lit "app"] ++ [lit "up.txt"])
    /\ (removelast [lit "srv"; lit "app"] ++ [lit "up.txt"], data)
         ∈ writes (log (fst (run example_file tree_parent_key))).
Proof.
  apply (proj2 key_can_leave_the_base_directory
           example_file tree_parent_key [] (lit "up.txt")
           (JString (lit "eA==")) []
           (fst (run example_file tree_parent_key))
           [lit "srv"; lit "app"] (lit "up.txt")).
  - vm_compute. reflexivity.
  - vm_compute. reflexivity.
  - vm_compute. reflexivity.
  - vm_compute. reflexivity.
  - split_and!; try discriminate.
    vm_compute. intros H.
    repeat (apply elem_of_cons in H as [H|H]; [discriminate |]).
    inversion H.
Defined.
